(** * Life PM: the Kanban board's ordering engine and the task store

    A shallow embedding of the drag-and-drop reordering logic of the board
    view (the variant built on @hello-pangea/dnd with optimistic local
    state, and the variant built on @dnd-kit), of the column projection
    [tasksByStatus], and of [updateTask] from [contexts/AppContext.tsx].

    Modelling conventions.
    - A JS [number] holding an order or a timestamp is a [Z]; a list
      position handed over by the drag library is a [nat].
    - [createdAt] is kept as the value of [new Date(createdAt).getTime()].
    - [new Date().toISOString()] reads the clock: the reading is the
      parameter [now] of every function that stamps a task.
    - An optional field ([order?: number]) is an [option]; an absent
      order and [undefined] are both [None].
    - A [TypeError] raised by the code is an outcome of its own ([Thrown],
      [Raised]); an early [return;] of a handler is the outcome
      [Returned].
    - The handlers and the projection are studied on the task list they
      are given.  Of the filters of the board, the filter by project is
      modelled ([BoardView.filteredTasks]); the filter by area stays at
      ['all'], its initial value, the area of a task not being among the
      modelled fields. *)

From stdpp Require Import base numbers option list strings gmap sorting.

Local Open Scope string_scope.
Local Open Scope list_scope.
Local Open Scope Z_scope.

(** ** The data model ([lib/types], reconstructed from its uses) *)

(** The fields of a task that the code under study reads or writes.  The
    remaining descriptive fields (description, priority, tags, ...) are
    carried along untouched exactly like [title].  The keys [order],
    [projectId], [isToday] and [completedAt] are optional: the code builds
    tasks without them. *)
Record Task := mkTask {
  id : string;
  title : string;
  status : string;
  order : option Z;
  projectId : option string;
  isToday : option bool;
  createdAt : Z;
  updatedAt : Z;
  completedAt : option Z
}.

#[global] Instance Task_eq_dec : EqDecision Task.
Proof. solve_decision. Defined.

(** [Partial<Task>]: every key may be absent.  For the optional fields the
    inner option is the value stored under a present key. *)
Module Partial.
Record t := mk {
  id : option string;
  title : option string;
  status : option string;
  order : option (option Z);
  projectId : option (option string);
  isToday : option (option bool);
  createdAt : option Z;
  updatedAt : option Z;
  completedAt : option (option Z)
}.
Definition empty : t := mk None None None None None None None None None.
(** [{ status }] *)
Definition ofStatus (s : string) : t :=
  mk None None (Some s) None None None None None None.
(** [{ order: o }] *)
Definition ofOrder (o : option Z) : t :=
  mk None None None (Some o) None None None None None.
End Partial.

(** The lifecycle states, in display order (the [id]s of [COLUMNS]). *)
Definition COLUMNS : list string :=
  ["backlog"; "todo"; "in-progress"; "blocked"; "done"].

(** [COLUMNS.some(c => c.id === s)] *)
Definition isColumn (s : string) : bool := bool_decide (s ∈ COLUMNS).

(** ** Sorting *)

Definition MAX_SAFE_INTEGER : Z := 9007199254740991.

(** The comparator passed to every [sort] of the board. *)
Definition compareTasks (a b : Task) : Z :=
  let orderA := default MAX_SAFE_INTEGER (order a) in
  let orderB := default MAX_SAFE_INTEGER (order b) in
  if bool_decide (orderA ≠ orderB) then orderA - orderB
  else createdAt a - createdAt b.

(** [Array.prototype.sort] is stable; with a consistent comparator its
    result is the stable insertion sort below. *)
Fixpoint sortInsert {A} (compareFn : A → A → Z) (x : A) (l : list A) : list A :=
  match l with
  | [] => [x]
  | y :: l' =>
      if bool_decide (compareFn x y ≤ 0) then x :: y :: l'
      else y :: sortInsert compareFn x l'
  end.

Definition sort {A} (compareFn : A → A → Z) (l : list A) : list A :=
  foldr (sortInsert compareFn) [] l.

(** The order a comparator induces: [a] may stand before [b]; and [a]
    must stand before [b]. *)
Definition leOf {A} (compareFn : A → A → Z) : relation A :=
  λ a b, compareFn a b ≤ 0.

Definition ltOf {A} (compareFn : A → A → Z) : relation A :=
  λ a b, compareFn a b < 0 ∧ ¬ compareFn b a ≤ 0.

(** [a.splice(start, 1)] on a list position: the removed element, if any,
    and what is left. *)
Definition spliceOut {A} (start : nat) (l : list A) : option A * list A :=
  (l !! start, delete start l).

(** [a.splice(start, 0, x)]: a start past the end inserts at the end. *)
Definition spliceIn {A} (start : nat) (x : A) (l : list A) : list A :=
  take start l ++ x :: drop start l.

(** [l.find(t => t.id === taskId)] and [l.findIndex(t => t.id === taskId)] *)
Definition findById (taskId : string) (l : list Task) : option Task :=
  snd <$> list_find (λ t, id t = taskId) l.

Definition findIndexById (taskId : string) (l : list Task) : option nat :=
  fst <$> list_find (λ t, id t = taskId) l.

(** ** Outcomes of code that may raise *)

Inductive Completion (A : Type) :=
  | Normal (a : A)
  | Thrown.
Arguments Normal {A} a.
Arguments Thrown {A}.

(** ** The column projection (identical in both board variants) *)

(** The object literal [{ backlog: [], todo: [], ... }]. *)
Definition emptyGrouped : gmap string (list Task) :=
  <["backlog" := []]> (<["todo" := []]> (<["in-progress" := []]>
    (<["blocked" := []]> (<["done" := []]> ∅)))).

(** [filteredTasks.forEach(task => grouped[task.status].push(task))]:
    under a key that is not a column [grouped[...]] has no [push], and the
    call raises. *)
Fixpoint pushAll (tasks : list Task) (grouped : gmap string (list Task))
  : Completion (gmap string (list Task)) :=
  match tasks with
  | [] => Normal grouped
  | task :: rest =>
      match grouped !! status task with
      | Some column => pushAll rest (<[status task := column ++ [task]]> grouped)
      | None => Thrown
      end
  end.

Definition tasksByStatus (filteredTasks : list Task)
  : Completion (gmap string (list Task)) :=
  match pushAll filteredTasks emptyGrouped with
  | Normal grouped => Normal (sort compareTasks <$> grouped)
  | Thrown => Thrown
  end.

(** ** The task store: [updateTask] of the application context *)

Module AppContext.

(** [{ ...t, ...updates, updatedAt: now }], then [completedAt] is set
    when the update moves the task to done. *)
Definition merge (now : Z) (updates : Partial.t) (t : Task) : Task :=
  let updated :=
    {| id := default (id t) (Partial.id updates);
       title := default (title t) (Partial.title updates);
       status := default (status t) (Partial.status updates);
       order := default (order t) (Partial.order updates);
       projectId := default (projectId t) (Partial.projectId updates);
       isToday := default (isToday t) (Partial.isToday updates);
       createdAt := default (createdAt t) (Partial.createdAt updates);
       updatedAt := now;
       completedAt := default (completedAt t) (Partial.completedAt updates) |} in
  if bool_decide (Partial.status updates = Some "done")
     && bool_decide (status t ≠ "done")
  then {| id := id updated; title := title updated; status := status updated;
          order := order updated; projectId := projectId updated;
          isToday := isToday updated; createdAt := createdAt updated;
          updatedAt := updatedAt updated; completedAt := Some now |}
  else updated.

(** The [newTasks] computed by [updateTask]. *)
Definition newTasks (now : Z) (tasks : list Task) (taskId : string)
    (updates : Partial.t) : list Task :=
  (λ t, if bool_decide (id t = taskId) then merge now updates t else t) <$> tasks.

(** [updateTask(id, updates)] against the task list of the current
    profile ([None] when there is no current profile): the result is the
    list handed to [updateCurrentProfile({ tasks: newTasks })], or [None]
    when the function returns without writing. *)
Definition updateTask (now : Z) (currentProfileTasks : option (list Task))
    (taskId : string) (updates : Partial.t) : option (list Task) :=
  match currentProfileTasks with
  | None => None
  | Some tasks => Some (newTasks now tasks taskId updates)
  end.

(** [updateTaskStatus(id, status)] is [updateTask(id, { status })]. *)
Definition updateTaskStatus (now : Z) (currentProfileTasks : option (list Task))
    (taskId : string) (s : string) : option (list Task) :=
  updateTask now currentProfileTasks taskId (Partial.ofStatus s).

End AppContext.

(** The calls a board handler makes on the context. *)
Inductive Call :=
  | CallUpdateTaskStatus (taskId : string) (s : string)
  | CallUpdateTask (taskId : string) (updates : Partial.t).

#[global] Instance Partial_eq_dec : EqDecision Partial.t.
Proof. solve_decision. Defined.
#[global] Instance Call_eq_dec : EqDecision Call.
Proof. solve_decision. Defined.

(** Applying the emitted updates to a task list: one call, then a
    sequence of calls in order, each against the list the previous one
    yields.  [runCall] is the list that one call of the context computes
    from the task list it reads.  [runCalls] is the abstract application of
    a set of updates that the specification speaks of; it is not the
    context's state after a run of a handler: the calls of one run all read
    the task list of the same render, and each ends in a [setData] of the
    list it computed. *)
Definition runCall (now : Z) (tasks : list Task) (c : Call) : list Task :=
  match c with
  | CallUpdateTaskStatus taskId s =>
      AppContext.newTasks now tasks taskId (Partial.ofStatus s)
  | CallUpdateTask taskId updates =>
      AppContext.newTasks now tasks taskId updates
  end.

Definition runCalls (now : Z) (calls : list Call) (tasks : list Task) : list Task :=
  foldl (runCall now) tasks calls.

(** ** The board with optimistic local state (@hello-pangea/dnd) *)

Module Board.

(** What the drag library reports: a droppable (a column id) and a
    position in it. *)
Record DraggableLocation := mkLocation {
  droppableId : string;
  index : nat
}.

Record DropResult := mkDropResult {
  destination : option DraggableLocation;
  source : DraggableLocation;
  draggableId : string
}.

(** What one run of the handler does: it returns early and touches
    nothing; or it installs [updatedTasks] as the local state and then
    makes [calls] on the context; or it raises before either. *)
Inductive Outcome :=
  | Returned
  | Committed (updatedTasks : list Task) (calls : list Call)
  | Raised.

(** [{ ...t, status: destinationStatus, order: i, updatedAt: now }] *)
Definition moveTo (now : Z) (destinationStatus : string) (i : nat) (t : Task) : Task :=
  {| id := id t; title := title t; status := destinationStatus;
     order := Some (Z.of_nat i); projectId := projectId t; isToday := isToday t;
     createdAt := createdAt t; updatedAt := now; completedAt := completedAt t |}.

(** [{ ...t, order: o, updatedAt: now }] *)
Definition withOrder (now : Z) (o : nat) (t : Task) : Task :=
  {| id := id t; title := title t; status := status t;
     order := Some (Z.of_nat o); projectId := projectId t; isToday := isToday t;
     createdAt := createdAt t; updatedAt := now; completedAt := completedAt t |}.

(** The three numbering loops of the handler share one shape: walk the
    tasks [rest] of a sorted column with a running position [i], look
    each one up by id in [updatedTasks], and store [newOrder i] there.
    With [onlyIfChanged] the store is skipped when the order already has
    that value (the same-column loop); without it the store is
    unconditional (the two cross-column loops).  [assignOne] is the body
    of the loop for the column task [t] at position [i]. *)
Definition assignOne (now : Z) (onlyIfChanged : bool) (newOrder : nat → nat)
    (i : nat) (t : Task) (updatedTasks : list Task) : list Task :=
  match list_find (λ task, id task = id t) updatedTasks with
  | Some (taskIndex, current) =>
      if onlyIfChanged && bool_decide (order current = Some (Z.of_nat (newOrder i)))
      then updatedTasks
      else alter (withOrder now (newOrder i)) taskIndex updatedTasks
  | None => updatedTasks
  end.

Fixpoint assignOrders (now : Z) (onlyIfChanged : bool) (newOrder : nat → nat)
    (i : nat) (rest : list Task) (updatedTasks : list Task) : list Task :=
  match rest with
  | [] => updatedTasks
  | t :: rest' =>
      assignOrders now onlyIfChanged newOrder (S i) rest'
        (assignOne now onlyIfChanged newOrder i t updatedTasks)
  end.

(** The closing [updatedTasks.forEach]: for each task that the context
    knows, the status call and the order call it needs. *)
Definition persistOne (currentProfileTasks : list Task) (updatedTask : Task) : list Call :=
  match findById (id updatedTask) currentProfileTasks with
  | Some originalTask =>
      if bool_decide (status originalTask ≠ status updatedTask) then
        CallUpdateTaskStatus (id updatedTask) (status updatedTask) ::
        (if bool_decide (order originalTask ≠ order updatedTask)
         then [CallUpdateTask (id updatedTask) (Partial.ofOrder (order updatedTask))]
         else [])
      else if bool_decide (order originalTask ≠ order updatedTask) then
        [CallUpdateTask (id updatedTask) (Partial.ofOrder (order updatedTask))]
      else []
  | None => []
  end.

Definition persist (currentProfileTasks updatedTasks : list Task) : list Call :=
  updatedTasks ≫= persistOne currentProfileTasks.

(** The column of [s] as the handler computes it from a task list. *)
Definition column (s : string) (tasks : list Task) : list Task :=
  sort compareTasks (filter (λ t, status t = s) tasks).

(** The column of [s] without the dragged task. *)
Definition columnWithout (s taskId : string) (tasks : list Task) : list Task :=
  sort compareTasks (filter (λ t, status t = s ∧ id t ≠ taskId) tasks).

(** The cross-column branch. *)
Definition crossColumn (now : Z) (taskId : string) (taskIndex : nat)
    (src dest : DraggableLocation) (updatedTasks : list Task) : list Task :=
  let sourceStatus := droppableId src in
  let destinationStatus := droppableId dest in
  let updatedTasks :=
    alter (moveTo now destinationStatus (index dest)) taskIndex updatedTasks in
  let tasksInDestination := columnWithout destinationStatus taskId updatedTasks in
  let updatedTasks :=
    assignOrders now false (λ i, i + 1)%nat (index dest)
      (drop (index dest) tasksInDestination) updatedTasks in
  let tasksInSource := columnWithout sourceStatus taskId updatedTasks in
  assignOrders now false (λ i, i) (index src)
    (drop (index src) tasksInSource) updatedTasks.

(** The same-column branch; [None] when [movedTask] is [undefined], in
    which case the numbering loop raises on reading its [id]. *)
Definition sameColumn (now : Z) (src dest : DraggableLocation)
    (updatedTasks : list Task) : option (list Task) :=
  let tasksInStatus := column (droppableId src) updatedTasks in
  let oldIndex := index src in
  let newIndex := index dest in
  match spliceOut oldIndex tasksInStatus with
  | (Some movedTask, tasksInStatus) =>
      let tasksInStatus := spliceIn newIndex movedTask tasksInStatus in
      Some (assignOrders now true (λ i, i) 0 tasksInStatus updatedTasks)
  | (None, _) => None
  end.

Definition handleDragEnd (now : Z) (currentProfileTasks localTasks : list Task)
    (result : DropResult) : Outcome :=
  match destination result with
  | None => Returned
  | Some dest =>
      let src := source result in
      if bool_decide (droppableId dest = droppableId src)
         && bool_decide (index dest = index src)
      then Returned
      else
        let taskId := draggableId result in
        match findById taskId localTasks with
        | None => Returned
        | Some _ =>
            let sourceStatus := droppableId src in
            let destinationStatus := droppableId dest in
            if negb (isColumn sourceStatus) || negb (isColumn destinationStatus)
            then Returned
            else
              match findIndexById taskId localTasks with
              | None => Returned
              | Some taskIndex =>
                  if bool_decide (sourceStatus ≠ destinationStatus) then
                    let updatedTasks :=
                      crossColumn now taskId taskIndex src dest localTasks in
                    Committed updatedTasks (persist currentProfileTasks updatedTasks)
                  else
                    match sameColumn now src dest localTasks with
                    | Some updatedTasks =>
                        Committed updatedTasks
                          (persist currentProfileTasks updatedTasks)
                    | None => Raised
                    end
              end
        end
  end.

(** The board renders the column of [s] from [tasksByStatus] and
    registers each card as a draggable under its id and its position;
    a drag of [taskId] is therefore reported with a source at which the
    column shows that task. *)
Definition shownAt (tasks : list Task) (taskId : string)
    (loc : DraggableLocation) : Prop :=
  ∃ t, column (droppableId loc) tasks !! index loc = Some t ∧ id t = taskId.

(** What the same-column loop leaves of the column task [u] standing at
    position [i]: the task itself when its order is already [i], the task
    with order [i] and a fresh stamp otherwise. *)
Definition renumber (now : Z) (i : nat) (u : Task) : Task :=
  if bool_decide (order u = Some (Z.of_nat i)) then u else withOrder now i u.

(** What a cross-column loop that starts at position [start] leaves of
    the column task [u] standing at position [m]: the task itself before
    [start], the task with the order [newOrder m] and a fresh stamp from
    [start] on. *)
Definition shifted (now : Z) (start : nat) (newOrder : nat → nat)
    (m : nat) (u : Task) : Task :=
  if bool_decide (m < start)%nat then u else withOrder now (newOrder m) u.

(** A column whose tasks carry their positions 0, 1, 2, ... as orders. *)
Definition numbered (s : string) (tasks : list Task) : Prop :=
  ∀ i u, column s tasks !! i = Some u → order u = Some (Z.of_nat i).

(** The observable effect of an outcome: the calls made on the context
    and the local state left behind. *)
Definition callsOf (o : Outcome) : list Call :=
  match o with Committed _ calls => calls | _ => [] end.

Definition localAfter (localTasks : list Task) (o : Outcome) : list Task :=
  match o with Committed updatedTasks _ => updatedTasks | _ => localTasks end.

(** Two tasks that the board cannot tell apart: the same id, status and
    order, and the same creation time.  The local state and the context
    hold such pairs after a drag and the application of its calls,
    differing in their stamps only. *)
Definition alike (u v : Task) : Prop :=
  id u = id v ∧ status u = status v ∧ order u = order v ∧ createdAt u = createdAt v.

(** The ids of a column, the sequence the board displays. *)
Definition columnIds (s : string) (tasks : list Task) : list string :=
  id <$> column s tasks.

End Board.

(** ** The board built on @dnd-kit (no local state) *)

Module SortableBoard.

(** [UniqueIdentifier = string | number] *)
Inductive UniqueIdentifier :=
  | IdString (s : string)
  | IdNumber (n : Z).

(** [over.data.current], read as [{ type?: string; status?: TaskStatus }]. *)
Record DroppableData := mkData {
  dataType : option string;
  dataStatus : option string
}.

Record Over := mkOver {
  overId : UniqueIdentifier;
  overData : option DroppableData
}.

(** [active.id] is used as a string throughout. *)
Record DragEndEvent := mkEvent {
  activeId : string;
  over : option Over
}.

(** [currentProfile.tasks.find(t => t.id === over.id)]: a number is
    never [===] to the string id of a task. *)
Definition findOver (overIdent : UniqueIdentifier) (tasks : list Task) : option Task :=
  match overIdent with
  | IdString s => findById s tasks
  | IdNumber _ => None
  end.

(** [arrayMove(array, from, to)] of @dnd-kit/sortable, for positions
    inside the array. *)
Definition arrayMove {A} (array : list A) (from to : nat) : list A :=
  match array !! from with
  | Some x => spliceIn to x (delete from array)
  | None => array
  end.

(** The loop [for (let i = startIndex; i <= endIndex; i++)] over the
    reordered column: one order call per task whose order is not its
    position. *)
Definition rangeCalls (reorderedTasks : list Task) (startIndex endIndex : nat) : list Call :=
  seq startIndex (S endIndex - startIndex) ≫= (λ i,
    match reorderedTasks !! i with
    | Some taskToUpdate =>
        if bool_decide (order taskToUpdate ≠ Some (Z.of_nat i))
        then [CallUpdateTask (id taskToUpdate) (Partial.ofOrder (Some (Z.of_nat i)))]
        else []
    | None => []
    end).

(** [Math.max(...tasks.map(t => t.order ?? 0), -1) + 1], or [0] for an
    empty column. *)
Definition maxOrder (tasksInNewStatus : list Task) : Z :=
  match tasksInNewStatus with
  | [] => 0
  | _ => foldr Z.max (-1) ((λ t, default 0 (order t)) <$> tasksInNewStatus) + 1
  end.

(** [s.startsWith(p)], [s.includes(p)] and, for a string that starts
    with [p], [s.replace(p, '')]. *)
Definition startsWith (p s : string) : bool := String.prefix p s.
Definition includes (p s : string) : bool :=
  match String.index 0 p s with Some _ => true | None => false end.
Definition dropPrefix (p s : string) : string :=
  String.substring (String.length p) (String.length s - String.length p) s.

(** The status named by a drop on a column: from the droppable's data
    first, by parsing the droppable's id otherwise. *)
Definition droppedStatus (o : Over) (overIdString : string) : option string :=
  let fromData :=
    match overData o with
    | Some droppableData =>
        match dataType droppableData, dataStatus droppableData with
        | Some ty, Some s =>
            if bool_decide (ty = "column") && negb (bool_decide (s = ""))
            then Some s else None
        | _, _ => None
        end
    | None => None
    end in
  match fromData with
  | Some s => Some s
  | None =>
      if startsWith "column-content-" overIdString
      then Some (dropPrefix "column-content-" overIdString)
      else if startsWith "column-" overIdString
              && negb (includes "content" overIdString)
      then Some (dropPrefix "column-" overIdString)
      else None
  end.

(** What one run of the handler does: the calls it makes on the
    context, and whether it then raised. *)
Inductive Outcome :=
  | Done (calls : list Call)
  | RaisedAfter (calls : list Call).

(** The handler, against the task list of the current profile and the
    columns [grouped] computed by [tasksByStatus] at the last render.
    Reading a column that [grouped] does not have raises. *)
Definition handleDragEnd (currentProfileTasks : list Task)
    (grouped : gmap string (list Task)) (event : DragEndEvent) : Outcome :=
  match over event with
  | None => Done []
  | Some o =>
      let taskId := activeId event in
      match findById taskId currentProfileTasks with
      | None => Done []
      | Some task =>
          match findOver (overId o) currentProfileTasks with
          | Some overTask =>
              if bool_decide (status overTask ≠ status task) then
                let statusCall := CallUpdateTaskStatus taskId (status overTask) in
                match grouped !! status overTask with
                | None => RaisedAfter [statusCall]
                | Some tasksInNewStatus =>
                    let overIndex :=
                      match findIndexById (id overTask) tasksInNewStatus with
                      | Some i => Z.of_nat i
                      | None => -1
                      end in
                    let newOrder := default overIndex (order overTask) in
                    Done [statusCall;
                          CallUpdateTask taskId (Partial.ofOrder (Some newOrder))]
                end
              else
                match grouped !! status task with
                | None => RaisedAfter []
                | Some tasksInStatus =>
                    match findIndexById taskId tasksInStatus,
                          findIndexById (id overTask) tasksInStatus with
                    | Some oldIndex, Some newIndex =>
                        if bool_decide (oldIndex ≠ newIndex) then
                          let reorderedTasks := arrayMove tasksInStatus oldIndex newIndex in
                          Done (rangeCalls reorderedTasks
                                  (Nat.min oldIndex newIndex) (Nat.max oldIndex newIndex))
                        else Done []
                    | _, _ => Done []
                    end
                end
          | None =>
              match overId o with
              | IdString overIdString =>
                  match droppedStatus o overIdString with
                  | Some newStatus =>
                      if negb (bool_decide (newStatus = ""))
                         && isColumn newStatus
                         && bool_decide (newStatus ≠ status task)
                      then
                        let statusCall := CallUpdateTaskStatus taskId newStatus in
                        match grouped !! newStatus with
                        | None => RaisedAfter [statusCall]
                        | Some tasksInNewStatus =>
                            Done [statusCall;
                                  CallUpdateTask taskId
                                    (Partial.ofOrder (Some (maxOrder tasksInNewStatus)))]
                        end
                      else Done []
                  | None => Done []
                  end
              | IdNumber _ => Done []
              end
          end
      end
  end.

(** The calls an outcome has made. *)
Definition callsOf (o : Outcome) : list Call :=
  match o with Done calls | RaisedAfter calls => calls end.

(** A card dropped on the card [overTaskId], with no droppable data. *)
Definition dropOnTask (taskId overTaskId : string) : DragEndEvent :=
  mkEvent taskId (Some (mkOver (IdString overTaskId) None)).

End SortableBoard.

(** ** The rest of the board with local state: keeping the local list in
    step with the context *)

Module BoardView.

(** The state of the component next to the context: the optimistic task
    list and the task count seen at the last synchronisation
    ([lastTaskCountRef.current]). *)
Record Local := mkLocal {
  localTasks : list Task;
  lastTaskCount : nat
}.

(** [new Set(tasks.map(t => t.id))] *)
Definition idSet (tasks : list Task) : gset string :=
  list_to_set (id <$> tasks).

(** [Array.from(a).some(id => !b.has(id))] *)
Definition someMissing (a b : gset string) : bool :=
  existsb (λ taskId, negb (bool_decide (taskId ∈ b))) (elements a).

(** One run of the synchronising effect against the task list of the
    context: the local list is replaced when the count changed, or when an
    id is missing on either side; it is kept otherwise. *)
Definition syncLocalTasks (currentProfileTasks : list Task) (st : Local) : Local :=
  let currentTaskCount := length currentProfileTasks in
  if bool_decide (currentTaskCount ≠ lastTaskCount st) then
    mkLocal currentProfileTasks currentTaskCount
  else
    let localTaskIds := idSet (localTasks st) in
    let contextTaskIds := idSet currentProfileTasks in
    let hasMissingTasks := someMissing localTaskIds contextTaskIds in
    let hasNewTasks := someMissing contextTaskIds localTaskIds in
    if hasMissingTasks || hasNewTasks then
      mkLocal currentProfileTasks currentTaskCount
    else st.

(** [filteredTasks] with the area filter at ['all']: the tasks that pass
    the project filter, all of them when it is ['all']. *)
Definition filteredTasks (projectFilter : string) (localTasks : list Task)
  : list Task :=
  filter (λ task, ¬ (projectFilter ≠ "all" ∧ projectId task ≠ Some projectFilter))
    localTasks.

(** The fields of a task that no branch of the drag handler writes. *)
Definition untouched (t : Task)
  : string * string * option string * option bool * Z * option Z :=
  (id t, title t, projectId t, isToday t, createdAt t, completedAt t).

End BoardView.

(** ** The provider: profiles, and the tasks and projects of the current one *)

Module AppProvider.

(** The fields of a project that the provider reads or writes; the
    descriptive ones (title, description, area, ...) are carried along
    untouched. *)
Module Project.
Record t := mk {
  id : string;
  status : string;
  archived : option bool;
  createdAt : Z;
  updatedAt : Z
}.
End Project.

(** [Partial<Project>] *)
Module ProjectPatch.
Record t := mk {
  id : option string;
  status : option string;
  archived : option (option bool);
  createdAt : option Z;
  updatedAt : option Z
}.
End ProjectPatch.

(** A profile with its projects and its tasks; its areas, ideas, tags
    and settings are carried along untouched by the actions below. *)
Module Profile.
Record t := mk {
  id : string;
  name : string;
  createdAt : Z;
  projects : list Project.t;
  tasks : list Task
}.
End Profile.

(** [Partial<Profile>] as the task and project actions build it: the
    keys [projects] and [tasks]. *)
Module ProfilePatch.
Record t := mk {
  projects : option (list Project.t);
  tasks : option (list Task)
}.
End ProfilePatch.

Record AppData := mkAppData {
  profiles : list Profile.t;
  currentProfileId : string;
  version : string
}.

Definition APP_VERSION : string := "1.0.0".

(** What one call of an action does to the provider's state: it returns
    without writing, it installs new data with [setData] (and hands them
    to [saveData], which swallows every failure), or it raises and the
    promise is rejected. *)
Inductive Effect :=
  | Nothing
  | SetData (newData : AppData)
  | Rejected.

(** [data?.profiles.find(p => p.id === data.currentProfileId) || data?.profiles[0]] *)
Definition currentProfile (data : option AppData) : option Profile.t :=
  match data with
  | None => None
  | Some d =>
      match list_find (λ p, Profile.id p = currentProfileId d) (profiles d) with
      | Some (_, p) => Some p
      | None => head (profiles d)
      end
  end.

(** [user] is the signed-in user's id, if any. *)
Definition persistData (user : option string) (newData : AppData) : Effect :=
  match user with
  | None => Nothing
  | Some _ => SetData newData
  end.

(** [{ ...p, ...updates }] *)
Definition patchProfile (updates : ProfilePatch.t) (p : Profile.t) : Profile.t :=
  Profile.mk (Profile.id p) (Profile.name p) (Profile.createdAt p)
    (default (Profile.projects p) (ProfilePatch.projects updates))
    (default (Profile.tasks p) (ProfilePatch.tasks updates)).

Definition updateCurrentProfile (user : option string) (data : option AppData)
    (updates : ProfilePatch.t) : Effect :=
  match data, currentProfile data with
  | Some d, Some current =>
      let newProfiles :=
        (λ p, if bool_decide (Profile.id p = Profile.id current)
              then patchProfile updates p else p) <$> profiles d in
      persistData user (mkAppData newProfiles (currentProfileId d) (version d))
  | _, _ => Nothing
  end.

(** *** Profile actions *)

Definition switchProfile (user : option string) (data : option AppData)
    (profileId : string) : Effect :=
  match data, user with
  | Some d, Some _ =>
      if existsb (λ p, bool_decide (Profile.id p = profileId)) (profiles d)
      then persistData user (mkAppData (profiles d) profileId (version d))
      else Nothing
  | _, _ => Nothing
  end.

(** [newId] is the value of [uuidv4()]. *)
Definition createProfile (user : option string) (newId : string) (now : Z)
    (data : option AppData) (name : string) : Effect :=
  match data with
  | None => Nothing
  | Some d =>
      let newProfile := Profile.mk newId name now [] [] in
      persistData user
        (mkAppData (profiles d ++ [newProfile]) (currentProfileId d) (version d))
  end.

Definition renameProfile (user : option string) (data : option AppData)
    (profileId name : string) : Effect :=
  match data with
  | None => Nothing
  | Some d =>
      let newProfiles :=
        (λ p, if bool_decide (Profile.id p = profileId)
              then Profile.mk (Profile.id p) name (Profile.createdAt p)
                     (Profile.projects p) (Profile.tasks p)
              else p) <$> profiles d in
      persistData user (mkAppData newProfiles (currentProfileId d) (version d))
  end.

(** [newProfiles[0].id] raises when no profile is left. *)
Definition deleteProfile (user : option string) (data : option AppData)
    (profileId : string) : Effect :=
  match data, user with
  | Some d, Some _ =>
      if bool_decide (length (profiles d) ≤ 1)%nat then Nothing
      else
        let newProfiles :=
          filter (λ p, Profile.id p ≠ profileId) (profiles d) in
        if bool_decide (currentProfileId d = profileId) then
          match head newProfiles with
          | Some first =>
              persistData user (mkAppData newProfiles (Profile.id first) (version d))
          | None => Rejected
          end
        else persistData user (mkAppData newProfiles (currentProfileId d) (version d))
  | _, _ => Nothing
  end.

(** *** Project actions *)

(** [{ ...p, ...updates, updatedAt: now }] *)
Definition mergeProject (now : Z) (updates : ProjectPatch.t) (p : Project.t)
  : Project.t :=
  Project.mk (default (Project.id p) (ProjectPatch.id updates))
    (default (Project.status p) (ProjectPatch.status updates))
    (default (Project.archived p) (ProjectPatch.archived updates))
    (default (Project.createdAt p) (ProjectPatch.createdAt updates))
    now.

Definition updateProject (user : option string) (now : Z) (data : option AppData)
    (id : string) (updates : ProjectPatch.t) : Effect :=
  match currentProfile data with
  | None => Nothing
  | Some current =>
      let newProjects :=
        (λ p, if bool_decide (Project.id p = id)
              then mergeProject now updates p else p) <$> Profile.projects current in
      updateCurrentProfile user data (ProfilePatch.mk (Some newProjects) None)
  end.

(** The tasks of the project are deleted with it. *)
Definition deleteProject (user : option string) (data : option AppData)
    (id : string) : Effect :=
  match currentProfile data with
  | None => Nothing
  | Some current =>
      let newTasks :=
        filter (λ t, projectId t ≠ Some id) (Profile.tasks current) in
      updateCurrentProfile user data
        (ProfilePatch.mk
           (Some (filter (λ p, Project.id p ≠ id) (Profile.projects current)))
           (Some newTasks))
  end.

(** [updateProject(id, { archived: true, status: 'completed' })] *)
Definition archiveProject (user : option string) (now : Z) (data : option AppData)
    (id : string) : Effect :=
  updateProject user now data id
    (ProjectPatch.mk None (Some "completed") (Some (Some true)) None None).

(** *** Task actions *)

(** [{ ...task, id: uuidv4(), createdAt: now, updatedAt: now }]: the
    draft is a task whose id and stamps are not read. *)
Definition newTask (newId : string) (now : Z) (task : Task) : Task :=
  mkTask newId (title task) (status task) (order task) (projectId task)
    (isToday task) now now (completedAt task).

Definition createTask (user : option string) (newId : string) (now : Z)
    (data : option AppData) (task : Task) : Effect :=
  match currentProfile data with
  | None => Nothing
  | Some current =>
      updateCurrentProfile user data
        (ProfilePatch.mk None (Some (Profile.tasks current ++ [newTask newId now task])))
  end.

Definition updateTask (user : option string) (now : Z) (data : option AppData)
    (taskId : string) (updates : Partial.t) : Effect :=
  match currentProfile data with
  | None => Nothing
  | Some current =>
      updateCurrentProfile user data
        (ProfilePatch.mk None
           (Some (AppContext.newTasks now (Profile.tasks current) taskId updates)))
  end.

Definition deleteTask (user : option string) (data : option AppData)
    (taskId : string) : Effect :=
  match currentProfile data with
  | None => Nothing
  | Some current =>
      updateCurrentProfile user data
        (ProfilePatch.mk None
           (Some (filter (λ t, id t ≠ taskId) (Profile.tasks current))))
  end.

Definition updateTaskStatus (user : option string) (now : Z) (data : option AppData)
    (taskId : string) (s : string) : Effect :=
  updateTask user now data taskId (Partial.ofStatus s).

(** [{ isToday: !task.isToday }] for the first task with the id (an
    absent [isToday] negates to [true]); nothing when there is none. *)
Definition toggleTaskToday (user : option string) (now : Z) (data : option AppData)
    (taskId : string) : Effect :=
  match currentProfile data with
  | None => Nothing
  | Some current =>
      match findById taskId (Profile.tasks current) with
      | Some task =>
          updateTask user now data taskId
            (Partial.mk None None None None None
               (Some (Some (negb (default false (isToday task)))))
               None None None)
      | None => Nothing
      end
  end.

(** *** Loading ([lib/supabaseStorage.ts]) *)

(** [initializeData], given what [loadData] returned and the profile
    that [createDefaultProfile()] makes: the data it returns.  (It also
    saves them when it repaired or created them.) *)
Definition initializeData (existingData : option AppData)
    (defaultProfile : Profile.t) : AppData :=
  let fresh :=
    mkAppData [defaultProfile] (Profile.id defaultProfile) APP_VERSION in
  match existingData with
  | Some existing =>
      match profiles existing with
      | [] => fresh
      | first :: _ =>
          let currentId := currentProfileId existing in
          let profileExists :=
            existsb (λ p, bool_decide (Profile.id p = currentId)) (profiles existing) in
          if negb profileExists
          then mkAppData (profiles existing) (Profile.id first) (version existing)
          else existing
      end
  | None => fresh
  end.

(** *** The actions, as a user of the context calls them *)

Inductive Action :=
  | SwitchProfile (profileId : string)
  | CreateProfile (newId : string) (name : string)
  | RenameProfile (profileId : string) (name : string)
  | DeleteProfile (profileId : string)
  | UpdateProject (projectId : string) (updates : ProjectPatch.t)
  | DeleteProject (projectId : string)
  | ArchiveProject (projectId : string)
  | CreateTask (newId : string) (task : Task)
  | UpdateTask (taskId : string) (updates : Partial.t)
  | DeleteTask (taskId : string)
  | UpdateTaskStatus (taskId : string) (s : string)
  | ToggleTaskToday (taskId : string).

Definition run (user : option string) (now : Z) (data : option AppData)
    (a : Action) : Effect :=
  match a with
  | SwitchProfile profileId => switchProfile user data profileId
  | CreateProfile newId name => createProfile user newId now data name
  | RenameProfile profileId name => renameProfile user data profileId name
  | DeleteProfile profileId => deleteProfile user data profileId
  | UpdateProject projectId updates => updateProject user now data projectId updates
  | DeleteProject projectId => deleteProject user data projectId
  | ArchiveProject projectId => archiveProject user now data projectId
  | CreateTask newId task => createTask user newId now data task
  | UpdateTask taskId updates => updateTask user now data taskId updates
  | DeleteTask taskId => deleteTask user data taskId
  | UpdateTaskStatus taskId s => updateTaskStatus user now data taskId s
  | ToggleTaskToday taskId => toggleTaskToday user now data taskId
  end.

(** The current profile id names one of the profiles. *)
Definition wellFormed (d : AppData) : Prop :=
  ∃ p, p ∈ profiles d ∧ Profile.id p = currentProfileId d.

(** The provider's state after an action: the data installed, or the
    data as they were. *)
Definition dataAfter (data : option AppData) (e : Effect) : option AppData :=
  match e with SetData newData => Some newData | _ => data end.

(** Every task that names a project names a project of the profile. *)
Definition projectsExist (p : Profile.t) : Prop :=
  ∀ t named, t ∈ Profile.tasks p → projectId t = Some named →
    ∃ project, project ∈ Profile.projects p ∧ Project.id project = named.

(** The actions on the projects and tasks of the current profile. *)
Definition onCurrentProfile (a : Action) : bool :=
  match a with
  | SwitchProfile _ | CreateProfile _ _ | RenameProfile _ _ | DeleteProfile _ => false
  | _ => true
  end.

End AppProvider.

(** ** Sample boards *)

Module Sample.

(** A task with the given id, status, order and creation time; the id
    doubles as the title. *)
Definition task (taskId s : string) (o : option Z) (created : Z) : Task :=
  mkTask taskId taskId s o None None created created None.

(** A drop of [taskId], dragged from position [i] of column [s] to
    position [j] of column [s']. *)
Definition drag (taskId s : string) (i : nat) (s' : string) (j : nat) : Board.DropResult :=
  Board.mkDropResult (Some (Board.mkLocation s' j)) (Board.mkLocation s i) taskId.

(** One drag on a board whose context is in step with the local state:
    the local state after it, and the task list with the calls it made
    applied one after another. *)
Definition dragged (now : Z) (tasks : list Task) (result : Board.DropResult)
  : list Task * list Task :=
  let o := Board.handleDragEnd now tasks tasks result in
  (Board.localAfter tasks o, runCalls now (Board.callsOf o) tasks).

(** Three numbered tasks in one column. *)
Definition abc : list Task :=
  [task "a" "todo" (Some 0) 1; task "b" "todo" (Some 1) 2; task "c" "todo" (Some 2) 3].

(** Two numbered tasks in two columns. *)
Definition ab : list Task :=
  [task "a" "todo" (Some 0) 1; task "b" "done" (Some 0) 2].

(** Tasks as [createTask] and [convertIdeaToTask] make them: without an
    order.  Two in to-do, one in the backlog. *)
Definition fresh : list Task :=
  [task "x" "todo" None 1; task "y" "todo" None 2; task "t" "backlog" None 3].

(** Three tasks without an order in the backlog, two in to-do. *)
Definition freshBoard : list Task :=
  [task "p" "backlog" None 1; task "t" "backlog" None 2; task "q" "backlog" None 3;
   task "x" "todo" None 4; task "y" "todo" None 5].

(** Three tasks without an order in one column. *)
Definition freshColumn : list Task :=
  [task "x" "todo" None 1; task "t" "todo" None 2; task "y" "todo" None 3].

(** Four tasks without an order in one column. *)
Definition freshFour : list Task :=
  [task "a" "todo" None 1; task "b" "todo" None 2;
   task "c" "todo" None 3; task "d" "todo" None 4].

(** A numbered board: one task in to-do, two in done. *)
Definition numberedBoard : list Task :=
  [task "a" "todo" (Some 0) 1; task "x" "done" (Some 0) 2; task "y" "done" (Some 1) 3].

(** A task whose status is not a lifecycle state, next to one whose
    status is. *)
Definition withArchived : list Task :=
  [task "a" "todo" (Some 0) 1; task "z" "archived" None 2].

(** What a test reads off a task list: id, status and order. *)
Definition summary (tasks : list Task) : list (string * string * option Z) :=
  (λ t, (id t, status t, order t)) <$> tasks.

End Sample.

(** * Properties *)

(** ** Lookups by id *)

Lemma findById_Some taskId l t :
  findById taskId l = Some t → t ∈ l ∧ id t = taskId.
Proof.
  unfold findById. intros H.
  destruct (list_find _ l) as [[i x]|] eqn:E; simplify_eq/=.
  apply list_find_Some in E as (Hl & Hx & _).
  split; [by eapply list_elem_of_lookup_2 | done].
Qed.

Lemma findById_None taskId l :
  findById taskId l = None ↔ ∀ t, t ∈ l → id t ≠ taskId.
Proof.
  unfold findById. rewrite fmap_None, list_find_None, Forall_forall. done.
Qed.

Lemma findIndexById_Some taskId l i :
  findIndexById taskId l = Some i →
  ∃ t, l !! i = Some t ∧ id t = taskId.
Proof.
  unfold findIndexById. intros H.
  destruct (list_find _ l) as [[j x]|] eqn:E; simplify_eq/=.
  apply list_find_Some in E as (Hl & Hx & _). eauto.
Qed.

Lemma findIndexById_is_Some taskId l :
  is_Some (findById taskId l) ↔ is_Some (findIndexById taskId l).
Proof.
  unfold findById, findIndexById. rewrite !fmap_is_Some. done.
Qed.

(** With distinct ids the lookup by id finds the one position that holds
    the id. *)
Lemma list_find_id_NoDup l i t :
  NoDup (id <$> l) → l !! i = Some t →
  list_find (λ task, id task = id t) l = Some (i, t).
Proof.
  intros Hnd Hi. apply list_find_Some. split_and!; [done..|].
  intros j y Hj Hlt Heq.
  assert (j = i); [|lia].
  eapply (NoDup_lookup (id <$> l)); [done| |].
  - rewrite list_lookup_fmap, Hj. simpl. by rewrite Heq.
  - by rewrite list_lookup_fmap, Hi.
Qed.

(** ** C4, C5, C6: the guards of the handler *)

(** An early return leaves no trace. *)
Lemma returned_effect localTasks o :
  o = Board.Returned →
  o = Board.Returned ∧ Board.callsOf o = [] ∧ Board.localAfter localTasks o = localTasks.
Proof. by intros ->. Qed.

(** C4. A drop whose destination (column, index) is the source (column,
    index) makes the handler return at once: no call is made on the
    context and the local state is kept.  This holds for every task list,
    every dragged id and every location, in particular for the location
    at which the board shows the task. *)
Theorem drop_in_place_emits_nothing now currentProfileTasks localTasks taskId loc :
  let o := Board.handleDragEnd now currentProfileTasks localTasks
             (Board.mkDropResult (Some loc) loc taskId) in
  o = Board.Returned ∧ Board.callsOf o = [] ∧ Board.localAfter localTasks o = localTasks.
Proof.
  apply returned_effect. unfold Board.handleDragEnd. simpl.
  rewrite !bool_decide_eq_true_2 by done. done.
Qed.

(** The @dnd-kit board agrees: a card dropped on itself makes no call. *)
Lemma sortable_drop_on_itself currentProfileTasks grouped taskId task data :
  findById taskId currentProfileTasks = Some task →
  is_Some (grouped !! status task) →
  SortableBoard.handleDragEnd currentProfileTasks grouped
    (SortableBoard.mkEvent taskId
       (Some (SortableBoard.mkOver (SortableBoard.IdString taskId) data)))
  = SortableBoard.Done [].
Proof.
  intros E [col Hcol]. unfold SortableBoard.handleDragEnd. simpl.
  rewrite E, Hcol. apply findById_Some in E as [_ ->].
  case_bool_decide; [congruence|].
  destruct (findIndexById _ col) as [i|]; [|done].
  case_bool_decide; [congruence|done].
Qed.

(** C5 (as amended). When no task of the local list has the dragged id,
    the handler returns without installing a state and without calling the
    context, whatever the source and destination are.  It reports nothing:
    the outcome is the plain early return of every other guard. *)
Theorem unknown_task_returns now currentProfileTasks localTasks result :
  (∀ t, t ∈ localTasks → id t ≠ Board.draggableId result) →
  let o := Board.handleDragEnd now currentProfileTasks localTasks result in
  o = Board.Returned ∧ Board.callsOf o = [] ∧ Board.localAfter localTasks o = localTasks.
Proof.
  intros Hmissing. apply returned_effect. apply findById_None in Hmissing.
  unfold Board.handleDragEnd.
  destruct (Board.destination result) as [dest|]; [|done].
  destruct (_ && _); [done|]. by rewrite Hmissing.
Qed.

(** The @dnd-kit board agrees: an unknown dragged id makes no call. *)
Lemma sortable_unknown_task currentProfileTasks grouped event :
  (∀ t, t ∈ currentProfileTasks → id t ≠ SortableBoard.activeId event) →
  SortableBoard.handleDragEnd currentProfileTasks grouped event = SortableBoard.Done [].
Proof.
  intros Hmissing. apply findById_None in Hmissing.
  unfold SortableBoard.handleDragEnd.
  destruct (SortableBoard.over event); [|done]. by rewrite Hmissing.
Qed.

(** C6. A drop on a destination whose id is not one of the five lifecycle
    states makes the handler return: no state is installed, no call is
    made. *)
Theorem invalid_destination_returns now currentProfileTasks localTasks result dest :
  Board.destination result = Some dest →
  Board.droppableId dest ∉ COLUMNS →
  let o := Board.handleDragEnd now currentProfileTasks localTasks result in
  o = Board.Returned ∧ Board.callsOf o = [] ∧ Board.localAfter localTasks o = localTasks.
Proof.
  intros Hdest Hcol. apply returned_effect.
  unfold Board.handleDragEnd. rewrite Hdest.
  destruct (_ && _); [done|].
  destruct (findById _ _); [|done].
  unfold isColumn at 2. rewrite (bool_decide_eq_false_2 _ Hcol).
  by rewrite orb_true_r.
Qed.

(** The @dnd-kit board agrees for a drop on a column area: a status that
    is not a lifecycle state makes no call. *)
Lemma sortable_invalid_column currentProfileTasks grouped taskId o overIdString newStatus :
  SortableBoard.overId o = SortableBoard.IdString overIdString →
  findById overIdString currentProfileTasks = None →
  SortableBoard.droppedStatus o overIdString = Some newStatus →
  newStatus ∉ COLUMNS →
  SortableBoard.handleDragEnd currentProfileTasks grouped
    (SortableBoard.mkEvent taskId (Some o)) = SortableBoard.Done [].
Proof.
  intros Hid Hover Hst Hcol. unfold SortableBoard.handleDragEnd. simpl.
  destruct (findById taskId _); [|done].
  rewrite Hid. simpl. rewrite Hover, Hst.
  unfold isColumn. rewrite (bool_decide_eq_false_2 _ Hcol).
  by rewrite andb_false_r.
Qed.

(** ** C10: the frame of [updateTask] *)

Lemma newTasks_lookup now tasks taskId updates k :
  AppContext.newTasks now tasks taskId updates !! k =
  (λ t, if bool_decide (id t = taskId) then AppContext.merge now updates t else t)
    <$> tasks !! k.
Proof. unfold AppContext.newTasks. by rewrite list_lookup_fmap. Qed.

Lemma newTasks_absent now tasks taskId updates :
  (∀ t, t ∈ tasks → id t ≠ taskId) →
  AppContext.newTasks now tasks taskId updates = tasks.
Proof.
  intros Habsent. apply list_eq. intros k. rewrite newTasks_lookup.
  destruct (tasks !! k) as [t|] eqn:E; [|done]. simpl.
  rewrite bool_decide_eq_false_2; [done|].
  eapply Habsent, list_elem_of_lookup_2, E.
Qed.

(** C10. [updateTask(id, updates)] on the task list of a profile writes
    back a list of the same length in which every task with another id is
    the task it was, field for field, and a task with the id is the merged
    one; with distinct ids at most one position changes; and when no task
    has the id the list written back is the list read, with no failure. *)
Theorem updateTask_frame now tasks taskId updates :
  ∃ written,
    AppContext.updateTask now (Some tasks) taskId updates = Some written ∧
    length written = length tasks ∧
    (∀ k t, tasks !! k = Some t → id t ≠ taskId → written !! k = Some t) ∧
    (∀ k t, tasks !! k = Some t → id t = taskId →
            written !! k = Some (AppContext.merge now updates t)) ∧
    (NoDup (id <$> tasks) →
       ∀ j k, written !! j ≠ tasks !! j → written !! k ≠ tasks !! k → j = k) ∧
    ((∀ t, t ∈ tasks → id t ≠ taskId) → written = tasks).
Proof.
  exists (AppContext.newTasks now tasks taskId updates).
  split_and!.
  - done.
  - unfold AppContext.newTasks. by rewrite length_fmap.
  - intros k t Hk Hne. rewrite newTasks_lookup, Hk. simpl.
    by rewrite bool_decide_eq_false_2.
  - intros k t Hk Heq. rewrite newTasks_lookup, Hk. simpl.
    by rewrite bool_decide_eq_true_2.
  - intros Hnd j k Hj Hk.
    assert (∀ i, AppContext.newTasks now tasks taskId updates !! i ≠ tasks !! i →
                 (id <$> tasks) !! i = Some taskId) as Hchanged.
    { intros i. rewrite newTasks_lookup, list_lookup_fmap.
      destruct (tasks !! i) as [t|]; [|done]. simpl.
      case_bool_decide; [by intros _; f_equal | done]. }
    eapply NoDup_lookup; eauto.
  - apply newTasks_absent.
Qed.

(** ** Sorting: [sort] permutes and, for a total and transitive
    comparator, sorts *)

Section sorting.
Context {A : Type} (compareFn : A → A → Z).

Lemma sortInsert_Permutation x l : sortInsert compareFn x l ≡ₚ x :: l.
Proof.
  induction l as [|y l IH]; simpl; [done|].
  case_bool_decide; [done|]. rewrite IH. apply Permutation_swap.
Qed.

Lemma sort_Permutation l : sort compareFn l ≡ₚ l.
Proof.
  induction l as [|x l IH]; simpl; [done|].
  by rewrite sortInsert_Permutation, IH.
Qed.

Lemma elem_of_sort x l : x ∈ sort compareFn l ↔ x ∈ l.
Proof. by rewrite sort_Permutation. Qed.

Lemma length_sort l : length (sort compareFn l) = length l.
Proof. by rewrite sort_Permutation. Qed.

Context `{!Total (leOf compareFn), !Transitive (leOf compareFn)}.

Lemma sortInsert_Sorted x l :
  Sorted (leOf compareFn) l → Sorted (leOf compareFn) (sortInsert compareFn x l).
Proof.
  induction 1 as [|y l Hl IH Hy]; simpl.
  { repeat constructor. }
  case_bool_decide as Hxy.
  { repeat constructor; done. }
  assert (leOf compareFn y x) as Hyx by (destruct (total (leOf compareFn) x y); done).
  constructor; [done|].
  destruct l as [|z l]; simpl in *.
  { by constructor. }
  case_bool_decide; constructor; [done|]. by inversion Hy.
Qed.

Lemma sort_StronglySorted l : StronglySorted (leOf compareFn) (sort compareFn l).
Proof.
  apply Sorted_StronglySorted; [done|].
  induction l as [|x l IH]; simpl; [constructor|].
  by apply sortInsert_Sorted.
Qed.

Lemma StronglySorted_trichotomy (R : relation A) l x y :
  StronglySorted R l → x ∈ l → y ∈ l → x = y ∨ R x y ∨ R y x.
Proof.
  induction 1 as [|a l Hl IH Ha]; intros Hx Hy.
  { by apply elem_of_nil in Hx. }
  rewrite Forall_forall in Ha.
  apply elem_of_cons in Hx as [->|Hx], Hy as [->|Hy]; auto.
Qed.

Lemma StronglySorted_weaken (R1 R2 : relation A) l :
  (∀ x y, R1 x y → R2 x y) → StronglySorted R1 l → StronglySorted R2 l.
Proof.
  intros HR. induction 1 as [|a l Hl IH Ha]; constructor; [done|].
  eapply Forall_impl; eauto.
Qed.

(** A list that is sorted without ties is the sort of each of its
    permutations. *)
Lemma sort_unique l sortedL :
  StronglySorted (ltOf compareFn) sortedL → l ≡ₚ sortedL → sort compareFn l = sortedL.
Proof.
  intros Hsorted Hperm. symmetry.
  apply (StronglySorted_unique_strong (leOf compareFn)).
  - intros x1 x2 Hx1 Hx2 H12 H21. rewrite elem_of_sort, Hperm in Hx2.
    destruct (StronglySorted_trichotomy _ _ _ _ Hsorted Hx1 Hx2)
      as [?|[[_ ?]|[_ ?]]]; done.
  - eapply StronglySorted_weaken; [|done]. intros x y [? _]. unfold leOf. lia.
  - apply sort_StronglySorted.
  - by rewrite sort_Permutation.
Qed.

End sorting.

(** ** The comparator of the board is a total preorder on (order, createdAt) *)

Lemma compareTasks_le a b :
  leOf compareTasks a b ↔
  default MAX_SAFE_INTEGER (order a) < default MAX_SAFE_INTEGER (order b) ∨
  (default MAX_SAFE_INTEGER (order a) = default MAX_SAFE_INTEGER (order b) ∧
   createdAt a ≤ createdAt b).
Proof. unfold leOf, compareTasks. simpl. case_bool_decide; lia. Qed.

Lemma compareTasks_lt_order a b :
  default MAX_SAFE_INTEGER (order a) < default MAX_SAFE_INTEGER (order b) →
  ltOf compareTasks a b.
Proof. unfold ltOf, compareTasks. simpl. intros. repeat case_bool_decide; lia. Qed.

#[global] Instance compareTasks_total : Total (leOf compareTasks).
Proof. intros a b. rewrite !compareTasks_le. lia. Qed.

#[global] Instance compareTasks_trans : Transitive (leOf compareTasks).
Proof. intros a b c. rewrite !compareTasks_le. lia. Qed.

Lemma column_Permutation s tasks :
  Board.column s tasks ≡ₚ filter (λ t, status t = s) tasks.
Proof. apply sort_Permutation. Qed.

Lemma elem_of_column s tasks t :
  t ∈ Board.column s tasks ↔ status t = s ∧ t ∈ tasks.
Proof. unfold Board.column. by rewrite elem_of_sort, list_elem_of_filter. Qed.

Lemma elem_of_columnWithout s taskId tasks t :
  t ∈ Board.columnWithout s taskId tasks ↔ (status t = s ∧ id t ≠ taskId) ∧ t ∈ tasks.
Proof. unfold Board.columnWithout. by rewrite elem_of_sort, list_elem_of_filter. Qed.

(** ** C8: the column projection *)

(** The keys of the grouping object are the five lifecycle states. *)
Lemma emptyGrouped_lookup s :
  emptyGrouped !! s = if isColumn s then Some [] else None.
Proof.
  unfold isColumn. case_bool_decide as Hs.
  - unfold COLUMNS in Hs. rewrite !elem_of_cons, elem_of_nil in Hs.
    destruct Hs as [->|[->|[->|[->|[->|[]]]]]]; by vm_compute.
  - unfold COLUMNS in Hs. rewrite !elem_of_cons, elem_of_nil in Hs.
    unfold emptyGrouped. rewrite !lookup_insert_ne by naive_solver.
    apply lookup_empty.
Qed.

(** The pushes keep the set of keys and append, under each key, the tasks
    of that status in list order; they raise at the first task whose
    status is not a key. *)
Lemma pushAll_Normal tasks grouped :
  (∀ t, t ∈ tasks → is_Some (grouped !! status t)) →
  ∃ grouped',
    pushAll tasks grouped = Normal grouped' ∧
    ∀ s, grouped' !! s = (λ col, col ++ filter (λ t, status t = s) tasks) <$> grouped !! s.
Proof.
  revert grouped. induction tasks as [|task tasks IH]; intros grouped Hkeys; simpl.
  { exists grouped. split; [done|]. intros s.
    destruct (grouped !! s); simpl; [|done]. by rewrite app_nil_r. }
  destruct (Hkeys task) as [col Hcol]; [left|]. rewrite Hcol.
  destruct (IH (<[status task:=col ++ [task]]> grouped)) as (g' & Hg' & Hlook).
  { intros t Ht. rewrite lookup_insert. case_decide; [done|].
    apply Hkeys. by right. }
  exists g'. split; [done|]. intros s. rewrite Hlook, lookup_insert.
  rewrite filter_cons. case_decide as Hs; simplify_eq/=.
  - rewrite Hcol. simpl. by rewrite <-app_assoc.
  - done.
Qed.

Lemma pushAll_Thrown tasks grouped t :
  t ∈ tasks → grouped !! status t = None → pushAll tasks grouped = Thrown.
Proof.
  revert grouped. induction tasks as [|task tasks IH]; intros grouped Ht Hnone.
  { by apply elem_of_nil in Ht. }
  simpl. destruct (grouped !! status task) as [col|] eqn:Hcol; [|done].
  apply elem_of_cons in Ht as [->|Ht]; [congruence|].
  apply IH; [done|]. rewrite lookup_insert_ne; [done|]. congruence.
Qed.

(** C8 (as amended). When every task has one of the five lifecycle states
    as its status, the projection yields exactly five columns, the column
    of a state being the tasks with that status sorted by order, then by
    creation time.  When some task has a status outside the five, the
    projection raises: the task is not left out, no column is produced. *)
Theorem tasksByStatus_projection filteredTasks :
  ((∀ t, t ∈ filteredTasks → status t ∈ COLUMNS) →
     ∃ grouped, tasksByStatus filteredTasks = Normal grouped ∧
       ∀ s, grouped !! s =
            if isColumn s then Some (Board.column s filteredTasks) else None) ∧
  (∀ t, t ∈ filteredTasks → status t ∉ COLUMNS →
     tasksByStatus filteredTasks = Thrown).
Proof.
  split.
  - intros Hknown.
    destruct (pushAll_Normal filteredTasks emptyGrouped) as (g & Hg & Hlook).
    { intros t Ht. rewrite emptyGrouped_lookup. unfold isColumn.
      rewrite bool_decide_eq_true_2; [done|]. by apply Hknown. }
    exists (sort compareTasks <$> g). unfold tasksByStatus. rewrite Hg.
    split; [done|]. intros s.
    rewrite lookup_fmap, Hlook, emptyGrouped_lookup.
    by destruct (isColumn s).
  - intros t Ht Hunknown. unfold tasksByStatus.
    rewrite (pushAll_Thrown _ _ t); [done..|].
    rewrite emptyGrouped_lookup. unfold isColumn.
    by rewrite bool_decide_eq_false_2.
Qed.

(** ** The numbering loops *)

Lemma id_withOrder now o t : id (Board.withOrder now o t) = id t.
Proof. done. Qed.

Lemma status_withOrder now o t : status (Board.withOrder now o t) = status t.
Proof. done. Qed.

Lemma fmap_alter_preserved {A B} (f : A → B) (g : A → A) (l : list A) (i : nat) :
  (∀ x, f (g x) = f x) → f <$> alter g i l = f <$> l.
Proof.
  intros Hfg. revert i. induction l as [|x l IH]; intros [|i]; simpl; [done..| |].
  - by rewrite Hfg.
  - f_equal. apply IH.
Qed.

Lemma assignOrders_cons now g f i t rest upd :
  Board.assignOrders now g f i (t :: rest) upd =
  Board.assignOrders now g f (S i) rest (Board.assignOne now g f i t upd).
Proof. done. Qed.

Lemma assignOne_ids now g f i t upd :
  id <$> Board.assignOne now g f i t upd = id <$> upd.
Proof.
  unfold Board.assignOne. destruct (list_find _ upd) as [[k cur]|]; [|done].
  destruct (_ && _); [done|].
  by apply fmap_alter_preserved.
Qed.

Lemma assignOne_statuses now g f i t upd :
  status <$> Board.assignOne now g f i t upd = status <$> upd.
Proof.
  unfold Board.assignOne. destruct (list_find _ upd) as [[k cur]|]; [|done].
  destruct (_ && _); [done|].
  by apply fmap_alter_preserved.
Qed.

(** A step leaves alone every task whose id is not the id it looks for. *)
Lemma assignOne_lookup_other now g f i t upd k u :
  upd !! k = Some u → id t ≠ id u → Board.assignOne now g f i t upd !! k = Some u.
Proof.
  intros Hk Hne. unfold Board.assignOne.
  destruct (list_find _ upd) as [[j cur]|] eqn:E; [|done].
  destruct (_ && _); [done|].
  apply list_find_Some in E as (Hj & Hid & _).
  rewrite list_lookup_alter_ne; [done|]. intros ->. congruence.
Qed.

(** With distinct ids, a step stores at the position of the task that has
    the id. *)
Lemma assignOne_lookup_same now g f i t upd k u :
  NoDup (id <$> upd) → upd !! k = Some u → id u = id t →
  Board.assignOne now g f i t upd !! k =
  Some (if g && bool_decide (order u = Some (Z.of_nat (f i))) then u
        else Board.withOrder now (f i) u).
Proof.
  intros Hnd Hk Hid. unfold Board.assignOne.
  rewrite <-Hid, (list_find_id_NoDup upd k u) by done.
  destruct (_ && _); [done|].
  by rewrite list_lookup_alter_eq, Hk.
Qed.

Lemma assignOrders_ids now g f i rest upd :
  id <$> Board.assignOrders now g f i rest upd = id <$> upd.
Proof.
  revert i upd. induction rest as [|t rest IH]; intros i upd; [done|].
  by rewrite assignOrders_cons, IH, assignOne_ids.
Qed.

Lemma assignOrders_statuses now g f i rest upd :
  status <$> Board.assignOrders now g f i rest upd = status <$> upd.
Proof.
  revert i upd. induction rest as [|t rest IH]; intros i upd; [done|].
  by rewrite assignOrders_cons, IH, assignOne_statuses.
Qed.

Lemma assignOrders_length now g f i rest upd :
  length (Board.assignOrders now g f i rest upd) = length upd.
Proof.
  rewrite <-(length_fmap id), assignOrders_ids. apply length_fmap.
Qed.

(** A loop leaves alone every task whose id is not the id of a task of
    the column it walks. *)
Lemma assignOrders_lookup_other now g f i rest upd k u :
  upd !! k = Some u → (∀ t, t ∈ rest → id t ≠ id u) →
  Board.assignOrders now g f i rest upd !! k = Some u.
Proof.
  revert i upd. induction rest as [|t rest IH]; intros i upd Hk Hne; [done|].
  rewrite assignOrders_cons. apply IH.
  - apply assignOne_lookup_other; [done|]. apply Hne. by left.
  - intros t' Ht'. apply Hne. by right.
Qed.

(** With distinct ids, in the walked column and in the task list, the
    task standing at position [j] of the column ends with the order of the
    position [i + j]. *)
Lemma assignOrders_lookup_same now g f i rest upd j t k u :
  NoDup (id <$> upd) → NoDup (id <$> rest) →
  rest !! j = Some t → upd !! k = Some u → id u = id t →
  Board.assignOrders now g f i rest upd !! k =
  Some (if g && bool_decide (order u = Some (Z.of_nat (f (i + j)%nat))) then u
        else Board.withOrder now (f (i + j)%nat) u).
Proof.
  revert i upd j. induction rest as [|t' rest IH]; intros i upd j Hnd Hndr Hj Hk Hid.
  { done. }
  rewrite assignOrders_cons. rewrite fmap_cons in Hndr.
  apply NoDup_cons in Hndr as [Hfresh Hndr].
  destruct j as [|j]; simplify_eq/=.
  - rewrite Nat.add_0_r. apply assignOrders_lookup_other.
    + by apply assignOne_lookup_same.
    + intros t' Ht' Heq. apply Hfresh.
      apply list_elem_of_fmap. exists t'. split; [|done].
      destruct (_ && _); simpl in Heq; congruence.
  - replace (i + S j)%nat with (S i + j)%nat by lia.
    apply IH; try done.
    + by rewrite assignOne_ids.
    + apply assignOne_lookup_other; [done|]. intros Heq. apply Hfresh.
      apply list_elem_of_fmap. exists t. split; [congruence|].
      by eapply list_elem_of_lookup_2.
Qed.

(** ** The task list with the calls of a drag applied *)

(** Columns are read off id, status, order and creation time only. *)
Lemma compareTasks_alike a a' b b' :
  Board.alike a a' → Board.alike b b' → compareTasks a b = compareTasks a' b'.
Proof.
  intros (_ & _ & Ha & Hca) (_ & _ & Hb & Hcb).
  unfold compareTasks. by rewrite Ha, Hb, Hca, Hcb.
Qed.

Lemma sortInsert_alike a a' l l' :
  Board.alike a a' → Forall2 Board.alike l l' →
  Forall2 Board.alike (sortInsert compareTasks a l) (sortInsert compareTasks a' l').
Proof.
  intros Ha. induction 1 as [|b b' l l' Hb Hl IH]; simpl.
  { constructor; [done|constructor]. }
  rewrite (compareTasks_alike a a' b b') by done.
  case_bool_decide.
  - constructor; [done|]. by constructor.
  - by constructor.
Qed.

Lemma sort_alike l l' :
  Forall2 Board.alike l l' →
  Forall2 Board.alike (sort compareTasks l) (sort compareTasks l').
Proof.
  induction 1; simpl; [constructor|]. by apply sortInsert_alike.
Qed.

Lemma column_alike s l l' :
  Forall2 Board.alike l l' →
  Forall2 Board.alike (Board.column s l) (Board.column s l').
Proof.
  intros Hl. apply sort_alike.
  induction Hl as [|a a' l l' Ha Hl IH]; [constructor|].
  rewrite !filter_cons. destruct Ha as (Hid & Hst & Ho & Hc).
  rewrite Hst. case_decide; [constructor|]; done.
Qed.

Lemma columnIds_alike s l l' :
  Forall2 Board.alike l l' → Board.columnIds s l = Board.columnIds s l'.
Proof.
  intros Hl%(column_alike s). unfold Board.columnIds.
  induction Hl as [|a a' ? ? [Ha _]]; simpl; [done|]. by f_equal.
Qed.

Lemma assignOrders_fmap {B} (f : Task → B) now g h i rest upd :
  (∀ o t, f (Board.withOrder now o t) = f t) →
  f <$> Board.assignOrders now g h i rest upd = f <$> upd.
Proof.
  intros Hf. revert i upd. induction rest as [|t rest IH]; intros i upd; [done|].
  rewrite assignOrders_cons, IH. unfold Board.assignOne.
  destruct (list_find _ upd) as [[k cur]|]; [|done].
  destruct (_ && _); [done|]. by apply fmap_alter_preserved.
Qed.

(** A call on the context touches one position when ids are distinct. *)
Lemma newTasks_one_position now cur taskId updates p o :
  NoDup (id <$> cur) → cur !! p = Some o → id o = taskId →
  AppContext.newTasks now cur taskId updates
  = <[p := AppContext.merge now updates o]> cur.
Proof.
  intros Hnd Hp Hid. apply list_eq. intros i. rewrite newTasks_lookup.
  destruct (decide (i = p)) as [->|Hne].
  - rewrite list_lookup_insert_eq by (by eapply lookup_lt_Some).
    rewrite Hp. simpl. by rewrite bool_decide_eq_true_2.
  - rewrite list_lookup_insert_ne by done.
    destruct (cur !! i) as [c|] eqn:Hc; [|done]. simpl.
    rewrite bool_decide_eq_false_2; [done|]. intros Heq. apply Hne.
    apply (NoDup_lookup (id <$> cur) i p taskId); [done| |];
      rewrite list_lookup_fmap, ?Hc, ?Hp; simpl; congruence.
Qed.

(** The calls made for one task of the local state bring the task of the
    context at the same place to the same status and order. *)
Lemma runCalls_persistOne now tasks cur p o u' :
  NoDup (id <$> cur) → cur !! p = Some o →
  findById (id u') tasks = Some o →
  ∃ o', runCalls now (Board.persistOne tasks u') cur = <[p := o']> cur ∧
        id o' = id o ∧ status o' = status u' ∧ order o' = order u' ∧
        createdAt o' = createdAt o.
Proof.
  intros Hnd Hp Hfind. pose proof (findById_Some _ _ _ Hfind) as [_ Hid].
  unfold Board.persistOne. rewrite Hfind.
  assert (∀ o1, id o1 = id o → NoDup (id <$> <[p := o1]> cur)) as Hnd'.
  { intros o1 Ho1. rewrite list_fmap_insert, Ho1, list_insert_id; [done|].
    by rewrite list_lookup_fmap, Hp. }
  assert (p < length cur)%nat as Hlt by (by eapply lookup_lt_Some).
  case_bool_decide as Hst; [case_bool_decide as Ho|case_bool_decide as Ho].
  - set (o1 := AppContext.merge now (Partial.ofStatus (status u')) o).
    assert (id o1 = id o ∧ status o1 = status u' ∧ order o1 = order o
            ∧ createdAt o1 = createdAt o) as (Hi1 & Hs1 & Ho1 & Hc1).
    { unfold o1, AppContext.merge. simpl. by destruct (_ && _). }
    exists (AppContext.merge now (Partial.ofOrder (order u')) o1).
    split; [|by rewrite <-Hi1, <-Hs1, <-Hc1].
    unfold runCalls. simpl.
    rewrite (newTasks_one_position now cur (id u') _ p o) by done. fold o1.
    rewrite (newTasks_one_position _ _ _ _ p o1).
    + by rewrite list_insert_insert_eq.
    + by apply Hnd'.
    + by rewrite list_lookup_insert_eq.
    + congruence.
  - exists (AppContext.merge now (Partial.ofStatus (status u')) o).
    split.
    + unfold runCalls. simpl. by rewrite (newTasks_one_position _ _ _ _ p o).
    + unfold AppContext.merge. simpl. by destruct (_ && _).
  - exists (AppContext.merge now (Partial.ofOrder (order u')) o).
    split.
    + unfold runCalls. simpl. by rewrite (newTasks_one_position _ _ _ _ p o).
    + done.
  - exists o. split; [|done]. unfold runCalls. simpl. by rewrite list_insert_id.
Qed.

Lemma runCalls_persist_prefix now tasks upd :
  NoDup (id <$> tasks) →
  (∀ p u', upd !! p = Some u' →
     ∃ o, tasks !! p = Some o ∧ id o = id u' ∧ createdAt o = createdAt u') →
  let store := runCalls now (Board.persist tasks upd) tasks in
  id <$> store = id <$> tasks ∧
  (∀ p u', upd !! p = Some u' → ∃ c, store !! p = Some c ∧ Board.alike c u') ∧
  (∀ p, (length upd ≤ p)%nat → store !! p = tasks !! p).
Proof.
  intros Hnd. induction upd as [|u' upd IH] using rev_ind; intros Hpairs; simpl.
  { split_and!; [done| |done]. intros p u' Hp. by rewrite lookup_nil in Hp. }
  destruct IH as (Hids & Hdone & Hrest).
  { intros p u Hp. apply Hpairs. by rewrite lookup_app_l by (by eapply lookup_lt_Some). }
  set (store1 := runCalls now (Board.persist tasks upd) tasks) in *.
  destruct (Hpairs (length upd) u') as (o & Ho & Hid & Hcreated).
  { by rewrite list_lookup_middle. }
  assert (store1 !! length upd = Some o) as Hstore by (by rewrite Hrest).
  assert (findById (id u') tasks = Some o) as Hfind.
  { unfold findById. by rewrite <-Hid, (list_find_id_NoDup tasks (length upd) o). }
  destruct (runCalls_persistOne now tasks store1 (length upd) o u')
    as (o' & Hrun & Hid' & Hst' & Hord' & Hcr'); [by rewrite Hids|done..|].
  assert (runCalls now (Board.persist tasks (upd ++ [u'])) tasks
          = <[length upd := o']> store1) as ->.
  { unfold Board.persist. rewrite bind_app. simpl. rewrite app_nil_r.
    unfold runCalls at 1. rewrite foldl_app. exact Hrun. }
  split_and!.
  - rewrite list_fmap_insert, Hid', list_insert_id; [done|].
    by rewrite list_lookup_fmap, Hstore.
  - intros p u Hp. destruct (decide (p = length upd)) as [->|Hne].
    + rewrite list_lookup_middle in Hp by done. simplify_eq.
      exists o'. split; [|by unfold Board.alike; rewrite Hid', Hcr'].
      apply list_lookup_insert_eq. by eapply lookup_lt_Some.
    + rewrite list_lookup_insert_ne by done. apply Hdone.
      apply lookup_lt_Some in Hp as Hlt. rewrite length_app in Hlt. simpl in Hlt.
      by rewrite lookup_app_l in Hp by lia.
  - intros p Hp. rewrite length_app in Hp. simpl in Hp.
    rewrite list_lookup_insert_ne by lia. apply Hrest. lia.
Qed.

(** When the context holds the list the handler started from, running the
    calls of the closing loop brings the context to the board of the local
    state: task for task the same id, status, order and creation time. *)
Lemma store_follows_local now tasks updatedTasks :
  NoDup (id <$> tasks) →
  id <$> updatedTasks = id <$> tasks →
  createdAt <$> updatedTasks = createdAt <$> tasks →
  Forall2 Board.alike (runCalls now (Board.persist tasks updatedTasks) tasks) updatedTasks.
Proof.
  intros Hnd Hids Hcreated.
  destruct (runCalls_persist_prefix now tasks updatedTasks Hnd) as (Hi & Hdone & _).
  { intros p u' Hp.
    assert ((id <$> tasks) !! p = Some (id u')) as H1
      by (by rewrite <-Hids, list_lookup_fmap, Hp).
    assert ((createdAt <$> tasks) !! p = Some (createdAt u')) as H2
      by (by rewrite <-Hcreated, list_lookup_fmap, Hp).
    rewrite list_lookup_fmap in H1. rewrite list_lookup_fmap in H2.
    destruct (tasks !! p) as [o|]; simplify_eq/=. eauto. }
  apply Forall2_same_length_lookup. split.
  - rewrite <-(length_fmap id), Hi, <-Hids. apply length_fmap.
  - intros p c u' Hc Hu. destruct (Hdone p u' Hu) as (c' & Hc' & Halike). congruence.
Qed.

Lemma crossColumn_fmap {B} (f : Task → B) now taskId k src dest tasks :
  (∀ o t, f (Board.withOrder now o t) = f t) →
  (∀ s o t, f (Board.moveTo now s o t) = f t) →
  f <$> Board.crossColumn now taskId k src dest tasks = f <$> tasks.
Proof.
  intros Hw Hm. unfold Board.crossColumn.
  rewrite !assignOrders_fmap by done. by apply fmap_alter_preserved.
Qed.

(** Whatever the drag, when the handler commits, the calls it makes bring
    a context that was in step with the local state back in step with it. *)
Lemma committed_store_follows now now' tasks result updatedTasks calls :
  NoDup (id <$> tasks) →
  Board.handleDragEnd now tasks tasks result = Board.Committed updatedTasks calls →
  Forall2 Board.alike (runCalls now' calls tasks) updatedTasks.
Proof.
  intros Hnd. unfold Board.handleDragEnd.
  destruct (Board.destination result) as [dest|]; [|done].
  destruct (_ && _); [done|].
  destruct (findById _ _); [|done].
  destruct (_ || _); [done|].
  destruct (findIndexById _ _) as [k|]; [|done].
  case_bool_decide.
  - intros [= <- <-]. apply store_follows_local; [done|by apply crossColumn_fmap..].
  - unfold Board.sameColumn, spliceOut.
    destruct (_ !! _); [|done]. intros [= <- <-].
    apply store_follows_local; [done|by apply assignOrders_fmap..].
Qed.

(** ** C7: the destination index is used as given *)

Lemma alter_middle {A} (f : A → A) (l : list A) (k : nat) (x : A) :
  l !! k = Some x → alter f k l = take k l ++ f x :: drop (S k) l.
Proof.
  revert k. induction l as [|y l IH]; intros [|k] Hk; simplify_eq/=; [done|].
  f_equal. by apply IH.
Qed.

Lemma length_filter_and {A} (P Q : A → Prop)
    `{∀ x, Decision (P x)} `{∀ x, Decision (Q x)} (l : list A) :
  (length (filter (λ x, P x ∧ Q x) l) ≤ length (filter P l))%nat.
Proof.
  induction l as [|x l IH]; [done|]. rewrite !filter_cons.
  destruct (decide (P x ∧ Q x)) as [[HP HQ]|Hn]; destruct (decide (P x));
    simpl; try lia; done.
Qed.

Lemma elem_of_drop_weak {A} (x : A) (n : nat) (l : list A) :
  x ∈ drop n l → x ∈ l.
Proof.
  intros [i Hi]%list_elem_of_lookup. rewrite lookup_drop in Hi.
  by eapply list_elem_of_lookup_2.
Qed.

(** The dragged task ends at its own place in the list with the
    destination status and the destination index as its order. *)
Lemma crossColumn_moved now taskId k src dest tasks t :
  tasks !! k = Some t → id t = taskId →
  Board.crossColumn now taskId k src dest tasks !! k =
  Some (Board.moveTo now (Board.droppableId dest) (Board.index dest) t).
Proof.
  intros Hk Hid. unfold Board.crossColumn.
  apply assignOrders_lookup_other; [apply assignOrders_lookup_other|].
  - by rewrite list_lookup_alter_eq, Hk.
  - intros u [[_ Hu] _]%elem_of_drop_weak%elem_of_columnWithout. simpl. congruence.
  - intros u [[_ Hu] _]%elem_of_drop_weak%elem_of_columnWithout. simpl. congruence.
Qed.

(** Past the end of the destination column there is nothing to shift. *)
Lemma destination_loop_skipped now taskId k dest tasks t :
  tasks !! k = Some t → id t = taskId →
  (length (Board.column (Board.droppableId dest) tasks) ≤ Board.index dest)%nat →
  drop (Board.index dest)
    (Board.columnWithout (Board.droppableId dest) taskId
       (alter (Board.moveTo now (Board.droppableId dest) (Board.index dest)) k tasks))
  = [].
Proof.
  intros Hk Hid Hlen. apply drop_ge. etrans; [|exact Hlen].
  unfold Board.columnWithout, Board.column. rewrite !length_sort.
  rewrite (alter_middle _ _ _ _ Hk).
  rewrite <-(take_drop_middle tasks k t Hk) at 3.
  rewrite !filter_app, !filter_cons, !length_app.
  rewrite decide_False by (simpl; intros [_ ?]; done).
  pose proof (length_filter_and (λ u, status u = Board.droppableId dest)
                (λ u, id u ≠ taskId) (take k tasks)).
  pose proof (length_filter_and (λ u, status u = Board.droppableId dest)
                (λ u, id u ≠ taskId) (drop (S k) tasks)).
  case_decide; simpl; lia.
Qed.

(** A cross-column drop is never an error, whatever the destination
    index, and the index is not clamped: the handler commits, and the
    dragged task carries the destination status and, as its order, the
    destination index exactly as given.  When that index lies at or past
    the end of the destination column (and ids are distinct), no task of
    the destination column is renumbered. *)
Lemma cross_column_index_as_given now currentProfileTasks localTasks result dest k t :
  Board.destination result = Some dest →
  Board.droppableId (Board.source result) ∈ COLUMNS →
  Board.droppableId dest ∈ COLUMNS →
  Board.droppableId (Board.source result) ≠ Board.droppableId dest →
  findIndexById (Board.draggableId result) localTasks = Some k →
  localTasks !! k = Some t →
  ∃ updatedTasks,
    Board.handleDragEnd now currentProfileTasks localTasks result =
      Board.Committed updatedTasks (Board.persist currentProfileTasks updatedTasks) ∧
    updatedTasks !! k =
      Some (Board.moveTo now (Board.droppableId dest) (Board.index dest) t) ∧
    (NoDup (id <$> localTasks) →
     status t = Board.droppableId (Board.source result) →
     (length (Board.column (Board.droppableId dest) localTasks) ≤ Board.index dest)%nat →
     ∀ j u, localTasks !! j = Some u → status u = Board.droppableId dest →
            updatedTasks !! j = Some u).
Proof.
  intros Hdest Hsrc Hdst Hne Hfind Hk.
  assert (id t = Board.draggableId result) as Hid.
  { apply findIndexById_Some in Hfind as (t' & Ht' & ?). congruence. }
  eexists. split_and!.
  - unfold Board.handleDragEnd. rewrite Hdest.
    rewrite (bool_decide_eq_false_2 (Board.droppableId dest = _)) by done.
    simpl.
    destruct (findById _ localTasks) eqn:Hf.
    2:{ apply (mk_is_Some (findIndexById _ _)), findIndexById_is_Some in Hfind.
        rewrite Hf in Hfind. by destruct Hfind. }
    unfold isColumn. rewrite !bool_decide_eq_true_2 by done. simpl.
    by rewrite Hfind.
  - by apply crossColumn_moved.
  - intros Hnd Hst Hlen j u Hj Hu.
    assert (j ≠ k) as Hjk by (intros ->; congruence).
    unfold Board.crossColumn.
    rewrite (destination_loop_skipped _ _ _ _ _ t) by done. simpl.
    apply assignOrders_lookup_other.
    { by rewrite list_lookup_alter_ne. }
    intros v [[Hv _] Hin]%elem_of_drop_weak%elem_of_columnWithout Heq.
    apply list_elem_of_lookup in Hin as [i Hi].
    assert (i = j); [|subst i].
    { eapply (NoDup_lookup (id <$> localTasks)); [done| |].
      - rewrite <-(fmap_alter_preserved id
          (Board.moveTo now (Board.droppableId dest) (Board.index dest)) _ k) by done.
        rewrite list_lookup_fmap, Hi. simpl. by rewrite Heq.
      - by rewrite list_lookup_fmap, Hj. }
    rewrite list_lookup_alter_ne in Hi by done. congruence.
Qed.

(** [splice(start, 0, x)] with a start past the end is the splice at any
    other start past the end. *)
Lemma spliceIn_clamped {A} (j n : nat) (x : A) (l : list A) :
  (length l ≤ n)%nat → spliceIn (j `min` n) x l = spliceIn j x l.
Proof.
  intros Hn. destruct (decide (j ≤ n)%nat) as [Hj|Hj].
  { by rewrite Nat.min_l. }
  rewrite Nat.min_r by lia. unfold spliceIn.
  by rewrite !take_ge, !drop_ge by lia.
Qed.

(** In a same-column drop from a position of the column, the destination
    index acts as clamped to the length of the column: the handler does not
    raise, and its outcome is the outcome of the drop at the clamped
    index. *)
Lemma same_column_index_clamped now currentProfileTasks localTasks result dest :
  Board.destination result = Some dest →
  Board.droppableId dest = Board.droppableId (Board.source result) →
  (Board.index (Board.source result)
     < length (Board.column (Board.droppableId dest) localTasks))%nat →
  let clamped :=
    Board.mkDropResult
      (Some (Board.mkLocation (Board.droppableId dest)
               (Board.index dest
                  `min` length (Board.column (Board.droppableId dest) localTasks))%nat))
      (Board.source result) (Board.draggableId result) in
  Board.handleDragEnd now currentProfileTasks localTasks result ≠ Board.Raised ∧
  Board.handleDragEnd now currentProfileTasks localTasks result
    = Board.handleDragEnd now currentProfileTasks localTasks clamped.
Proof.
  intros Hdest Hsame Hsrc clamped.
  set (col := Board.column (Board.droppableId dest) localTasks) in *.
  destruct (lookup_lt_is_Some_2 col _ Hsrc) as [movedTask HmovedTask].
  assert (bool_decide ((Board.index dest `min` length col)%nat
                       = Board.index (Board.source result))
          = bool_decide (Board.index dest = Board.index (Board.source result)))
    as Hplace by (apply bool_decide_ext; lia).
  unfold Board.handleDragEnd. subst clamped. rewrite Hdest. simpl.
  rewrite Hplace.
  destruct (_ && _); [done|].
  destruct (findById _ _) as [found|]; [|done].
  destruct (_ || _); [done|].
  destruct (findIndexById _ _) as [k|]; [|done].
  rewrite bool_decide_eq_false_2 by (intros Hne; by apply Hne).
  unfold Board.sameColumn, spliceOut. simpl. rewrite <-Hsame. fold col.
  rewrite HmovedTask.
  rewrite spliceIn_clamped; [done|].
  rewrite length_delete by (by eexists). lia.
Qed.

(** C7 (as amended). A destination index of any size is never an error.
    In a same-column drop from a position of the column it acts as clamped
    to the length of the column: the outcome is the outcome of the drop at
    the clamped index.  In a cross-column drop it is not clamped: the
    handler commits, and the dragged task carries the destination status
    and, as its order, the destination index exactly as given; when that
    index lies at or past the end of the destination column (and ids are
    distinct), no task of the destination column is renumbered. *)
Theorem destination_index_not_clamped now currentProfileTasks localTasks result dest :
  Board.destination result = Some dest →
  Board.droppableId (Board.source result) ∈ COLUMNS →
  Board.droppableId dest ∈ COLUMNS →
  (Board.droppableId dest = Board.droppableId (Board.source result) →
   (Board.index (Board.source result)
      < length (Board.column (Board.droppableId dest) localTasks))%nat →
   let clamped :=
     Board.mkDropResult
       (Some (Board.mkLocation (Board.droppableId dest)
                (Board.index dest
                   `min` length (Board.column (Board.droppableId dest) localTasks))%nat))
       (Board.source result) (Board.draggableId result) in
   Board.handleDragEnd now currentProfileTasks localTasks result ≠ Board.Raised ∧
   Board.handleDragEnd now currentProfileTasks localTasks result
     = Board.handleDragEnd now currentProfileTasks localTasks clamped) ∧
  (Board.droppableId (Board.source result) ≠ Board.droppableId dest →
   ∀ k t,
     findIndexById (Board.draggableId result) localTasks = Some k →
     localTasks !! k = Some t →
     ∃ updatedTasks,
       Board.handleDragEnd now currentProfileTasks localTasks result =
         Board.Committed updatedTasks (Board.persist currentProfileTasks updatedTasks) ∧
       updatedTasks !! k =
         Some (Board.moveTo now (Board.droppableId dest) (Board.index dest) t) ∧
       (NoDup (id <$> localTasks) →
        status t = Board.droppableId (Board.source result) →
        (length (Board.column (Board.droppableId dest) localTasks)
           ≤ Board.index dest)%nat →
        ∀ j u, localTasks !! j = Some u → status u = Board.droppableId dest →
               updatedTasks !! j = Some u)).
Proof.
  intros Hdest Hsrc Hdst. split.
  - intros Hsame Hposition. by apply same_column_index_clamped.
  - intros Hne k t Hfind Hk. by eapply cross_column_index_as_given.
Qed.

(** ** C2: reordering inside a column *)

(** Taking a task out and putting it back elsewhere permutes the column. *)
Lemma spliceIn_delete_Permutation {A} (i j : nat) (x : A) (l : list A) :
  l !! i = Some x → spliceIn j x (delete i l) ≡ₚ l.
Proof.
  intros Hi. unfold spliceIn.
  rewrite <-Permutation_middle, take_drop.
  by rewrite <-(delete_Permutation l i x).
Qed.

Lemma spliceIn_lookup {A} (j : nat) (x : A) (l : list A) :
  spliceIn j x l !! (j `min` length l)%nat = Some x.
Proof.
  unfold spliceIn. rewrite lookup_app_r; rewrite length_take; [|lia].
  by rewrite Nat.sub_diag.
Qed.

Lemma spliceIn_delete {A} (j : nat) (x : A) (l : list A) :
  delete (j `min` length l)%nat (spliceIn j x l) = l.
Proof.
  unfold spliceIn. rewrite <-(length_take l j), delete_middle.
  apply take_drop.
Qed.

(** A list whose tasks carry increasing orders is sorted without ties. *)
Lemma imap_orders_sorted (g : nat → Task → Task) (n : nat) (l : list Task) :
  (∀ i u, order (g i u) = Some (Z.of_nat (n + i))) →
  StronglySorted (ltOf compareTasks) (imap g l).
Proof.
  revert g n. induction l as [|x l IH]; intros g n Hg; [constructor|].
  rewrite imap_cons. constructor.
  - apply (IH _ (S n)). intros i u. simpl. rewrite Hg. do 2 f_equal. lia.
  - apply Forall_forall. intros y (i & u & -> & _)%elem_of_lookup_imap.
    apply compareTasks_lt_order. simpl. rewrite !Hg. simpl. lia.
Qed.

Lemma order_renumber now i u : order (Board.renumber now i u) = Some (Z.of_nat i).
Proof. unfold Board.renumber. by case_bool_decide. Qed.

Lemma id_renumber now i u : id (Board.renumber now i u) = id u.
Proof. unfold Board.renumber. by case_bool_decide. Qed.

Lemma status_renumber now i u : status (Board.renumber now i u) = status u.
Proof. unfold Board.renumber. by case_bool_decide. Qed.

Lemma NoDup_id_inj (l : list Task) x y :
  NoDup (id <$> l) → x ∈ l → y ∈ l → id x = id y → x = y.
Proof.
  intros Hnd [i Hi]%list_elem_of_lookup [j Hj]%list_elem_of_lookup Heq.
  assert (i = j); [|congruence].
  eapply (NoDup_lookup (id <$> l)); [done| |].
  - by rewrite list_lookup_fmap, Hi.
  - rewrite list_lookup_fmap, Hj. simpl. by rewrite Heq.
Qed.

Lemma NoDup_id_filter (P : Task → Prop) `{∀ x, Decision (P x)} (l : list Task) :
  NoDup (id <$> l) → NoDup (id <$> filter P l).
Proof.
  intros Hnd. apply (sublist_NoDup _ (id <$> l)); [done|].
  apply fmap_sublist, sublist_filter.
Qed.

Lemma fmap_id_imap_renumber now (l : list Task) :
  id <$> imap (Board.renumber now) l = id <$> l.
Proof.
  apply list_eq. intros i. rewrite !list_lookup_fmap, list_lookup_imap.
  destruct (l !! i); simpl; [|done]. by rewrite id_renumber.
Qed.

(** The same-column loop, run over any arrangement [reordered] of the
    column of [s]: tasks outside the column are left alone, the task at
    position [i] of the arrangement is renumbered to [i] where it stands in
    the task list, and the column read back from the result is the
    arrangement itself, renumbered from 0. *)
Lemma renumber_column now s tasks reordered :
  NoDup (id <$> tasks) →
  reordered ≡ₚ filter (λ t, status t = s) tasks →
  let updatedTasks := Board.assignOrders now true (λ i, i) 0 reordered tasks in
  (∀ p u, tasks !! p = Some u → status u ≠ s → updatedTasks !! p = Some u) ∧
  (∀ i u, reordered !! i = Some u →
     ∃ p, tasks !! p = Some u ∧ updatedTasks !! p = Some (Board.renumber now i u)) ∧
  Board.column s updatedTasks = imap (Board.renumber now) reordered.
Proof.
  intros Hnd Hperm upd.
  assert (NoDup (id <$> reordered)) as Hndr.
  { rewrite Hperm. by apply NoDup_id_filter. }
  assert (∀ u, u ∈ reordered ↔ status u = s ∧ u ∈ tasks) as Hin.
  { intros u. by rewrite Hperm, list_elem_of_filter. }
  assert (∀ p u, tasks !! p = Some u → status u ≠ s → upd !! p = Some u) as Hout.
  { intros p u Hp Hu. apply assignOrders_lookup_other; [done|].
    intros t [Hst Ht]%Hin Heq.
    apply Hu. rewrite <-Hst. f_equal.
    apply (NoDup_id_inj tasks); [done| |done|done].
    by eapply list_elem_of_lookup_2. }
  assert (∀ i u p, reordered !! i = Some u → tasks !! p = Some u →
            upd !! p = Some (Board.renumber now i u)) as Hcol.
  { intros i u p Hi Hp. unfold upd.
    by rewrite (assignOrders_lookup_same _ _ _ _ _ _ i u p u). }
  split_and!; [done| |].
  { intros i u Hi.
    assert (u ∈ tasks) as [p Hp]%list_elem_of_lookup.
    { apply (Hin u). by eapply list_elem_of_lookup_2. }
    eauto. }
  apply sort_unique; [apply _..| |].
  { apply (imap_orders_sorted _ 0). intros i u. by rewrite order_renumber. }
  apply NoDup_Permutation.
  - apply NoDup_filter. apply (NoDup_fmap_1 id). unfold upd.
    by rewrite assignOrders_ids.
  - apply (NoDup_fmap_1 id). by rewrite fmap_id_imap_renumber.
  - intros x. rewrite list_elem_of_filter, elem_of_lookup_imap. split.
    + intros [Hx [p Hp]%list_elem_of_lookup].
      destruct (tasks !! p) as [u|] eqn:Hu.
      2:{ apply lookup_ge_None in Hu. apply lookup_lt_Some in Hp.
          unfold upd in Hp. rewrite assignOrders_length in Hp. lia. }
      assert (status u = s) as Hus.
      { rewrite <-Hx.
        assert (status <$> upd !! p = status <$> tasks !! p) as Hst.
        { rewrite <-!list_lookup_fmap. unfold upd.
          by rewrite assignOrders_statuses. }
        rewrite Hp, Hu in Hst. by simplify_eq/=. }
      assert (u ∈ reordered) as [i Hi]%list_elem_of_lookup.
      { apply Hin. eauto using list_elem_of_lookup_2. }
      exists i, u. split; [|done].
      specialize (Hcol i u p Hi Hu). congruence.
    + intros (i & u & -> & Hi).
      assert (u ∈ reordered) as [Hus [p Hp]%list_elem_of_lookup]%Hin
        by eauto using list_elem_of_lookup_2.
      split; [by rewrite status_renumber|].
      eapply list_elem_of_lookup_2, Hcol; done.
Qed.

(** The closing loop, when the context holds the list the handler started
    from: a call is made exactly for the tasks whose order is no longer
    the one the context has, and it carries the new order. *)
Lemma persist_in_sync tasks updatedTasks c :
  NoDup (id <$> tasks) →
  id <$> updatedTasks = id <$> tasks →
  status <$> updatedTasks = status <$> tasks →
  c ∈ Board.persist tasks updatedTasks ↔
  ∃ p u u', tasks !! p = Some u ∧ updatedTasks !! p = Some u' ∧
            order u ≠ order u' ∧
            c = CallUpdateTask (id u') (Partial.ofOrder (order u')).
Proof.
  intros Hnd Hids Hsts.
  assert (∀ p u', updatedTasks !! p = Some u' →
            ∃ u, tasks !! p = Some u ∧ id u = id u' ∧ status u = status u'
                 ∧ findById (id u') tasks = Some u) as Hpair.
  { intros p u' Hp.
    assert ((id <$> tasks) !! p = Some (id u')) as Hi
      by (by rewrite <-Hids, list_lookup_fmap, Hp).
    assert ((status <$> tasks) !! p = Some (status u')) as Hs
      by (by rewrite <-Hsts, list_lookup_fmap, Hp).
    rewrite list_lookup_fmap in Hi, Hs.
    destruct (tasks !! p) as [u|] eqn:Hu; simplify_eq/=.
    exists u. split_and!; [done..|].
    unfold findById. rewrite <-Hi.
    by rewrite (list_find_id_NoDup tasks p u). }
  unfold Board.persist. rewrite list_elem_of_bind. split.
  - intros (u' & Hc & [p Hp]%list_elem_of_lookup).
    destruct (Hpair p u' Hp) as (u & Hu & Hid & Hst & Hfind).
    unfold Board.persistOne in Hc. rewrite Hfind in Hc.
    rewrite bool_decide_eq_false_2 in Hc by (intros ?; done).
    case_bool_decide; [|by apply elem_of_nil in Hc].
    apply list_elem_of_singleton in Hc. naive_solver.
  - intros (p & u & u' & Hu & Hp & Hne & ->).
    exists u'. split; [|by eapply list_elem_of_lookup_2].
    destruct (Hpair p u' Hp) as (u0 & Hu0 & Hid & Hst & Hfind).
    simplify_eq. unfold Board.persistOne. rewrite Hfind.
    rewrite bool_decide_eq_false_2 by (intros ?; done).
    rewrite bool_decide_eq_true_2 by done. by left.
Qed.

(** Where the same-column branch does what is asked of it: on a board
    shown in full and in step with the context, for a task that the column
    holds at the source position.  The handler takes the task out of the
    sorted column, puts it back at the destination index (at the end when
    the index is past it), numbers the whole column 0, 1, 2, ... in that
    sequence, leaves tasks of other columns alone, and calls the context
    exactly for the tasks whose order changed, with the new order.  The
    column read back from the result, and from the task list with the calls
    applied one after another, is the new sequence. *)
Theorem same_column_reorder now tasks src dest t :
  NoDup (id <$> tasks) →
  Board.droppableId src ∈ COLUMNS →
  Board.droppableId dest = Board.droppableId src →
  Board.index dest ≠ Board.index src →
  Board.column (Board.droppableId src) tasks !! Board.index src = Some t →
  let s := Board.droppableId src in
  let col := Board.column s tasks in
  let reordered := spliceIn (Board.index dest) t (delete (Board.index src) col) in
  let landing := (Board.index dest `min` (length col - 1))%nat in
  ∃ updatedTasks,
    Board.handleDragEnd now tasks tasks (Board.mkDropResult (Some dest) src (id t)) =
      Board.Committed updatedTasks (Board.persist tasks updatedTasks) ∧
    (reordered !! landing = Some t ∧
     delete landing reordered = delete (Board.index src) col) ∧
    (∀ i u, reordered !! i = Some u →
       ∃ p, tasks !! p = Some u ∧
            updatedTasks !! p = Some (Board.renumber now i u)) ∧
    (∀ p u, tasks !! p = Some u → status u ≠ s → updatedTasks !! p = Some u) ∧
    Board.column s updatedTasks = imap (Board.renumber now) reordered ∧
    Board.columnIds s updatedTasks = id <$> reordered ∧
    (∀ i u, Board.column s updatedTasks !! i = Some u → order u = Some (Z.of_nat i)) ∧
    (∀ c, c ∈ Board.persist tasks updatedTasks ↔
          ∃ i u, reordered !! i = Some u ∧ order u ≠ Some (Z.of_nat i) ∧
                 c = CallUpdateTask (id u) (Partial.ofOrder (Some (Z.of_nat i)))) ∧
    (∀ now', Board.columnIds s (runCalls now' (Board.persist tasks updatedTasks) tasks)
             = id <$> reordered).
Proof.
  intros Hnd Hcolumn Hsame Hmove Hshown s col reordered landing.
  assert (t ∈ tasks) as Ht.
  { eapply elem_of_column, list_elem_of_lookup_2, Hshown. }
  assert (reordered ≡ₚ filter (λ u, status u = s) tasks) as Hperm.
  { unfold reordered. rewrite spliceIn_delete_Permutation by done.
    apply column_Permutation. }
  destruct (renumber_column now s tasks reordered Hnd Hperm)
    as (Hout & Hin & Hcol).
  set (updatedTasks := Board.assignOrders now true (λ i, i) 0 reordered tasks) in *.
  assert (length (delete (Board.index src) col) = (length col - 1)%nat) as Hlen.
  { apply lookup_lt_Some in Hshown as Hlt. rewrite length_delete; [done|].
    by apply lookup_lt_is_Some. }
  exists updatedTasks. split_and!.
  - unfold Board.handleDragEnd. simpl.
    rewrite (bool_decide_eq_false_2 (Board.index dest = _)) by done.
    rewrite andb_false_r.
    destruct (list_find_elem_of (λ task, id task = id t) tasks t Ht eq_refl)
      as [[k t'] Hfind].
    unfold findById, findIndexById. rewrite Hfind. simpl.
    unfold isColumn. rewrite Hsame, !bool_decide_eq_true_2 by done. simpl.
    rewrite bool_decide_eq_false_2 by (intros ?; done).
    unfold Board.sameColumn, spliceOut. by rewrite Hshown.
  - unfold landing, reordered. rewrite <-Hlen. apply spliceIn_lookup.
  - unfold landing, reordered. rewrite <-Hlen. apply spliceIn_delete.
  - done.
  - done.
  - done.
  - unfold Board.columnIds. rewrite Hcol. apply fmap_id_imap_renumber.
  - intros i u. rewrite Hcol, list_lookup_imap.
    destruct (reordered !! i); intros; simplify_eq/=. apply order_renumber.
  - intros c. rewrite persist_in_sync; [|done|apply assignOrders_ids|apply assignOrders_statuses].
    split.
    + intros (p & u & u' & Hu & Hu' & Hne & ->).
      destruct (decide (status u = s)) as [Hs|Hs].
      * assert (u ∈ reordered) as [i Hi]%list_elem_of_lookup.
        { rewrite Hperm. apply list_elem_of_filter.
          eauto using list_elem_of_lookup_2. }
        destruct (Hin i u Hi) as (p' & Hp' & Hup).
        assert (p' = p); [|subst p'].
        { eapply (NoDup_lookup (id <$> tasks)); [done| |];
            by rewrite list_lookup_fmap, ?Hp', ?Hu. }
        assert (u' = Board.renumber now i u) as -> by congruence.
        exists i, u. rewrite order_renumber in Hne.
        by rewrite id_renumber, order_renumber.
      * rewrite (Hout p u Hu Hs) in Hu'. congruence.
    + intros (i & u & Hi & Hne & ->).
      destruct (Hin i u Hi) as (p & Hp & Hup).
      exists p, u, (Board.renumber now i u).
      by rewrite id_renumber, order_renumber.
  - intros now'. rewrite (columnIds_alike s _ updatedTasks).
    + unfold Board.columnIds. rewrite Hcol. apply fmap_id_imap_renumber.
    + apply store_follows_local; [done|by apply assignOrders_fmap..].
Qed.

(** ** Cross-column moves between numbered columns *)

Lemma shift_loop_lookup now f i col base m u p :
  NoDup (id <$> base) → NoDup (id <$> col) →
  col !! m = Some u → base !! p = Some u →
  Board.assignOrders now false f i (drop i col) base !! p
  = Some (Board.shifted now i f m u).
Proof.
  intros Hnd Hndc Hm Hp. unfold Board.shifted. case_bool_decide as Hlt.
  - apply assignOrders_lookup_other; [done|].
    intros t' [j Hj]%list_elem_of_lookup Heq. rewrite lookup_drop in Hj.
    assert ((i + j)%nat = m); [|lia].
    apply (NoDup_lookup (id <$> col) _ _ (id u)); [done| |];
      rewrite list_lookup_fmap, ?Hj, ?Hm; simpl; congruence.
  - rewrite (assignOrders_lookup_same _ _ _ _ _ _ (m - i) u p u); try done.
    + simpl. do 3 f_equal. lia.
    + apply (sublist_NoDup _ (id <$> col)); [done|].
      apply fmap_sublist, sublist_drop.
    + rewrite lookup_drop. rewrite <-Hm. f_equal. lia.
Qed.

Lemma shift_loop_other now f i col base u p :
  base !! p = Some u → (∀ t', t' ∈ col → id t' ≠ id u) →
  Board.assignOrders now false f i (drop i col) base !! p = Some u.
Proof.
  intros Hp Hne. apply assignOrders_lookup_other; [done|].
  intros t' Ht'%elem_of_drop_weak. by apply Hne.
Qed.

(** Filtering two lists that agree, place by place, on what passes. *)
Lemma filter_pointwise {A} (P Q : A → Prop)
    `{∀ x, Decision (P x)} `{∀ x, Decision (Q x)} (l1 l2 : list A) :
  Forall2 (λ a b, (P a ∧ Q b ∧ a = b) ∨ (¬ P a ∧ ¬ Q b)) l1 l2 →
  filter P l1 = filter Q l2.
Proof.
  induction 1 as [|a b l1 l2 Hab Hl IH]; [done|].
  rewrite !filter_cons.
  destruct Hab as [(HP & HQ & ->)|[HP HQ]].
  - rewrite !decide_True by done. by f_equal.
  - by rewrite !decide_False by done.
Qed.

Lemma elem_of_delete_NoDup {A} (l : list A) (i : nat) (x y : A) :
  NoDup l → l !! i = Some x → y ∈ delete i l ↔ y ∈ l ∧ y ≠ x.
Proof.
  intros Hnd Hi. pose proof (delete_Permutation l i x Hi) as Hperm.
  assert (y ∈ l ↔ y = x ∨ y ∈ delete i l) as ->.
  { by rewrite (elem_of_Permutation_proper y _ _ Hperm), elem_of_cons. }
  rewrite Hperm in Hnd. apply NoDup_cons in Hnd as [Hx _].
  split; [|by intros [[|] ?]].
  intros Hy. split; [by right|]. by intros ->.
Qed.

Lemma StronglySorted_delete {A} (R : relation A) (l : list A) (i : nat) :
  StronglySorted R l → StronglySorted R (delete i l).
Proof.
  intros Hl. revert i. induction Hl as [|a l Hl IH Ha]; intros [|i]; simpl;
    [constructor..|done|].
  constructor; [apply IH|].
  eapply Forall_forall. intros y Hy. rewrite Forall_forall in Ha. apply Ha.
  by eapply elem_of_sublist, sublist_delete.
Qed.

(** Tasks that carry their positions as orders are sorted without ties. *)
Lemma orders_by_position_sorted (n : nat) (l : list Task) :
  (∀ m x, l !! m = Some x → order x = Some (Z.of_nat (n + m))) →
  StronglySorted (ltOf compareTasks) l.
Proof.
  revert n. induction l as [|a l IH]; intros n Hl; [constructor|].
  constructor.
  - apply (IH (S n)). intros m x Hm. rewrite (Hl (S m) x Hm). do 2 f_equal. lia.
  - apply Forall_forall. intros y [m Hm]%list_elem_of_lookup.
    apply compareTasks_lt_order.
    rewrite (Hl 0%nat a eq_refl), (Hl (S m) y Hm). simpl. lia.
Qed.

Lemma spliceIn_Permutation {A} (j : nat) (x : A) (l : list A) :
  spliceIn j x l ≡ₚ x :: l.
Proof. unfold spliceIn. by rewrite <-Permutation_middle, take_drop. Qed.

Lemma fmap_spliceIn {A B} (f : A → B) (j : nat) (x : A) (l : list A) :
  f <$> spliceIn j x l = spliceIn j (f x) (f <$> l).
Proof. unfold spliceIn. by rewrite fmap_app, fmap_cons, fmap_take, fmap_drop. Qed.

Lemma spliceIn_lookup_lt {A} (j m : nat) (x : A) (l : list A) :
  (m < j)%nat → (j ≤ length l)%nat → spliceIn j x l !! m = l !! m.
Proof.
  intros Hm Hj. unfold spliceIn.
  rewrite lookup_app_l by (rewrite length_take; lia).
  by apply lookup_take_lt.
Qed.

Lemma spliceIn_lookup_eq {A} (j : nat) (x : A) (l : list A) :
  (j ≤ length l)%nat → spliceIn j x l !! j = Some x.
Proof.
  intros Hj. rewrite <-(spliceIn_lookup j x l). f_equal. lia.
Qed.

Lemma spliceIn_lookup_gt {A} (j m : nat) (x : A) (l : list A) :
  (j < m)%nat → (j ≤ length l)%nat → spliceIn j x l !! m = l !! (m - 1)%nat.
Proof.
  intros Hm Hj. unfold spliceIn.
  rewrite lookup_app_r by (rewrite length_take; lia).
  rewrite length_take, Nat.min_l by done.
  destruct (m - j)%nat as [|d] eqn:Hd; [lia|]. simpl.
  rewrite lookup_drop. f_equal. lia.
Qed.

Lemma spliceIn_delete_same {A} (i : nat) (x : A) (l : list A) :
  l !! i = Some x → spliceIn i x (delete i l) = l.
Proof.
  intros Hi. unfold spliceIn. rewrite delete_take_drop.
  apply lookup_lt_Some in Hi as Hlt.
  rewrite take_app_le, drop_app_ge by (rewrite length_take; lia).
  rewrite take_take, Nat.min_id, length_take, Nat.min_l, Nat.sub_diag by lia.
  simpl. by apply take_drop_middle.
Qed.

Lemma id_shifted now start f m u : id (Board.shifted now start f m u) = id u.
Proof. unfold Board.shifted. by case_bool_decide. Qed.

Lemma status_shifted now start f m u :
  status (Board.shifted now start f m u) = status u.
Proof. unfold Board.shifted. by case_bool_decide. Qed.

Lemma fmap_id_imap_shifted now start f (l : list Task) :
  id <$> imap (Board.shifted now start f) l = id <$> l.
Proof.
  apply list_eq. intros i. rewrite !list_lookup_fmap, list_lookup_imap.
  destruct (l !! i); simpl; [|done]. by rewrite id_shifted.
Qed.

Section cross_numbered.
Context (now : Z) (tasks : list Task) (t : Task) (k iS jD : nat) (sS sD : string).
Context (Hnd : NoDup (id <$> tasks)).
Context (Hk : tasks !! k = Some t).
Context (Hne : sS ≠ sD).
Context (HiS : Board.column sS tasks !! iS = Some t).
Context (HnumS : Board.numbered sS tasks).
Context (HnumD : Board.numbered sD tasks).

Local Abbreviation S := (Board.column sS tasks).
Local Abbreviation D := (Board.column sD tasks).
Local Abbreviation moved := (Board.moveTo now sD jD t).
Local Abbreviation upd1 := (alter (Board.moveTo now sD jD) k tasks).
Local Abbreviation upd2 :=
  (Board.assignOrders now false (λ i, i + 1)%nat jD
     (drop jD (Board.columnWithout sD (id t) upd1)) upd1).
Local Abbreviation upd3 :=
  (Board.crossColumn now (id t) k (Board.mkLocation sS iS) (Board.mkLocation sD jD) tasks).

Lemma cn_status : status t = sS.
Proof. by eapply elem_of_column, list_elem_of_lookup_2. Qed.

Lemma cn_other_id p u : tasks !! p = Some u → p ≠ k → id u ≠ id t.
Proof.
  intros Hp Hpk Heq. apply Hpk.
  apply (NoDup_lookup (id <$> tasks) _ _ (id t)); [done| |];
    rewrite list_lookup_fmap, ?Hp, ?Hk; simpl; congruence.
Qed.

Lemma cn_position u : u ∈ tasks → u ≠ t → ∃ p, tasks !! p = Some u ∧ p ≠ k.
Proof.
  intros [p Hp]%list_elem_of_lookup Hu. exists p. split; [done|].
  intros ->. congruence.
Qed.

Lemma cn_NoDup_column s : NoDup (id <$> Board.column s tasks).
Proof. rewrite column_Permutation. by apply NoDup_id_filter. Qed.

(** The destination column is read as it was: the dragged task is left
    out, every other task is still untouched. *)
Lemma cn_destination : Board.columnWithout sD (id t) upd1 = D.
Proof.
  unfold Board.columnWithout, Board.column. f_equal.
  apply filter_pointwise, Forall2_same_length_lookup.
  split; [by rewrite length_alter|].
  intros p a b Ha Hb. destruct (decide (p = k)) as [->|Hpk].
  - rewrite list_lookup_alter_eq, Hk in Ha. simplify_eq/=. right.
    split; [by intros [_ ?]|]. rewrite cn_status. done.
  - rewrite list_lookup_alter_ne in Ha by done.
    assert (a = b) as -> by congruence.
    destruct (decide (status b = sD)); [left|right]; [|by split; [intros [??]|]].
    split_and!; [done| |done..]. by eapply cn_other_id.
Qed.

Lemma cn_upd2_moved : upd2 !! k = Some moved.
Proof.
  apply shift_loop_other; [by rewrite list_lookup_alter_eq, Hk|].
  intros u [[_ Hu] _]%elem_of_columnWithout. simpl. congruence.
Qed.

Lemma cn_upd2_destination m u p :
  D !! m = Some u → tasks !! p = Some u →
  upd2 !! p = Some (Board.shifted now jD (λ i, i + 1)%nat m u).
Proof.
  intros Hm Hp. rewrite cn_destination. apply shift_loop_lookup; try done.
  - by rewrite fmap_alter_preserved.
  - apply cn_NoDup_column.
  - rewrite list_lookup_alter_ne; [done|]. intros <-.
    apply list_elem_of_lookup_2, elem_of_column in Hm as [Hst _].
    pose proof cn_status. congruence.
Qed.

Lemma cn_upd2_other p u :
  tasks !! p = Some u → status u ≠ sD → p ≠ k → upd2 !! p = Some u.
Proof.
  intros Hp Hst Hpk. rewrite cn_destination. apply shift_loop_other.
  - by rewrite list_lookup_alter_ne.
  - intros u' [Hu' Hin]%elem_of_column Heq. apply Hst. rewrite <-Hu'. f_equal.
    apply (NoDup_id_inj tasks); [done| |done..]. by eapply list_elem_of_lookup_2.
Qed.

Lemma cn_upd2_fields p a b :
  upd2 !! p = Some a → tasks !! p = Some b → p ≠ k →
  id a = id b ∧ status a = status b.
Proof.
  intros Ha Hb Hpk.
  assert (id <$> upd2 !! p = id <$> upd1 !! p) as Hi
    by (by rewrite <-!list_lookup_fmap, assignOrders_fmap).
  assert (status <$> upd2 !! p = status <$> upd1 !! p) as Hs
    by (by rewrite <-!list_lookup_fmap, assignOrders_fmap).
  rewrite list_lookup_alter_ne, Hb in Hi, Hs by done.
  rewrite Ha in Hi, Hs. by simplify_eq/=.
Qed.

Lemma cn_source_Permutation :
  filter (λ u, status u = sS ∧ id u ≠ id t) tasks ≡ₚ delete iS S.
Proof.
  apply NoDup_Permutation.
  - apply NoDup_filter. by eapply NoDup_fmap_1.
  - apply (sublist_NoDup _ S); [|apply sublist_delete].
    eapply NoDup_fmap_1, cn_NoDup_column.
  - intros x. rewrite list_elem_of_filter.
    rewrite (elem_of_delete_NoDup S iS t) by
      (done || eapply NoDup_fmap_1, cn_NoDup_column).
    rewrite elem_of_column. split.
    + intros [[Hst Hid] Hin]. split; [done|]. by intros ->.
    + intros [[Hst Hin] Hx]. split; [|done]. split; [done|].
      intros Heq. apply Hx. apply (NoDup_id_inj tasks); [done..| |done].
      by eapply list_elem_of_lookup_2.
Qed.

(** The source column is read without the dragged task, the tasks in it
    as they were. *)
Lemma cn_source : Board.columnWithout sS (id t) upd2 = delete iS S.
Proof.
  unfold Board.columnWithout at 1. apply sort_unique; [apply _..| |].
  { apply StronglySorted_delete, (orders_by_position_sorted 0). exact HnumS. }
  rewrite <-cn_source_Permutation.
  assert (filter (λ u, status u = sS ∧ id u ≠ id t) upd2
          = filter (λ u, status u = sS ∧ id u ≠ id t) tasks) as ->; [|done].
  apply filter_pointwise, Forall2_same_length_lookup.
  split; [by rewrite assignOrders_length, length_alter|].
  intros p a b Ha Hb. destruct (decide (p = k)) as [->|Hpk].
  - rewrite cn_upd2_moved in Ha. rewrite Hk in Hb. simplify_eq/=.
    right. split; by intros [_ ?].
  - destruct (cn_upd2_fields p a b Ha Hb Hpk) as [Hi Hs].
    destruct (decide (status b = sS)) as [Hb'|Hb'].
    + left. rewrite (cn_upd2_other p b) in Ha by (done || congruence).
      assert (a = b) as -> by congruence.
      split_and!; [done| |done| |done]; by eapply cn_other_id.
    + right. rewrite Hs. split; by intros [? _].
Qed.

Lemma cn_unfold :
  upd3 = Board.assignOrders now false (λ i, i) iS (drop iS (delete iS S)) upd2.
Proof. unfold Board.crossColumn. cbn [Board.droppableId Board.index]. by rewrite cn_source. Qed.

Lemma cn_ids : id <$> upd3 = id <$> tasks.
Proof. by apply crossColumn_fmap. Qed.

Lemma cn_moved : upd3 !! k = Some moved.
Proof. by apply crossColumn_moved. Qed.

Lemma cn_in_destination m u p :
  D !! m = Some u → tasks !! p = Some u →
  upd3 !! p = Some (Board.shifted now jD (λ i, i + 1)%nat m u).
Proof.
  intros Hm Hp. rewrite cn_unfold. apply shift_loop_other.
  { by apply cn_upd2_destination. }
  intros u' [Hu' Hin]%(elem_of_sublist _ S)%elem_of_column; [|apply sublist_delete].
  rewrite id_shifted. intros Heq.
  apply list_elem_of_lookup_2, elem_of_column in Hm as [Hst _].
  assert (u' = u); [|congruence].
  apply (NoDup_id_inj tasks); [done..| |done]. by eapply list_elem_of_lookup_2.
Qed.

Lemma cn_in_source m u p :
  delete iS S !! m = Some u → tasks !! p = Some u →
  upd3 !! p = Some (Board.shifted now iS (λ i, i) m u).
Proof.
  intros Hm Hp. rewrite cn_unfold.
  assert (u ∈ S ∧ u ≠ t) as [[Hst _]%elem_of_column Hu].
  { apply (elem_of_delete_NoDup S iS); [|done|by eapply list_elem_of_lookup_2].
    eapply NoDup_fmap_1, cn_NoDup_column. }
  apply shift_loop_lookup; [| |done|].
  - by rewrite assignOrders_fmap, fmap_alter_preserved.
  - apply (sublist_NoDup _ (id <$> S)); [apply cn_NoDup_column|].
    apply fmap_sublist, sublist_delete.
  - apply cn_upd2_other; [done|congruence|]. intros ->. congruence.
Qed.

Lemma cn_elsewhere p u :
  tasks !! p = Some u → status u ≠ sD → status u ≠ sS → upd3 !! p = Some u.
Proof.
  intros Hp HD HS. rewrite cn_unfold. apply shift_loop_other.
  - apply cn_upd2_other; [done..|]. intros ->. pose proof cn_status. congruence.
  - intros u' [Hu' Hin]%(elem_of_sublist _ S)%elem_of_column Heq; [|apply sublist_delete].
    assert (u' = u); [|congruence].
    apply (NoDup_id_inj tasks); [done..| |done]. by eapply list_elem_of_lookup_2.
Qed.

(** Every place of the result, by the column of the task that stood
    there. *)
Lemma cn_places p x :
  upd3 !! p = Some x →
  (p = k ∧ x = moved) ∨
  (∃ m u, D !! m = Some u ∧ tasks !! p = Some u ∧
          x = Board.shifted now jD (λ i, i + 1)%nat m u) ∨
  (∃ m u, delete iS S !! m = Some u ∧ tasks !! p = Some u ∧
          x = Board.shifted now iS (λ i, i) m u) ∨
  (tasks !! p = Some x ∧ status x ≠ sD ∧ status x ≠ sS).
Proof.
  intros Hx. destruct (decide (p = k)) as [->|Hpk].
  { left. rewrite cn_moved in Hx. by simplify_eq. }
  right. destruct (tasks !! p) as [u|] eqn:Hu.
  2:{ apply lookup_ge_None in Hu. apply lookup_lt_Some in Hx.
      rewrite <-(length_fmap id), cn_ids, length_fmap in Hx. lia. }
  destruct (decide (status u = sD)) as [HD|HD].
  { left. assert (u ∈ D) as [m Hm]%list_elem_of_lookup.
    { apply elem_of_column. eauto using list_elem_of_lookup_2. }
    exists m, u. rewrite (cn_in_destination m u p) in Hx by done. by simplify_eq. }
  right. destruct (decide (status u = sS)) as [HS|HS].
  { left. assert (u ∈ delete iS S) as [m Hm]%list_elem_of_lookup.
    { apply (elem_of_delete_NoDup S iS t); [|done|].
      - eapply NoDup_fmap_1, cn_NoDup_column.
      - split; [apply elem_of_column; eauto using list_elem_of_lookup_2|].
        intros ->. apply Hpk.
        apply (NoDup_lookup (id <$> tasks) _ _ (id t)); [done| |];
          by rewrite list_lookup_fmap, ?Hu, ?Hk. }
    exists m, u. rewrite (cn_in_source m u p) in Hx by done. by simplify_eq. }
  right. rewrite (cn_elsewhere p u) in Hx by done. by simplify_eq.
Qed.

Lemma cn_fresh_id : id t ∉ id <$> D.
Proof.
  intros (u & Heq & [Hst Hin]%elem_of_column)%list_elem_of_fmap.
  assert (t = u) as Htu.
  { apply (NoDup_id_inj tasks); [done| |done..]. by eapply list_elem_of_lookup_2. }
  pose proof cn_status. congruence.
Qed.

Lemma cn_destination_orders m x :
  (jD ≤ length D)%nat →
  spliceIn jD moved (imap (Board.shifted now jD (λ i, i + 1)%nat) D) !! m = Some x →
  order x = Some (Z.of_nat m).
Proof.
  intros HjD. destruct (Nat.lt_total m jD) as [Hlt|[->|Hgt]].
  - rewrite spliceIn_lookup_lt, list_lookup_imap by (rewrite ?length_imap; done).
    destruct (D !! m) as [u|] eqn:Hu; intros; simplify_eq/=.
    unfold Board.shifted. rewrite bool_decide_eq_true_2 by done. by apply HnumD.
  - rewrite spliceIn_lookup_eq by (by rewrite length_imap). by intros [= <-].
  - rewrite spliceIn_lookup_gt, list_lookup_imap by (rewrite ?length_imap; done).
    destruct (D !! (m - 1)%nat) as [u|] eqn:Hu; intros; simplify_eq/=.
    unfold Board.shifted. rewrite bool_decide_eq_false_2 by lia. simpl.
    do 2 f_equal. lia.
Qed.

Lemma cn_source_orders m x :
  imap (Board.shifted now iS (λ i, i)) (delete iS S) !! m = Some x →
  order x = Some (Z.of_nat m).
Proof.
  rewrite list_lookup_imap.
  destruct (delete iS S !! m) as [u|] eqn:Hu; intros; simplify_eq/=.
  unfold Board.shifted. case_bool_decide as Hlt; [|done].
  rewrite list_lookup_delete_lt in Hu by done. by apply HnumS.
Qed.

(** The destination column after the move: the column as it was, its
    tail renumbered, with the dragged task put in at the destination
    index. *)
Lemma cn_column_destination :
  (jD ≤ length D)%nat →
  Board.column sD upd3
  = spliceIn jD moved (imap (Board.shifted now jD (λ i, i + 1)%nat) D).
Proof.
  intros HjD. unfold Board.column at 1. apply sort_unique; [apply _..| |].
  { apply (orders_by_position_sorted 0). intros m x. by apply cn_destination_orders. }
  apply NoDup_Permutation.
  - apply NoDup_filter, (NoDup_fmap_1 id). by rewrite cn_ids.
  - apply (NoDup_fmap_1 id).
    rewrite fmap_spliceIn, fmap_id_imap_shifted, spliceIn_Permutation.
    apply NoDup_cons. split; [apply cn_fresh_id|apply cn_NoDup_column].
  - intros x. rewrite list_elem_of_filter, spliceIn_Permutation, elem_of_cons,
      elem_of_lookup_imap. split.
    + intros [Hst [p Hp]%list_elem_of_lookup].
      destruct (cn_places p x Hp)
        as [[_ ->]|[(m & u & Hm & _ & ->)|[(m & u & Hm & _ & ->)|(_ & ? & _)]]];
        [by left|right; eauto| |done].
      rewrite status_shifted in Hst.
      apply list_elem_of_lookup_2, (elem_of_sublist _ S), elem_of_column in Hm
        as [? _]; [congruence|apply sublist_delete].
    + intros [->|(m & u & -> & Hm)].
      * split; [done|]. eapply list_elem_of_lookup_2, cn_moved.
      * apply list_elem_of_lookup_2 in Hm as Hin.
        apply elem_of_column in Hin as [Hst [p Hp]%list_elem_of_lookup].
        split; [by rewrite status_shifted|].
        by eapply list_elem_of_lookup_2, cn_in_destination.
Qed.

(** The source column after the move: the column without the dragged
    task, its tail renumbered. *)
Lemma cn_column_source :
  Board.column sS upd3 = imap (Board.shifted now iS (λ i, i)) (delete iS S).
Proof.
  unfold Board.column at 1. apply sort_unique; [apply _..| |].
  { apply (orders_by_position_sorted 0). apply cn_source_orders. }
  apply NoDup_Permutation.
  - apply NoDup_filter, (NoDup_fmap_1 id). by rewrite cn_ids.
  - apply (NoDup_fmap_1 id). rewrite fmap_id_imap_shifted.
    apply (sublist_NoDup _ (id <$> S)); [apply cn_NoDup_column|].
    apply fmap_sublist, sublist_delete.
  - intros x. rewrite list_elem_of_filter, elem_of_lookup_imap. split.
    + intros [Hst [p Hp]%list_elem_of_lookup].
      destruct (cn_places p x Hp)
        as [[_ ->]|[(m & u & Hm & _ & ->)|[(m & u & Hm & _ & ->)|(_ & _ & ?)]]];
        [simpl in Hst; congruence| |eauto|done].
      rewrite status_shifted in Hst.
      apply list_elem_of_lookup_2, elem_of_column in Hm as [? _]. congruence.
    + intros (m & u & -> & Hm).
      apply list_elem_of_lookup_2 in Hm as Hin.
      apply (elem_of_sublist _ S), elem_of_column in Hin
        as [Hst [p Hp]%list_elem_of_lookup]; [|apply sublist_delete].
      split; [by rewrite status_shifted|].
      by eapply list_elem_of_lookup_2, cn_in_source.
Qed.

(** Every other column is as it was. *)
Lemma cn_column_elsewhere s :
  s ≠ sS → s ≠ sD → Board.column s upd3 = Board.column s tasks.
Proof.
  intros HS HD. unfold Board.column. f_equal.
  apply filter_pointwise, Forall2_same_length_lookup.
  split; [by rewrite <-(length_fmap id), cn_ids, length_fmap|].
  intros p a b Ha Hb. pose proof cn_status as Ht.
  destruct (cn_places p a Ha)
    as [[-> ->]|[(m & u & Hm & Hu & ->)|[(m & u & Hm & Hu & ->)|(Hu & ? & ?)]]].
  - right. rewrite Hk in Hb. simplify_eq/=. split; congruence.
  - right. rewrite status_shifted.
    apply list_elem_of_lookup_2, elem_of_column in Hm as [? _].
    assert (u = b) as -> by congruence. split; congruence.
  - right. rewrite status_shifted.
    apply list_elem_of_lookup_2, (elem_of_sublist _ S), elem_of_column in Hm
      as [? _]; [|apply sublist_delete].
    assert (u = b) as -> by congruence. split; congruence.
  - assert (a = b) as -> by congruence.
    destruct (decide (status b = s)); [by left|by right].
Qed.

End cross_numbered.

(** A cross-column move between two columns that are numbered 0, 1,
    2, ...: the handler commits; the destination column is the old one with
    the dragged task put in at the destination index, the source column is
    the old one without it, both are numbered 0, 1, 2, ... again, and every
    other column is as it was. *)
Proposition cross_column_numbered now tasks t iS jD sS sD :
  NoDup (id <$> tasks) →
  sS ∈ COLUMNS → sD ∈ COLUMNS → sS ≠ sD →
  Board.column sS tasks !! iS = Some t →
  Board.numbered sS tasks → Board.numbered sD tasks →
  (jD ≤ length (Board.column sD tasks))%nat →
  ∃ updatedTasks,
    Board.handleDragEnd now tasks tasks
      (Board.mkDropResult (Some (Board.mkLocation sD jD)) (Board.mkLocation sS iS) (id t))
      = Board.Committed updatedTasks (Board.persist tasks updatedTasks) ∧
    NoDup (id <$> updatedTasks) ∧
    Board.column sD updatedTasks !! jD = Some (Board.moveTo now sD jD t) ∧
    Board.columnIds sD updatedTasks = spliceIn jD (id t) (Board.columnIds sD tasks) ∧
    Board.columnIds sS updatedTasks = delete iS (Board.columnIds sS tasks) ∧
    Board.numbered sD updatedTasks ∧
    Board.numbered sS updatedTasks ∧
    (∀ s, s ≠ sS → s ≠ sD → Board.column s updatedTasks = Board.column s tasks).
Proof.
  intros Hnd HS HD Hne HiS HnumS HnumD HjD.
  assert (t ∈ tasks) as Hin by (by eapply elem_of_column, list_elem_of_lookup_2).
  destruct (list_elem_of_lookup_1 _ _ Hin) as [k Hk].
  pose proof (list_find_id_NoDup tasks k t Hnd Hk) as Hfind.
  pose proof (cn_column_destination now tasks t k iS jD sS sD
                Hnd Hk Hne HiS HnumS HnumD HjD) as HcolD.
  pose proof (cn_column_source now tasks t k iS jD sS sD
                Hnd Hk Hne HiS HnumS HnumD) as HcolS.
  exists (Board.crossColumn now (id t) k (Board.mkLocation sS iS)
            (Board.mkLocation sD jD) tasks).
  split_and!.
  - unfold Board.handleDragEnd. simpl.
    rewrite (bool_decide_eq_false_2 (sD = sS)) by done. simpl.
    unfold findById, findIndexById, isColumn. rewrite Hfind. simpl.
    by rewrite !bool_decide_eq_true_2 by done.
  - by rewrite crossColumn_fmap.
  - rewrite HcolD. apply spliceIn_lookup_eq. by rewrite length_imap.
  - unfold Board.columnIds. by rewrite HcolD, fmap_spliceIn, fmap_id_imap_shifted.
  - unfold Board.columnIds. by rewrite HcolS, fmap_id_imap_shifted, list_fmap_delete.
  - intros m x. rewrite HcolD. by eapply cn_destination_orders.
  - intros m x. rewrite HcolS. by eapply cn_source_orders.
  - intros s ? ?. by eapply cn_column_elsewhere.
Qed.

(** X1. Between numbered columns a round trip restores both columns: a task
    moved from position [iA] of column [sA] to position [jB] of column [sB]
    and then back to position [iA] of [sA] leaves the id sequences of both
    columns as they were. *)
Proposition round_trip_numbered now now' tasks t iA jB sA sB :
  NoDup (id <$> tasks) →
  sA ∈ COLUMNS → sB ∈ COLUMNS → sA ≠ sB →
  Board.column sA tasks !! iA = Some t →
  Board.numbered sA tasks → Board.numbered sB tasks →
  (jB ≤ length (Board.column sB tasks))%nat →
  ∃ away home,
    Board.handleDragEnd now tasks tasks
      (Board.mkDropResult (Some (Board.mkLocation sB jB)) (Board.mkLocation sA iA) (id t))
      = Board.Committed away (Board.persist tasks away) ∧
    Board.handleDragEnd now' away away
      (Board.mkDropResult (Some (Board.mkLocation sA iA)) (Board.mkLocation sB jB) (id t))
      = Board.Committed home (Board.persist away home) ∧
    Board.columnIds sA home = Board.columnIds sA tasks ∧
    Board.columnIds sB home = Board.columnIds sB tasks.
Proof.
  intros Hnd HA HB Hne HiA HnumA HnumB HjB.
  destruct (cross_column_numbered now tasks t iA jB sA sB)
    as (away & Hout & Hnd' & Hshown & HidsB & HidsA & HnumB' & HnumA' & _); [done..|].
  assert (Board.columnIds sA tasks !! iA = Some (id t)) as HidA.
  { unfold Board.columnIds. by rewrite list_lookup_fmap, HiA. }
  assert (iA ≤ length (Board.column sA away))%nat as HiA'.
  { rewrite <-(length_fmap id). fold (Board.columnIds sA away). rewrite HidsA.
    apply lookup_lt_Some in HidA. rewrite length_delete by (by apply lookup_lt_is_Some).
    lia. }
  assert (sB ≠ sA) as Hne' by congruence.
  destruct (cross_column_numbered now' away (Board.moveTo now sB jB t) jB iA sB sA
              Hnd' HB HA Hne' Hshown HnumB' HnumA' HiA')
    as (home & Hback & _ & _ & HidsA' & HidsB' & _).
  exists away, home. split_and!; [done..| |].
  - rewrite HidsA', HidsA. simpl. by apply spliceIn_delete_same.
  - rewrite HidsB', HidsB.
    rewrite <-(spliceIn_delete jB (id t) (Board.columnIds sB tasks)) at 2.
    f_equal. unfold Board.columnIds. rewrite length_fmap. lia.
Qed.

(** ** The examples of the specification *)

(** Moving [a] to the end of [a, b, c] emits [a -> 2], [b -> 0], [c -> 1]
    and the column reads [b, c, a]. *)
Example same_column_example :
  let o := Board.handleDragEnd 99 Sample.abc Sample.abc (Sample.drag "a" "todo" 0 "todo" 2) in
  Board.callsOf o =
    [CallUpdateTask "a" (Partial.ofOrder (Some 2));
     CallUpdateTask "b" (Partial.ofOrder (Some 0));
     CallUpdateTask "c" (Partial.ofOrder (Some 1))] ∧
  Board.columnIds "todo" (Board.localAfter Sample.abc o) = ["b"; "c"; "a"] ∧
  Board.columnIds "todo" (runCalls 99 (Board.callsOf o) Sample.abc) = ["b"; "c"; "a"].
Proof. by vm_compute. Qed.

(** Moving [a] from to-do onto the top of done: [a] is done with order 0,
    [b] gets order 1, to-do is empty. *)
Example cross_column_example :
  let after := Sample.dragged 99 Sample.ab (Sample.drag "a" "todo" 0 "done" 0) in
  Sample.summary after.1 = [("a", "done", Some 0); ("b", "done", Some 1)] ∧
  Sample.summary after.2 = [("a", "done", Some 0); ("b", "done", Some 1)] ∧
  Board.column "todo" after.1 = [].
Proof. by vm_compute. Qed.

(** The @dnd-kit board on the same-column example: dropping [a] on [c]
    makes the calls [b -> 0], [c -> 1], [a -> 2]. *)
Example sortable_same_column_example :
  ∃ grouped, tasksByStatus Sample.abc = Normal grouped ∧
    SortableBoard.handleDragEnd Sample.abc grouped (SortableBoard.dropOnTask "a" "c")
    = SortableBoard.Done
        [CallUpdateTask "b" (Partial.ofOrder (Some 0));
         CallUpdateTask "c" (Partial.ofOrder (Some 1));
         CallUpdateTask "a" (Partial.ofOrder (Some 2))].
Proof. eexists. split; by vm_compute. Qed.

(** ** The @dnd-kit board departs from the numbering of the other *)

(** Inside a column it renumbers the range between the two positions
    only.  In a column of four tasks without an order, [c] dropped on [d]
    gives [d] the order 2 and [c] the order 3; [a] and [b] stay without an
    order and fall behind: the column reads [d, c, a, b]. *)
Example sortable_renumbers_range_only :
  ∃ grouped, tasksByStatus Sample.freshFour = Normal grouped ∧
    let o := SortableBoard.handleDragEnd Sample.freshFour grouped
               (SortableBoard.dropOnTask "c" "d") in
    o = SortableBoard.Done
          [CallUpdateTask "d" (Partial.ofOrder (Some 2));
           CallUpdateTask "c" (Partial.ofOrder (Some 3))] ∧
    Board.columnIds "todo" (runCalls 5 (SortableBoard.callsOf o) Sample.freshFour)
      = ["d"; "c"; "a"; "b"].
Proof. eexists. split; by vm_compute. Qed.

(** Across columns it shifts nothing: [a] dropped on [y] of the done
    column takes the status and the order of [y], and [y] keeps its order. *)
Example sortable_cross_column_shifts_nothing :
  ∃ grouped, tasksByStatus Sample.numberedBoard = Normal grouped ∧
    let o := SortableBoard.handleDragEnd Sample.numberedBoard grouped
               (SortableBoard.dropOnTask "a" "y") in
    o = SortableBoard.Done
          [CallUpdateTaskStatus "a" "done";
           CallUpdateTask "a" (Partial.ofOrder (Some 1))] ∧
    Sample.summary (runCalls 5 (SortableBoard.callsOf o) Sample.numberedBoard)
      = [("a", "done", Some 1); ("x", "done", Some 0); ("y", "done", Some 1)].
Proof. eexists. split; by vm_compute. Qed.

(** ** C1, C3, C9: a cross-column move into or out of a column that is
    not numbered yet *)

(** C1 (failing input). On a board of tasks without an order, [t] is
    dragged from the backlog, where the board shows it at position 0, to
    position 1 of to-do, between [x] and [y].  The handler numbers [t] 1
    and [y] 2 and leaves [x] without an order, so to-do reads [t, y, x]:
    [t] stands at position 0, not 1, and [x] has fallen behind [y]. *)
Theorem cross_column_misplaces_task :
  let result := Sample.drag "t" "backlog" 0 "todo" 1 in
  let after := Sample.dragged 10 Sample.fresh result in
  Board.shownAt Sample.fresh "t" (Board.source result) ∧
  Board.columnIds "todo" Sample.fresh = ["x"; "y"] ∧
  Sample.summary after.1 = [("x", "todo", None); ("y", "todo", Some 2); ("t", "todo", Some 1)] ∧
  Board.columnIds "todo" after.1 = ["t"; "y"; "x"] ∧
  Board.columnIds "todo" after.2 = ["t"; "y"; "x"] ∧
  Board.columnIds "todo" after.1 ≠ ["x"; "t"; "y"].
Proof. split; [eexists; by vm_compute|by vm_compute]. Qed.

(** C3 (failing input). On a board of tasks without an order, [t] is
    dragged from position 1 of the backlog [p, t, q] to position 1 of
    to-do [x, y].  The backlog is left with the orders (1, none) and reads
    [q, p]; to-do is left with the orders (1, 2, none): neither column is
    numbered 0, 1, ... *)
Theorem cross_column_leaves_gaps :
  let result := Sample.drag "t" "backlog" 1 "todo" 1 in
  let after := Sample.dragged 10 Sample.freshBoard result in
  Board.shownAt Sample.freshBoard "t" (Board.source result) ∧
  Board.columnIds "backlog" Sample.freshBoard = ["p"; "t"; "q"] ∧
  Board.columnIds "todo" Sample.freshBoard = ["x"; "y"] ∧
  Sample.summary (Board.column "backlog" after.1)
    = [("q", "backlog", Some 1); ("p", "backlog", None)] ∧
  Sample.summary (Board.column "todo" after.1)
    = [("t", "todo", Some 1); ("y", "todo", Some 2); ("x", "todo", None)] ∧
  Sample.summary (Board.column "backlog" after.2)
    = [("q", "backlog", Some 1); ("p", "backlog", None)] ∧
  Sample.summary (Board.column "todo" after.2)
    = [("t", "todo", Some 1); ("y", "todo", Some 2); ("x", "todo", None)].
Proof. split; [eexists; by vm_compute|by vm_compute]. Qed.

(** C9 (failing input). In a column [x, t, y] of tasks without an order,
    [t] is dragged from position 1 to the top of the empty done column and
    then back to position 1 of to-do.  After the first move to-do reads
    [y, x]; after the second it reads [t, y, x], not [x, t, y]. *)
Theorem round_trip_loses_order :
  let out := Sample.drag "t" "todo" 1 "done" 0 in
  let back := Sample.drag "t" "done" 0 "todo" 1 in
  let away := Sample.dragged 10 Sample.freshColumn out in
  let home := Sample.dragged 20 away.1 back in
  Board.shownAt Sample.freshColumn "t" (Board.source out) ∧
  Board.shownAt away.1 "t" (Board.source back) ∧
  Board.columnIds "todo" Sample.freshColumn = ["x"; "t"; "y"] ∧
  Board.columnIds "todo" away.1 = ["y"; "x"] ∧
  Board.columnIds "todo" home.1 = ["t"; "y"; "x"] ∧
  Board.columnIds "todo" home.2 = ["t"; "y"; "x"] ∧
  Board.columnIds "todo" home.1 ≠ Board.columnIds "todo" Sample.freshColumn.
Proof. split_and!; try (eexists; by vm_compute); by vm_compute. Qed.

(** ** Instances and counterexamples *)

(** The example of the specification: the hypotheses hold for the drag
    of [a] from the top to position 2 of [a, b, c], and the column becomes
    [b, c, a] with the orders 0, 1, 2. *)
Lemma same_column_reorder_witness :
  NoDup (id <$> Sample.abc) ∧
  "todo" ∈ COLUMNS ∧
  Board.column "todo" Sample.abc !! 0%nat = Some (Sample.task "a" "todo" (Some 0) 1) ∧
  ∃ updatedTasks,
    Board.handleDragEnd 99 Sample.abc Sample.abc (Sample.drag "a" "todo" 0 "todo" 2)
      = Board.Committed updatedTasks (Board.persist Sample.abc updatedTasks) ∧
    Board.columnIds "todo" updatedTasks = ["b"; "c"; "a"] ∧
    (∀ i u, Board.column "todo" updatedTasks !! i = Some u → order u = Some (Z.of_nat i)).
Proof.
  assert (NoDup (id <$> Sample.abc)) as Hnd by compute_done.
  assert ("todo" ∈ COLUMNS) as Hcol by compute_done.
  split_and!; [done..|].
  destruct (same_column_reorder 99 Sample.abc
              (Board.mkLocation "todo" 0) (Board.mkLocation "todo" 2)
              (Sample.task "a" "todo" (Some 0) 1))
    as (updatedTasks & Hrun & _ & _ & _ & _ & Hids & Horders & _ & _);
    [done|done|done|simpl; lia|done|].
  exists updatedTasks. split_and!; [exact Hrun|exact Hids|exact Horders].
Defined.

(** C2. On a board filtered by project the same-column branch moves
    another task than the dragged one.  The to-do column holds [a] (no
    project) and [b], [c] (project [p]), numbered 0, 1, 2; with the project
    filter at [p] the board shows [b, c], and [b] is dragged below [c]: the
    drop is reported from position 0 to position 1 of the column.  The
    handler takes the task at position 0 of the unfiltered column, which is
    the hidden [a], and puts it at position 1: it installs the orders
    [b -> 0], [a -> 1], calls the context for [a] and [b], and the board
    shows [b, c] as before.  The dragged task was to go from its position
    to the destination index: the column shown was to read [c, b]; and read
    on the unfiltered column [a, b, c], where [b] stands at index 1
    already, nothing was to change. *)
Lemma same_column_reorder_moves_another_task :
  let a := mkTask "a" "a" "todo" (Some 0) None None 1 1 None in
  let b := mkTask "b" "b" "todo" (Some 1) (Some "p") None 2 2 None in
  let c := mkTask "c" "c" "todo" (Some 2) (Some "p") None 3 3 None in
  let localTasks := [a; b; c] in
  let result := Sample.drag "b" "todo" 0 "todo" 1 in
  let o := Board.handleDragEnd 10 localTasks localTasks result in
  let shown tasks := tasksByStatus (BoardView.filteredTasks "p" tasks) in
  (∃ grouped, shown localTasks = Normal grouped ∧
              grouped !! "todo" = Some [b; c]) ∧
  Board.columnIds "todo" localTasks = ["a"; "b"; "c"] ∧
  (∃ updatedTasks,
     o = Board.Committed updatedTasks
           [CallUpdateTask "a" (Partial.ofOrder (Some 1));
            CallUpdateTask "b" (Partial.ofOrder (Some 0))] ∧
     Sample.summary updatedTasks =
       [("a", "todo", Some 1); ("b", "todo", Some 0); ("c", "todo", Some 2)] ∧
     Board.columnIds "todo" updatedTasks = ["b"; "a"; "c"] ∧
     ∃ grouped', shown updatedTasks = Normal grouped' ∧
                 id <$> default [] (grouped' !! "todo") = ["b"; "c"]) ∧
  Board.columnIds "todo" (Board.localAfter localTasks o) ≠ ["a"; "b"; "c"] ∧
  Board.columnIds "todo"
    (BoardView.filteredTasks "p" (Board.localAfter localTasks o)) ≠ ["c"; "b"].
Proof.
  intros a b c localTasks result o shown. split_and!.
  - eexists. split; by vm_compute.
  - by vm_compute.
  - eexists. split_and!; [by vm_compute..|]. eexists. split; by vm_compute.
  - by vm_compute.
  - by vm_compute.
Qed.

(** C5 (counterexample). For the id [missing-id] the handler does not
    fail: its outcome is not [Raised], and it is the very outcome of
    dropping the existing task [a] where it already is.  Nothing tells a
    caller that the task was not found. *)
Lemma unknown_task_is_not_reported :
  let missing := Board.handleDragEnd 0 Sample.abc Sample.abc
                   (Sample.drag "missing-id" "todo" 0 "done" 0) in
  let inPlace := Board.handleDragEnd 0 Sample.abc Sample.abc
                   (Sample.drag "a" "todo" 0 "todo" 0) in
  missing ≠ Board.Raised ∧ missing = inPlace.
Proof. by vm_compute. Qed.

(** C5 (amended) at [missing-id]. *)
Lemma unknown_task_returns_witness :
  (∀ t, t ∈ Sample.abc → id t ≠ "missing-id") ∧
  Board.handleDragEnd 0 Sample.abc Sample.abc
    (Sample.drag "missing-id" "todo" 0 "done" 0) = Board.Returned.
Proof.
  assert (∀ t, t ∈ Sample.abc → id t ≠ "missing-id") as Hmissing.
  { intros t Ht. unfold Sample.abc in Ht.
    rewrite !elem_of_cons, elem_of_nil in Ht.
    destruct Ht as [->|[->|[->|[]]]]; by vm_compute. }
  split; [done|].
  apply (unknown_task_returns 0 Sample.abc Sample.abc
           (Sample.drag "missing-id" "todo" 0 "done" 0) Hmissing).
Defined.

(** C6 at a drop on a droppable called [archive]. *)
Lemma invalid_destination_returns_witness :
("archive" ∉ COLUMNS) ∧
  Board.handleDragEnd 0 Sample.abc Sample.abc
    (Sample.drag "a" "todo" 0 "archive" 0) = Board.Returned.
Proof.
  assert ("archive" ∉ COLUMNS) as Hcol by compute_done.
  split; [done|].
  apply (invalid_destination_returns 0 Sample.abc Sample.abc
           (Sample.drag "a" "todo" 0 "archive" 0)
           (Board.mkLocation "archive" 0) eq_refl Hcol).
Defined.

(** C7 (counterexample). The done column holds one task; [a] is dropped
    on it at index 5.  The handler commits and gives [a] the order 5; with
    the index clamped to the length 1 of the column it would have given
    the order 1, as the drop at index 1 does. *)
Lemma destination_index_beyond_column :
  let beyond := Sample.dragged 10 Sample.ab (Sample.drag "a" "todo" 0 "done" 5) in
  let clamped := Sample.dragged 10 Sample.ab (Sample.drag "a" "todo" 0 "done" 1) in
  length (Board.column "done" Sample.ab) = 1%nat ∧
  Sample.summary beyond.1 = [("a", "done", Some 5); ("b", "done", Some 0)] ∧
  Sample.summary clamped.1 = [("a", "done", Some 1); ("b", "done", Some 0)] ∧
  beyond ≠ clamped.
Proof. by vm_compute. Qed.

(** C7 (amended) at that drop, and at the drop of [a] on its own column
    of three at the index 7, which is the drop at the index 3. *)
Lemma destination_index_not_clamped_witness :
  let result := Sample.drag "a" "todo" 0 "done" 5 in
  ("todo" ∈ COLUMNS ∧ "done" ∈ COLUMNS ∧ "todo" ≠ "done" ∧
   findIndexById "a" Sample.ab = Some 0%nat) ∧
  (∃ updatedTasks,
     Board.handleDragEnd 10 Sample.ab Sample.ab result =
       Board.Committed updatedTasks (Board.persist Sample.ab updatedTasks) ∧
     order <$> updatedTasks !! 0%nat = Some (Some 5) ∧
     updatedTasks !! 1%nat = Some (Sample.task "b" "done" (Some 0) 2)) ∧
  Board.handleDragEnd 10 Sample.abc Sample.abc (Sample.drag "a" "todo" 0 "todo" 7)
    ≠ Board.Raised ∧
  Board.handleDragEnd 10 Sample.abc Sample.abc (Sample.drag "a" "todo" 0 "todo" 7)
    = Board.handleDragEnd 10 Sample.abc Sample.abc (Sample.drag "a" "todo" 0 "todo" 3) ∧
  Board.columnIds "todo"
    (Board.localAfter Sample.abc
       (Board.handleDragEnd 10 Sample.abc Sample.abc (Sample.drag "a" "todo" 0 "todo" 7)))
    = ["b"; "c"; "a"].
Proof.
  assert ("todo" ∈ COLUMNS) as Hsrc by compute_done.
  assert ("done" ∈ COLUMNS) as Hdst by compute_done.
  assert ("todo" ≠ "done") as Hne by done.
  assert (NoDup (id <$> Sample.ab)) as Hnd by compute_done.
  split; [done|].
  destruct (proj2 (destination_index_not_clamped 10 Sample.ab Sample.ab
                     (Sample.drag "a" "todo" 0 "done" 5) (Board.mkLocation "done" 5)
                     eq_refl Hsrc Hdst)
              Hne 0%nat (Sample.task "a" "todo" (Some 0) 1) eq_refl eq_refl)
    as (updatedTasks & Hrun & Hmoved & Hrest).
  assert ((0 < length (Board.column "todo" Sample.abc))%nat) as Hposition
    by (vm_compute; lia).
  destruct (proj1 (destination_index_not_clamped 10 Sample.abc Sample.abc
                     (Sample.drag "a" "todo" 0 "todo" 7) (Board.mkLocation "todo" 7)
                     eq_refl Hsrc Hsrc)
              eq_refl Hposition) as [Hfine Hclamped].
  split_and!; [|exact Hfine|exact Hclamped|by vm_compute].
  exists updatedTasks. split_and!; [exact Hrun| |].
  - by rewrite Hmoved.
  - apply (Hrest Hnd eq_refl); [vm_compute; lia|done..].
Defined.

(** C8 (counterexample). A list with a task whose status is [archived]:
    the projection raises; it does not yield the columns without the
    task. *)
Lemma tasksByStatus_unknown_status_raises :
  status <$> Sample.withArchived !! 1%nat = Some "archived" ∧
  tasksByStatus Sample.withArchived = Thrown ∧
  ∀ grouped, tasksByStatus Sample.withArchived ≠ Normal grouped.
Proof. split_and!; [by vm_compute..|]. intros grouped. by vm_compute. Qed.

(** C8 (amended) at the two sample lists: five columns for the list with
    known statuses, a raise for the list with the archived task. *)
Lemma tasksByStatus_projection_witness :
  (∀ t, t ∈ Sample.ab → status t ∈ COLUMNS) ∧
  (∃ grouped, tasksByStatus Sample.ab = Normal grouped ∧
     grouped !! "todo" = Some [Sample.task "a" "todo" (Some 0) 1] ∧
     grouped !! "done" = Some [Sample.task "b" "done" (Some 0) 2] ∧
     grouped !! "backlog" = Some [] ∧
     grouped !! "archived" = None) ∧
  tasksByStatus Sample.withArchived = Thrown.
Proof.
  assert (∀ t, t ∈ Sample.ab → status t ∈ COLUMNS) as Hknown.
  { intros t Ht. unfold Sample.ab in Ht. rewrite !elem_of_cons, elem_of_nil in Ht.
    destruct Ht as [->|[->|[]]]; compute_done. }
  split_and!; [done| |].
  - destruct (tasksByStatus_projection Sample.ab) as [Hcolumns _].
    destruct (Hcolumns Hknown) as (grouped & Hrun & Hlook).
    exists grouped. split_and!; [done|by rewrite Hlook..].
  - destruct (tasksByStatus_projection Sample.withArchived) as [_ Hraise].
    apply (Hraise (Sample.task "z" "archived" None 2)).
    + unfold Sample.withArchived. set_solver.
    + unfold COLUMNS. rewrite !elem_of_cons, elem_of_nil. by intros [|[|[|[|[|[]]]]]].
Defined.

(** C10 at the three-task column: updating [b] leaves [a] and [c] as they
    were; updating an id that no task has writes the list back. *)
Lemma updateTask_frame_witness :
  AppContext.updateTask 7 (Some Sample.abc) "b" (Partial.ofOrder (Some 5))
    = Some [Sample.task "a" "todo" (Some 0) 1;
            mkTask "b" "b" "todo" (Some 5) None None 2 7 None;
            Sample.task "c" "todo" (Some 2) 3] ∧
  AppContext.updateTask 7 (Some Sample.abc) "missing-id" (Partial.ofOrder (Some 5))
    = Some Sample.abc.
Proof.
  split.
  - destruct (updateTask_frame 7 Sample.abc "b" (Partial.ofOrder (Some 5)))
      as (written & Hrun & Hlen & Hother & Hsame & _).
    rewrite Hrun. f_equal. apply list_eq. intros [|[|[|k]]].
    + by rewrite (Hother 0%nat (Sample.task "a" "todo" (Some 0) 1)).
    + by rewrite (Hsame 1%nat (Sample.task "b" "todo" (Some 1) 2)).
    + by rewrite (Hother 2%nat (Sample.task "c" "todo" (Some 2) 3)).
    + simpl. apply lookup_ge_None. rewrite Hlen. simpl. lia.
  - destruct (updateTask_frame 7 Sample.abc "missing-id" (Partial.ofOrder (Some 5)))
      as (written & Hrun & _ & _ & _ & _ & Habsent).
    rewrite Hrun, Habsent; [done|].
    intros t Ht. unfold Sample.abc in Ht. rewrite !elem_of_cons, elem_of_nil in Ht.
    destruct Ht as [->|[->|[->|[]]]]; by vm_compute.
Defined.

(** * Further properties of the board and of the store *)

(** ** What a drag leaves alone *)

Lemma fmap_eq_lookup {A B} (f : A → B) (l1 l2 : list A) (k : nat) (x : A) :
  f <$> l1 = f <$> l2 → l1 !! k = Some x → ∃ y, l2 !! k = Some y ∧ f x = f y.
Proof.
  intros Heq Hx.
  assert ((f <$> l2) !! k = Some (f x)) as Hy
    by (by rewrite <-Heq, list_lookup_fmap, Hx).
  rewrite list_lookup_fmap in Hy.
  destruct (l2 !! k) as [y|]; simplify_eq/=. eauto.
Qed.

Lemma persist_calls currentProfileTasks updatedTasks c :
  c ∈ Board.persist currentProfileTasks updatedTasks →
  ∃ t, t ∈ updatedTasks ∧
       (c = CallUpdateTaskStatus (id t) (status t) ∨
        c = CallUpdateTask (id t) (Partial.ofOrder (order t))).
Proof.
  unfold Board.persist. rewrite list_elem_of_bind.
  intros (t & Hc & Ht). exists t. split; [done|].
  unfold Board.persistOne in Hc.
  destruct (findById _ _); [|by apply elem_of_nil in Hc].
  repeat case_bool_decide;
    rewrite ?elem_of_cons, ?elem_of_nil in Hc;
    repeat (destruct Hc as [Hc|Hc]); subst; auto; done.
Qed.

(** X4. Whenever the handler commits, the local list it installs has the
    tasks of the old one place by place: no task is added, removed or
    moved in the list, and id, title, project, today flag, creation time
    and completion time of every task are as they were; only the dragged
    task may change its status.  Every call on the context is a status
    call or an order call for a task of the new list, carrying that task's
    status or order. *)
Theorem drag_touches_status_and_order_only
    now currentProfileTasks localTasks result updatedTasks calls :
  Board.handleDragEnd now currentProfileTasks localTasks result
    = Board.Committed updatedTasks calls →
  length updatedTasks = length localTasks ∧
  (∀ k t', updatedTasks !! k = Some t' →
     ∃ t, localTasks !! k = Some t ∧
          BoardView.untouched t' = BoardView.untouched t ∧
          (id t ≠ Board.draggableId result → status t' = status t)) ∧
  (∀ c, c ∈ calls →
     ∃ t, t ∈ updatedTasks ∧
          (c = CallUpdateTaskStatus (id t) (status t) ∨
           c = CallUpdateTask (id t) (Partial.ofOrder (order t)))).
Proof.
  unfold Board.handleDragEnd.
  destruct (Board.destination result) as [dest|]; [|done].
  destruct (_ && _); [done|].
  destruct (findById _ _) as [found|]; [|done].
  destruct (_ || _); [done|].
  destruct (findIndexById _ _) as [k|] eqn:Hk; [|done].
  assert (∀ upd,
    BoardView.untouched <$> upd = BoardView.untouched <$> localTasks →
    (∀ j t t', localTasks !! j = Some t → upd !! j = Some t' →
               id t ≠ Board.draggableId result → status t' = status t) →
    length upd = length localTasks ∧
    (∀ j t', upd !! j = Some t' →
       ∃ t, localTasks !! j = Some t ∧
            BoardView.untouched t' = BoardView.untouched t ∧
            (id t ≠ Board.draggableId result → status t' = status t))) as Hframe.
  { intros upd Hf Hst. split.
    - by rewrite <-(length_fmap BoardView.untouched), Hf, length_fmap.
    - intros j t' Ht'.
      destruct (fmap_eq_lookup _ _ _ _ _ Hf Ht') as (t & Ht & Heq). eauto. }
  case_bool_decide.
  - intros [= <- <-].
    destruct (Hframe (Board.crossColumn now (Board.draggableId result) k
                        (Board.source result) dest localTasks)) as [Hlen Hall].
    + by apply crossColumn_fmap.
    + intros j t t' Ht Ht' Hid.
      apply findIndexById_Some in Hk as (t0 & Hk & Hid0).
      assert (j ≠ k) as Hjk by (intros ->; congruence).
      unfold Board.crossColumn in Ht'.
      assert (status <$> Some t' = status <$> localTasks !! j) as Hs.
      { rewrite <-Ht', <-list_lookup_fmap, !assignOrders_fmap by done.
        by rewrite list_lookup_fmap, list_lookup_alter_ne. }
      rewrite Ht in Hs. by simplify_eq/=.
    + split_and!; [done..|]. apply persist_calls.
  - unfold Board.sameColumn, spliceOut. destruct (_ !! _) as [movedTask|]; [|done].
    intros [= <- <-].
    destruct (Hframe (Board.assignOrders now true (λ i, i) 0
                        (spliceIn (Board.index dest) movedTask
                           (delete (Board.index (Board.source result))
                              (Board.column (Board.droppableId (Board.source result))
                                 localTasks))) localTasks)) as [Hlen Hall].
    + by apply assignOrders_fmap.
    + intros j t1 t' Ht Ht' _.
      assert (status <$> Some t' = status <$> localTasks !! j) as Hs.
      { by rewrite <-Ht', <-!list_lookup_fmap, assignOrders_fmap. }
      rewrite Ht in Hs. by simplify_eq/=.
    + split_and!; [done..|]. apply persist_calls.
Qed.

(** X4 at the drop of [a] from to-do onto the done column of the two-task
    board. *)
Lemma drag_touches_status_and_order_only_witness :
  let result := Sample.drag "a" "todo" 0 "done" 0 in
  let o := Board.handleDragEnd 10 Sample.ab Sample.ab result in
  let updatedTasks := Board.localAfter Sample.ab o in
  o = Board.Committed updatedTasks (Board.callsOf o) ∧
  length updatedTasks = length Sample.ab ∧
  (∀ k t', updatedTasks !! k = Some t' →
     ∃ t, Sample.ab !! k = Some t ∧
          BoardView.untouched t' = BoardView.untouched t ∧
          (id t ≠ "a" → status t' = status t)) ∧
  (∀ c, c ∈ Board.callsOf o → ∃ t, t ∈ updatedTasks ∧
          (c = CallUpdateTaskStatus (id t) (status t) ∨
           c = CallUpdateTask (id t) (Partial.ofOrder (order t)))).
Proof.
  intros result o updatedTasks.
  assert (o = Board.Committed updatedTasks (Board.callsOf o)) as Hrun
    by (vm_compute; reflexivity).
  split; [exact Hrun|].
  exact (drag_touches_status_and_order_only 10 Sample.ab Sample.ab result
           updatedTasks (Board.callsOf o) Hrun).
Defined.

(** ** When the handler raises *)

(** X5. The handler raises in one situation only: a same-column drop, not
    in place, of an existing task between lifecycle columns, whose source
    index lies past the end of the column (then [movedTask] is undefined).
    In particular it never raises for a drag that starts where the board
    shows a task. *)
Theorem drag_raises_only_past_the_column now currentProfileTasks localTasks result :
  (Board.handleDragEnd now currentProfileTasks localTasks result = Board.Raised ↔
   ∃ dest,
     Board.destination result = Some dest ∧
     Board.droppableId dest = Board.droppableId (Board.source result) ∧
     Board.index dest ≠ Board.index (Board.source result) ∧
     Board.droppableId dest ∈ COLUMNS ∧
     (∃ t, t ∈ localTasks ∧ id t = Board.draggableId result) ∧
     (length (Board.column (Board.droppableId (Board.source result)) localTasks)
        ≤ Board.index (Board.source result))%nat) ∧
  (∀ taskId, Board.shownAt localTasks taskId (Board.source result) →
     Board.handleDragEnd now currentProfileTasks localTasks result ≠ Board.Raised).
Proof.
  assert (Board.handleDragEnd now currentProfileTasks localTasks result = Board.Raised ↔
   ∃ dest,
     Board.destination result = Some dest ∧
     Board.droppableId dest = Board.droppableId (Board.source result) ∧
     Board.index dest ≠ Board.index (Board.source result) ∧
     Board.droppableId dest ∈ COLUMNS ∧
     (∃ t, t ∈ localTasks ∧ id t = Board.draggableId result) ∧
     (length (Board.column (Board.droppableId (Board.source result)) localTasks)
        ≤ Board.index (Board.source result))%nat) as Hiff.
  { unfold Board.handleDragEnd. split.
    - destruct (Board.destination result) as [dest|]; [|done].
      destruct (_ && _) eqn:Hplace; [done|].
      destruct (findById _ _) as [found|] eqn:Hfound; [|done].
      destruct (_ || _) eqn:Hcols; [done|].
      destruct (findIndexById _ _) as [k|]; [|done].
      destruct (bool_decide (Board.droppableId (Board.source result) ≠ _))
        eqn:Hsame; [done|].
      apply bool_decide_eq_false, dec_stable in Hsame.
      unfold Board.sameColumn, spliceOut.
      destruct (_ !! _) as [movedTask|] eqn:Hmoved; [done|]. intros _.
      apply orb_false_iff in Hcols as [_ Hdest%negb_false_iff%bool_decide_eq_true].
      apply andb_false_iff in Hplace as [Hp|Hp]; apply bool_decide_eq_false in Hp;
        [congruence|].
      exists dest. split_and!; [done..| |by apply lookup_ge_None].
      apply findById_Some in Hfound. eauto.
    - intros (dest & -> & Hsame & Hidx & Hcol & (t & Ht & Hid) & Hlen).
      rewrite (bool_decide_eq_false_2 (Board.index dest = _)) by done.
      rewrite andb_false_r.
      destruct (list_find_elem_of (λ task, id task = Board.draggableId result)
                  localTasks t Ht Hid) as [[k t'] Hfind].
      unfold findById, findIndexById, isColumn. rewrite Hfind. simpl.
      rewrite <-Hsame, !bool_decide_eq_true_2 by done. simpl.
      rewrite bool_decide_eq_false_2 by (intros ?; done).
      unfold Board.sameColumn, spliceOut. rewrite <-Hsame in Hlen |- *.
      by rewrite (proj2 (lookup_ge_None _ _) Hlen). }
  split; [exact Hiff|].
  intros taskId (t & Ht & _) (dest & _ & _ & _ & _ & _ & Hlen)%Hiff.
  apply lookup_lt_Some in Ht. lia.
Qed.

(** X5 at the three-task column: a drag reported from the position 7,
    past the end of the column, raises; the drag of [a] from the position
    0, where the board shows it, does not. *)
Lemma drag_raises_only_past_the_column_witness :
  Board.handleDragEnd 10 Sample.abc Sample.abc (Sample.drag "a" "todo" 7 "todo" 0)
    = Board.Raised ∧
  Board.shownAt Sample.abc "a" (Board.mkLocation "todo" 0) ∧
  Board.handleDragEnd 10 Sample.abc Sample.abc (Sample.drag "a" "todo" 0 "todo" 2)
    ≠ Board.Raised.
Proof.
  assert (Board.shownAt Sample.abc "a" (Board.mkLocation "todo" 0)) as Hshown
    by (exists (Sample.task "a" "todo" (Some 0) 1); by vm_compute).
  split_and!; [|exact Hshown|].
  - apply (drag_raises_only_past_the_column 10 Sample.abc Sample.abc
             (Sample.drag "a" "todo" 7 "todo" 0)).
    exists (Board.mkLocation "todo" 0).
    split_and!; [done|done|done|compute_done| |vm_compute; lia].
    exists (Sample.task "a" "todo" (Some 0) 1). split; [compute_done|done].
  - exact (proj2 (drag_raises_only_past_the_column 10 Sample.abc Sample.abc
                    (Sample.drag "a" "todo" 0 "todo" 2)) "a" Hshown).
Defined.

(** ** The effect that keeps the local list in step with the context *)

Lemma someMissing_false (a b : gset string) :
  BoardView.someMissing a b = false ↔ a ⊆ b.
Proof.
  unfold BoardView.someMissing. rewrite <-not_true_iff_false, existsb_exists. split.
  - intros Hnone taskId Hin. destruct (decide (taskId ∈ b)) as [|Hout]; [done|].
    destruct Hnone. exists taskId. split.
    + by apply list_elem_of_In, elem_of_elements.
    + by rewrite bool_decide_eq_false_2.
  - intros Hsub (taskId & Hin%list_elem_of_In%elem_of_elements & Hout).
    apply negb_true_iff, bool_decide_eq_false in Hout. by apply Hout, Hsub.
Qed.

Lemma syncLocalTasks_in_step currentProfileTasks st :
  BoardView.lastTaskCount st = length currentProfileTasks →
  BoardView.idSet (BoardView.localTasks st) = BoardView.idSet currentProfileTasks →
  BoardView.syncLocalTasks currentProfileTasks st = st.
Proof.
  intros Hcount Hids. unfold BoardView.syncLocalTasks.
  rewrite bool_decide_eq_false_2 by (intros Hne; by apply Hne).
  rewrite Hids.
  by rewrite (proj2 (someMissing_false _ _)) by done.
Qed.

Lemma syncLocalTasks_cases currentProfileTasks st :
  BoardView.syncLocalTasks currentProfileTasks st
    = BoardView.mkLocal currentProfileTasks (length currentProfileTasks) ∨
  (BoardView.syncLocalTasks currentProfileTasks st = st ∧
   BoardView.lastTaskCount st = length currentProfileTasks ∧
   BoardView.idSet (BoardView.localTasks st) = BoardView.idSet currentProfileTasks).
Proof.
  unfold BoardView.syncLocalTasks.
  case_bool_decide as Hcount; [by left|].
  destruct (BoardView.someMissing (BoardView.idSet (BoardView.localTasks st)) _)
    eqn:Hmissing; [by left|].
  destruct (BoardView.someMissing (BoardView.idSet currentProfileTasks) _)
    eqn:Hnew; [by left|].
  right. apply someMissing_false in Hmissing, Hnew.
  split_and!; [done..|]. by apply (anti_symm (⊆)).
Qed.

(** X6. One run of the effect brings the local list in step with the
    context: afterwards the recorded count is the context's and both lists
    hold the same task ids; the local list is either the context's list or
    the list it was; and a second run against the same context changes
    nothing. *)
Theorem syncLocalTasks_settles currentProfileTasks st :
  let st' := BoardView.syncLocalTasks currentProfileTasks st in
  BoardView.lastTaskCount st' = length currentProfileTasks ∧
  BoardView.idSet (BoardView.localTasks st') = BoardView.idSet currentProfileTasks ∧
  (BoardView.localTasks st' = currentProfileTasks ∨ st' = st) ∧
  BoardView.syncLocalTasks currentProfileTasks st' = st'.
Proof.
  intros st'.
  assert (BoardView.lastTaskCount st' = length currentProfileTasks ∧
          BoardView.idSet (BoardView.localTasks st')
            = BoardView.idSet currentProfileTasks) as [Hcount Hids].
  { subst st'.
    destruct (syncLocalTasks_cases currentProfileTasks st)
      as [->|(-> & Hcount & Hids)]; done. }
  split_and!; [done..| |by apply syncLocalTasks_in_step].
  subst st'.
  destruct (syncLocalTasks_cases currentProfileTasks st) as [->|(-> & _)];
    [by left|by right].
Qed.

Lemma id_merge now updates t :
  Partial.id updates = None → id (AppContext.merge now updates t) = id t.
Proof. intros Hid. unfold AppContext.merge. rewrite Hid. by destruct (_ && _). Qed.

Lemma runCall_status_ids now tasks taskId s :
  id <$> runCall now tasks (CallUpdateTaskStatus taskId s) = id <$> tasks.
Proof.
  simpl. unfold AppContext.newTasks. rewrite <-list_fmap_compose.
  apply list_fmap_ext. intros k t _. simpl.
  case_bool_decide; [by apply id_merge|done].
Qed.

Lemma runCall_order_ids now tasks taskId o :
  id <$> runCall now tasks (CallUpdateTask taskId (Partial.ofOrder o)) = id <$> tasks.
Proof.
  simpl. unfold AppContext.newTasks. rewrite <-list_fmap_compose.
  apply list_fmap_ext. intros k t _. simpl.
  case_bool_decide; [by apply id_merge|done].
Qed.

Lemma runCalls_handler_ids now currentProfileTasks updatedTasks calls tasks :
  calls ⊆ Board.persist currentProfileTasks updatedTasks →
  id <$> runCalls now calls tasks = id <$> tasks.
Proof.
  intros Hsub. unfold runCalls. revert tasks.
  induction calls as [|c calls IH]; intros tasks; [done|]. simpl.
  rewrite IH by (intros c' Hc'; apply Hsub; by right).
  destruct (persist_calls currentProfileTasks updatedTasks c) as (t & _ & [->| ->]).
  { apply Hsub. by left. }
  - apply runCall_status_ids.
  - apply runCall_order_ids.
Qed.

Lemma idSet_fmap tasks tasks' :
  id <$> tasks = id <$> tasks' → BoardView.idSet tasks = BoardView.idSet tasks'.
Proof. unfold BoardView.idSet. by intros ->. Qed.

Lemma handleDragEnd_ids now currentProfileTasks localTasks result updatedTasks calls :
  Board.handleDragEnd now currentProfileTasks localTasks result
    = Board.Committed updatedTasks calls →
  id <$> updatedTasks = id <$> localTasks ∧
  calls = Board.persist currentProfileTasks updatedTasks.
Proof.
  unfold Board.handleDragEnd.
  destruct (Board.destination result) as [dest|]; [|done].
  destruct (_ && _); [done|].
  destruct (findById _ _) as [found|]; [|done].
  destruct (_ || _); [done|].
  destruct (findIndexById _ _) as [k|]; [|done].
  destruct (bool_decide (Board.droppableId (Board.source result) ≠ _)).
  - intros [= <- <-]. split; [|done]. by apply crossColumn_fmap.
  - unfold Board.sameColumn, spliceOut.
    destruct (_ !! _) as [movedTask|]; [|done].
    intros [= <- <-]. split; [|done]. apply assignOrders_ids.
Qed.

(** X7. A committed drag is not undone by the effect.  When the local
    list and the context were in step (same count, same ids), then after
    the handler has installed the reordered local list, and whichever of
    its calls have reached the context, the effect leaves the reordered
    list in place: the calls change neither the number of tasks nor their
    ids. *)
Theorem drag_survives_sync
    now now' currentProfileTasks st result updatedTasks calls reached :
  BoardView.lastTaskCount st = length currentProfileTasks →
  BoardView.idSet (BoardView.localTasks st) = BoardView.idSet currentProfileTasks →
  Board.handleDragEnd now currentProfileTasks (BoardView.localTasks st) result
    = Board.Committed updatedTasks calls →
  reached ⊆ calls →
  let st' := BoardView.mkLocal updatedTasks (BoardView.lastTaskCount st) in
  BoardView.syncLocalTasks (runCalls now' reached currentProfileTasks) st' = st'.
Proof.
  intros Hcount Hids Hrun Hreached st'.
  apply handleDragEnd_ids in Hrun as [Hlocal ->].
  pose proof (runCalls_handler_ids now' currentProfileTasks updatedTasks reached
                currentProfileTasks Hreached) as Hstore.
  apply syncLocalTasks_in_step; simpl.
  - rewrite Hcount, <-(length_fmap id (runCalls _ _ _)), Hstore.
    by rewrite length_fmap.
  - rewrite (idSet_fmap _ _ Hlocal), (idSet_fmap _ _ Hstore). exact Hids.
Qed.

(** X7 at the drop of [a] on the done column of the two-task board, with
    both of its calls arrived. *)
Lemma drag_survives_sync_witness :
  let result := Sample.drag "a" "todo" 0 "done" 0 in
  let o := Board.handleDragEnd 10 Sample.ab Sample.ab result in
  let st' := BoardView.mkLocal (Board.localAfter Sample.ab o) 2 in
  Board.callsOf o =
    [CallUpdateTaskStatus "a" "done";
     CallUpdateTask "b" (Partial.ofOrder (Some 1))] ∧
  BoardView.syncLocalTasks (runCalls 11 (Board.callsOf o) Sample.ab) st' = st'.
Proof.
  intros result o st'.
  assert (o = Board.Committed (Board.localAfter Sample.ab o) (Board.callsOf o))
    as Hrun by (vm_compute; reflexivity).
  split; [by vm_compute|].
  exact (drag_survives_sync 10 11 Sample.ab (BoardView.mkLocal Sample.ab 2) result
           (Board.localAfter Sample.ab o) (Board.callsOf o) (Board.callsOf o)
           eq_refl eq_refl Hrun (λ c Hc, Hc)).
Defined.

(** ** Completion stamps *)

(** X9. A card dragged into the done column from another column, for a
    task that the context does not hold as done: the handler commits; the
    local copy of the task gets the status done and keeps the
    [completedAt] it had, the handler stamping none; a status call for the
    task is among the calls made; and the task list which that call
    computes from the context's task list holds the task with the status
    done and with the clock reading as [completedAt]. *)
Theorem drag_into_done_stamps_context_only
    now now' currentProfileTasks localTasks result dest k t j original :
  Board.destination result = Some dest →
  Board.droppableId dest = "done" →
  Board.droppableId (Board.source result) ∈ COLUMNS →
  Board.droppableId (Board.source result) ≠ "done" →
  list_find (λ task, id task = Board.draggableId result) localTasks = Some (k, t) →
  list_find (λ task, id task = Board.draggableId result) currentProfileTasks
    = Some (j, original) →
  status original ≠ "done" →
  ∃ updatedTasks calls moved stored,
    Board.handleDragEnd now currentProfileTasks localTasks result
      = Board.Committed updatedTasks calls ∧
    updatedTasks !! k = Some moved ∧
    status moved = "done" ∧ completedAt moved = completedAt t ∧
    CallUpdateTaskStatus (Board.draggableId result) "done" ∈ calls ∧
    runCall now' currentProfileTasks
      (CallUpdateTaskStatus (Board.draggableId result) "done") !! j = Some stored ∧
    status stored = "done" ∧ completedAt stored = Some now'.
Proof.
  intros Hdest Hdone Hsrc Hne Hlocal Hcontext Hopen.
  pose proof Hlocal as (Hk & Hid & _)%list_find_Some.
  pose proof Hcontext as (Hj & Hid' & _)%list_find_Some.
  set (updatedTasks := Board.crossColumn now (Board.draggableId result) k
                         (Board.source result) dest localTasks).
  assert (updatedTasks !! k = Some (Board.moveTo now "done" (Board.index dest) t))
    as Hmoved.
  { subst updatedTasks. rewrite <-Hdone. by apply crossColumn_moved. }
  exists updatedTasks, (Board.persist currentProfileTasks updatedTasks),
    (Board.moveTo now "done" (Board.index dest) t),
    (AppContext.merge now' (Partial.ofStatus "done") original).
  split_and!; [|done..| | | |].
  - unfold Board.handleDragEnd. rewrite Hdest.
    rewrite (bool_decide_eq_false_2 (Board.droppableId dest = _)) by congruence.
    unfold findById, findIndexById, isColumn. rewrite Hlocal. simpl.
    rewrite Hdone, !bool_decide_eq_true_2; [done|congruence|compute_done|done].
  - unfold Board.persist. apply list_elem_of_bind.
    exists (Board.moveTo now "done" (Board.index dest) t).
    split; [|by eapply list_elem_of_lookup_2].
    unfold Board.persistOne, findById. simpl. rewrite Hid, Hcontext. simpl.
    rewrite bool_decide_eq_true_2 by done. by left.
  - simpl. rewrite newTasks_lookup, Hj. simpl.
    by rewrite bool_decide_eq_true_2.
  - unfold AppContext.merge. simpl. by destruct (bool_decide (status original ≠ _)).
  - unfold AppContext.merge. simpl. by rewrite bool_decide_eq_true_2.
Qed.

(** X9 at the drop of [a] from to-do onto the done column of the two-task
    board, at the clock readings 10 (handler) and 11 (context). *)
Lemma drag_into_done_stamps_context_only_witness :
  ∃ updatedTasks calls moved stored,
    Board.handleDragEnd 10 Sample.ab Sample.ab (Sample.drag "a" "todo" 0 "done" 0)
      = Board.Committed updatedTasks calls ∧
    updatedTasks !! 0%nat = Some moved ∧
    status moved = "done" ∧ completedAt moved = None ∧
    CallUpdateTaskStatus "a" "done" ∈ calls ∧
    runCall 11 Sample.ab (CallUpdateTaskStatus "a" "done") !! 0%nat = Some stored ∧
    status stored = "done" ∧ completedAt stored = Some 11.
Proof.
  assert ("todo" ∈ COLUMNS) as Hsrc by compute_done.
  assert ("todo" ≠ "done") as Hne by done.
  assert (status (Sample.task "a" "todo" (Some 0) 1) ≠ "done") as Hopen by done.
  exact (drag_into_done_stamps_context_only 10 11 Sample.ab Sample.ab
           (Sample.drag "a" "todo" 0 "done" 0) (Board.mkLocation "done" 0)
           0 (Sample.task "a" "todo" (Some 0) 1)
           0 (Sample.task "a" "todo" (Some 0) 1)
           eq_refl eq_refl Hsrc Hne eq_refl eq_refl Hopen).
Defined.

(** ** The columns the board shows *)

Section stability.
Context {A : Type} (compareFn : A → A → Z).
Context (P : A → Prop) `{!∀ x, Decision (P x)}.
Context (tie : ∀ a b, P a → P b → compareFn a b ≤ 0).

Lemma filter_sortInsert x l :
  filter P (sortInsert compareFn x l) = filter P (x :: l).
Proof using tie.
  induction l as [|y l IH]; [done|]. simpl.
  case_bool_decide as Hle; [done|].
  rewrite filter_cons, IH, !filter_cons.
  destruct (decide (P y)) as [Hy|Hy]; [|done].
  destruct (decide (P x)) as [Hx|Hx]; [|done].
  destruct Hle. by apply tie.
Qed.

Lemma filter_sort l : filter P (sort compareFn l) = filter P l.
Proof using tie.
  induction l as [|x l IH]; [done|]. unfold sort in *. simpl.
  by rewrite filter_sortInsert, !filter_cons, IH.
Qed.

End stability.

Lemma StronglySorted_lookup_lt {A} (R : relation A) (l : list A) i j a b :
  StronglySorted R l → (i < j)%nat → l !! i = Some a → l !! j = Some b → R a b.
Proof.
  intros Hl. revert i j. induction Hl as [|x l Hl IH Hx]; intros i j Hij Hi Hj.
  { done. }
  destruct j as [|j]; [lia|]. destruct i as [|i]; simplify_eq/=.
  - rewrite Forall_forall in Hx. by eapply Hx, list_elem_of_lookup_2.
  - apply (IH i j); [lia|done..].
Qed.

Lemma pushAll_inv tasks grouped grouped' :
  pushAll tasks grouped = Normal grouped' →
  ∀ s, grouped' !! s =
       (λ col, col ++ filter (λ t, status t = s) tasks) <$> grouped !! s.
Proof.
  revert grouped. induction tasks as [|task tasks IH]; intros grouped; simpl.
  - intros [= <-] s. destruct (grouped !! s); simpl; [|done]. by rewrite app_nil_r.
  - destruct (grouped !! status task) as [col|] eqn:Hcol; [|done].
    intros Hrun s. rewrite (IH _ Hrun s).
    destruct (decide (status task = s)) as [<-|Hne].
    + rewrite lookup_insert_eq, Hcol. simpl.
      rewrite filter_cons_True by done. by rewrite <-app_assoc.
    + rewrite lookup_insert_ne by done. by rewrite filter_cons_False by done.
Qed.

Lemma tasksByStatus_inv filteredTasks grouped s col :
  tasksByStatus filteredTasks = Normal grouped → grouped !! s = Some col →
  s ∈ COLUMNS ∧ col = Board.column s filteredTasks.
Proof.
  unfold tasksByStatus.
  destruct (pushAll filteredTasks emptyGrouped) as [pushed|] eqn:Hpush; [|done].
  intros [= <-]. rewrite lookup_fmap, (pushAll_inv _ _ _ Hpush s), emptyGrouped_lookup.
  unfold isColumn. case_bool_decide; [|done]. by intros [= <-].
Qed.

(** X8. Every column that [tasksByStatus] yields holds the tasks of its
    status, each as often as the list has it; it ascends by order (an
    absent order counting as [MAX_SAFE_INTEGER]) and, among equal orders,
    by creation time; and tasks that tie in both keep the sequence they
    have in the list. *)
Theorem tasksByStatus_columns_sorted filteredTasks grouped s col :
  tasksByStatus filteredTasks = Normal grouped →
  grouped !! s = Some col →
  col ≡ₚ filter (λ t, status t = s) filteredTasks ∧
  (∀ i j a b, (i < j)%nat → col !! i = Some a → col !! j = Some b →
     default MAX_SAFE_INTEGER (order a) < default MAX_SAFE_INTEGER (order b) ∨
     (default MAX_SAFE_INTEGER (order a) = default MAX_SAFE_INTEGER (order b) ∧
      createdAt a ≤ createdAt b)) ∧
  (∀ o created,
     filter (λ t, default MAX_SAFE_INTEGER (order t) = o ∧ createdAt t = created) col
     = filter (λ t, default MAX_SAFE_INTEGER (order t) = o ∧ createdAt t = created)
         (filter (λ t, status t = s) filteredTasks)).
Proof.
  intros Hrun Hcol.
  destruct (tasksByStatus_inv _ _ _ _ Hrun Hcol) as [_ ->].
  split_and!.
  - apply column_Permutation.
  - intros i j a b Hij Hi Hj. apply compareTasks_le.
    eapply StronglySorted_lookup_lt; [apply sort_StronglySorted; apply _|done..].
  - intros o created. unfold Board.column. apply filter_sort.
    intros a b [Ha Ha'] [Hb Hb']. apply compareTasks_le. lia.
Qed.

(** X8 at the to-do column of the board of three tasks without an order:
    [x] and [y], in the sequence of their creation. *)
Lemma tasksByStatus_columns_sorted_witness :
  ∃ grouped col,
    tasksByStatus Sample.fresh = Normal grouped ∧
    grouped !! "todo" = Some col ∧
    id <$> col = ["x"; "y"] ∧
    col ≡ₚ filter (λ t, status t = "todo") Sample.fresh ∧
    (∀ i j a b, (i < j)%nat → col !! i = Some a → col !! j = Some b →
       default MAX_SAFE_INTEGER (order a) < default MAX_SAFE_INTEGER (order b) ∨
       (default MAX_SAFE_INTEGER (order a) = default MAX_SAFE_INTEGER (order b) ∧
        createdAt a ≤ createdAt b)).
Proof.
  set (grouped := match tasksByStatus Sample.fresh with
                  | Normal grouped => grouped
                  | Thrown => ∅
                  end).
  assert (tasksByStatus Sample.fresh = Normal grouped) as Hrun
    by (vm_compute; reflexivity).
  assert (grouped !! "todo" = Some (Board.column "todo" Sample.fresh)) as Hcol
    by (vm_compute; reflexivity).
  exists grouped, (Board.column "todo" Sample.fresh).
  destruct (tasksByStatus_columns_sorted Sample.fresh grouped "todo"
              (Board.column "todo" Sample.fresh) Hrun Hcol) as (Hperm & Hsorted & _).
  split_and!; [exact Hrun|exact Hcol|by vm_compute|exact Hperm|exact Hsorted].
Defined.

(** ** The board after a drag *)

Lemma tasksByStatus_known tasks :
  (∀ t, t ∈ tasks → status t ∈ COLUMNS) →
  ∃ grouped, tasksByStatus tasks = Normal grouped ∧
    ∀ s, grouped !! s = if isColumn s then Some (Board.column s tasks) else None.
Proof.
  intros Hknown.
  destruct (pushAll_Normal tasks emptyGrouped) as (g & Hg & Hlook).
  { intros t Ht. rewrite emptyGrouped_lookup. unfold isColumn.
    rewrite bool_decide_eq_true_2; [done|]. by apply Hknown. }
  exists (sort compareTasks <$> g). unfold tasksByStatus. rewrite Hg.
  split; [done|]. intros s.
  rewrite lookup_fmap, Hlook, emptyGrouped_lookup.
  by destruct (isColumn s).
Qed.

Lemma tasksByStatus_statuses tasks grouped :
  tasksByStatus tasks = Normal grouped → ∀ t, t ∈ tasks → status t ∈ COLUMNS.
Proof.
  intros Hrun t Ht. destruct (decide (status t ∈ COLUMNS)) as [|Hout]; [done|].
  unfold tasksByStatus in Hrun. rewrite (pushAll_Thrown _ _ t) in Hrun; [done..|].
  rewrite emptyGrouped_lookup. unfold isColumn. by rewrite bool_decide_eq_false_2.
Qed.

Lemma committed_statuses now currentProfileTasks localTasks result updatedTasks calls :
  Board.handleDragEnd now currentProfileTasks localTasks result
    = Board.Committed updatedTasks calls →
  (∀ t, t ∈ localTasks → status t ∈ COLUMNS) →
  ∀ t', t' ∈ updatedTasks → status t' ∈ COLUMNS.
Proof.
  unfold Board.handleDragEnd.
  destruct (Board.destination result) as [dest|]; [|done].
  destruct (_ && _); [done|].
  destruct (findById _ _) as [found|]; [|done].
  destruct (_ || _) eqn:Hcols; [done|].
  apply orb_false_iff in Hcols as [_ Hdest%negb_false_iff%bool_decide_eq_true].
  destruct (findIndexById _ _) as [k|]; [|done].
  assert (∀ (upd l : list Task) t', status <$> upd = status <$> l →
            (∀ t, t ∈ l → status t ∈ COLUMNS) → t' ∈ upd → status t' ∈ COLUMNS)
    as Hcarry.
  { intros upd l t' Heq Hl [j Hj]%list_elem_of_lookup.
    destruct (fmap_eq_lookup _ _ _ _ _ Heq Hj) as (t & Ht & ->).
    by eapply Hl, list_elem_of_lookup_2. }
  destruct (bool_decide (Board.droppableId (Board.source result) ≠ _)).
  - intros [= <- <-] Hknown t'. unfold Board.crossColumn.
    apply Hcarry with (l := alter (Board.moveTo now (Board.droppableId dest)
                                     (Board.index dest)) k localTasks).
    + by rewrite !assignOrders_statuses.
    + intros t [j Hj]%list_elem_of_lookup.
      destruct (decide (j = k)) as [->|Hjk].
      * rewrite list_lookup_alter_eq in Hj.
        destruct (localTasks !! k); by simplify_eq/=.
      * rewrite list_lookup_alter_ne in Hj by done.
        by eapply Hknown, list_elem_of_lookup_2.
  - unfold Board.sameColumn, spliceOut. destruct (_ !! _) as [movedTask|]; [|done].
    intros [= <- <-] Hknown t'. apply Hcarry with (l := localTasks); [|done].
    by rewrite assignOrders_statuses.
Qed.

(** X3. A drag keeps the board renderable: when the projection yields
    columns for the local list, it yields columns for the list that a
    committed drag installs, the same five, and none of them raises. *)
Theorem drag_keeps_board_renderable
    now currentProfileTasks localTasks result updatedTasks calls grouped :
  tasksByStatus localTasks = Normal grouped →
  Board.handleDragEnd now currentProfileTasks localTasks result
    = Board.Committed updatedTasks calls →
  ∃ grouped',
    tasksByStatus updatedTasks = Normal grouped' ∧
    dom grouped' = dom grouped ∧
    ∀ s, s ∈ COLUMNS → grouped' !! s = Some (Board.column s updatedTasks).
Proof.
  intros Hshown Hrun.
  pose proof (tasksByStatus_statuses _ _ Hshown) as Hknown.
  destruct (tasksByStatus_known localTasks Hknown) as (g & Hg & Hlook).
  assert (g = grouped) as -> by congruence.
  destruct (tasksByStatus_known updatedTasks) as (g' & Hg' & Hlook').
  { by eapply committed_statuses. }
  exists g'. split_and!; [done| |].
  - apply set_eq. intros s. rewrite !elem_of_dom, Hlook, Hlook'.
    by destruct (isColumn s).
  - intros s Hs. rewrite Hlook'. unfold isColumn.
    by rewrite bool_decide_eq_true_2.
Qed.

(** X3 at the drop of [a] on the done column of the two-task board. *)
Lemma drag_keeps_board_renderable_witness :
  let o := Board.handleDragEnd 10 Sample.ab Sample.ab
             (Sample.drag "a" "todo" 0 "done" 0) in
  ∃ grouped',
    tasksByStatus (Board.localAfter Sample.ab o) = Normal grouped' ∧
    id <$> default [] (grouped' !! "done") = ["a"; "b"].
Proof.
  intros o.
  set (grouped := match tasksByStatus Sample.ab with
                  | Normal grouped => grouped
                  | Thrown => ∅
                  end).
  assert (tasksByStatus Sample.ab = Normal grouped) as Hshown
    by (vm_compute; reflexivity).
  assert (o = Board.Committed (Board.localAfter Sample.ab o) (Board.callsOf o))
    as Hrun by (vm_compute; reflexivity).
  assert ("done" ∈ COLUMNS) as Hdone by compute_done.
  destruct (drag_keeps_board_renderable 10 Sample.ab Sample.ab
              (Sample.drag "a" "todo" 0 "done" 0)
              (Board.localAfter Sample.ab o) (Board.callsOf o) grouped Hshown Hrun)
    as (grouped' & Hshown' & _ & Hcolumns).
  exists grouped'. split; [exact Hshown'|].
  rewrite (Hcolumns "done" Hdone). by vm_compute.
Defined.

(** X2. What the board shows after a card is dragged between two columns
    that are numbered 0, 1, 2, ...: the columns are recomputed without a
    raise; the destination column reads as before with the card put in at
    the destination index, the source column as before without the card;
    both are numbered 0, 1, 2, ... again, and every other column is the
    column it was. *)
Theorem cross_column_shows_the_move
    now tasks grouped colS colD t iS jD sS sD :
  NoDup (id <$> tasks) →
  tasksByStatus tasks = Normal grouped →
  grouped !! sS = Some colS → grouped !! sD = Some colD → sS ≠ sD →
  colS !! iS = Some t → (jD ≤ length colD)%nat →
  (∀ i u, colS !! i = Some u → order u = Some (Z.of_nat i)) →
  (∀ i u, colD !! i = Some u → order u = Some (Z.of_nat i)) →
  ∃ updatedTasks calls grouped' colS' colD',
    Board.handleDragEnd now tasks tasks
      (Board.mkDropResult (Some (Board.mkLocation sD jD)) (Board.mkLocation sS iS) (id t))
      = Board.Committed updatedTasks calls ∧
    tasksByStatus updatedTasks = Normal grouped' ∧
    grouped' !! sS = Some colS' ∧ grouped' !! sD = Some colD' ∧
    id <$> colD' = spliceIn jD (id t) (id <$> colD) ∧
    id <$> colS' = delete iS (id <$> colS) ∧
    (∀ i u, colS' !! i = Some u → order u = Some (Z.of_nat i)) ∧
    (∀ i u, colD' !! i = Some u → order u = Some (Z.of_nat i)) ∧
    (∀ s, s ≠ sS → s ≠ sD → grouped' !! s = grouped !! s).
Proof.
  intros Hnd Hshown HcolS HcolD Hne HiS HjD HnumS HnumD.
  destruct (tasksByStatus_inv _ _ _ _ Hshown HcolS) as [HS ->].
  destruct (tasksByStatus_inv _ _ _ _ Hshown HcolD) as [HD ->].
  destruct (cross_column_numbered now tasks t iS jD sS sD)
    as (updatedTasks & Hrun & _ & _ & HidsD & HidsS & HnumD' & HnumS' & Helse);
    [done..|].
  pose proof (tasksByStatus_statuses _ _ Hshown) as Hknown.
  destruct (tasksByStatus_known tasks Hknown) as (g & Hg & Hlook).
  assert (g = grouped) as -> by congruence.
  destruct (tasksByStatus_known updatedTasks) as (grouped' & Hshown' & Hlook').
  { by eapply committed_statuses. }
  exists updatedTasks, (Board.persist tasks updatedTasks), grouped',
    (Board.column sS updatedTasks), (Board.column sD updatedTasks).
  unfold isColumn in Hlook, Hlook'.
  split_and!; [done..| | |done|done|done|done|].
  - by rewrite Hlook', bool_decide_eq_true_2.
  - by rewrite Hlook', bool_decide_eq_true_2.
  - intros s HsS HsD. rewrite Hlook, Hlook'. case_bool_decide; [|done].
    by rewrite Helse.
Qed.

(** X2 at the numbered board with [a] in to-do and [x], [y] in done: [a]
    is dropped between [x] and [y]. *)
Lemma cross_column_shows_the_move_witness :
  ∃ updatedTasks calls grouped' colS' colD',
    Board.handleDragEnd 10 Sample.numberedBoard Sample.numberedBoard
      (Sample.drag "a" "todo" 0 "done" 1) = Board.Committed updatedTasks calls ∧
    tasksByStatus updatedTasks = Normal grouped' ∧
    grouped' !! "todo" = Some colS' ∧ grouped' !! "done" = Some colD' ∧
    id <$> colD' = ["x"; "a"; "y"] ∧ id <$> colS' = [].
Proof.
  set (grouped := match tasksByStatus Sample.numberedBoard with
                  | Normal grouped => grouped
                  | Thrown => ∅
                  end).
  assert (NoDup (id <$> Sample.numberedBoard)) as Hnd by compute_done.
  assert (tasksByStatus Sample.numberedBoard = Normal grouped) as Hshown
    by (vm_compute; reflexivity).
  assert (grouped !! "todo" = Some [Sample.task "a" "todo" (Some 0) 1]) as HcolS
    by (vm_compute; reflexivity).
  assert (grouped !! "done" = Some [Sample.task "x" "done" (Some 0) 2;
                                    Sample.task "y" "done" (Some 1) 3]) as HcolD
    by (vm_compute; reflexivity).
  assert ("todo" ≠ "done") as Hne by done.
  destruct (cross_column_shows_the_move 10 Sample.numberedBoard grouped
              [Sample.task "a" "todo" (Some 0) 1]
              [Sample.task "x" "done" (Some 0) 2; Sample.task "y" "done" (Some 1) 3]
              (Sample.task "a" "todo" (Some 0) 1) 0 1 "todo" "done"
              Hnd Hshown HcolS HcolD Hne eq_refl)
    as (updatedTasks & calls & grouped' & colS' & colD' & Hrun & Hshown' & HcolS'
        & HcolD' & HidsD & HidsS & _).
  - vm_compute. lia.
  - intros [|[|i]] u Hu; by simplify_eq/=.
  - intros [|[|[|i]]] u Hu; by simplify_eq/=.
  - by exists updatedTasks, calls, grouped', colS', colD'.
Defined.

(** X1 at the numbered board with [a] in to-do and [x], [y] in done: [a]
    is dropped between [x] and [y] and dragged back. *)
Lemma round_trip_numbered_witness :
  ∃ away home,
    Board.handleDragEnd 10 Sample.numberedBoard Sample.numberedBoard
      (Sample.drag "a" "todo" 0 "done" 1)
      = Board.Committed away (Board.persist Sample.numberedBoard away) ∧
    Board.handleDragEnd 11 away away (Sample.drag "a" "done" 1 "todo" 0)
      = Board.Committed home (Board.persist away home) ∧
    Board.columnIds "todo" home = ["a"] ∧
    Board.columnIds "done" home = ["x"; "y"].
Proof.
  assert (NoDup (id <$> Sample.numberedBoard)) as Hnd by compute_done.
  assert ("todo" ∈ COLUMNS) as HA by compute_done.
  assert ("done" ∈ COLUMNS) as HB by compute_done.
  assert ("todo" ≠ "done") as Hne by done.
  destruct (round_trip_numbered 10 11 Sample.numberedBoard
              (Sample.task "a" "todo" (Some 0) 1) 0 1 "todo" "done"
              Hnd HA HB Hne eq_refl)
    as (away & home & Hout & Hback & HidsA & HidsB).
  - intros [|i] u Hu; by simplify_eq/=.
  - intros [|[|i]] u Hu; by simplify_eq/=.
  - vm_compute. lia.
  - by exists away, home.
Defined.

(** ** The board built on @dnd-kit: drops on a column *)

Lemma startsWith_app p s : SortableBoard.startsWith p (p +:+ s) = true.
Proof.
  unfold SortableBoard.startsWith. induction p as [|c p IH]; simpl.
  - by destruct s.
  - by destruct (Ascii.ascii_dec c c).
Qed.

Lemma startsWith_shorter p q s :
  SortableBoard.startsWith (p +:+ q) s = true → SortableBoard.startsWith p s = true.
Proof.
  unfold SortableBoard.startsWith. revert s.
  induction p as [|c p IH]; intros s; simpl.
  - by destruct s.
  - destruct s as [|c' s]; simpl; [done|].
    destruct (Ascii.ascii_dec c c'); [apply IH|done].
Qed.

Lemma startsWith_app_same p q s :
  SortableBoard.startsWith (p +:+ q) (p +:+ s) = SortableBoard.startsWith q s.
Proof.
  unfold SortableBoard.startsWith. induction p as [|c p IH]; simpl; [done|].
  by destruct (Ascii.ascii_dec c c).
Qed.

Lemma startsWith_split q s :
  SortableBoard.startsWith q s = true → ∃ rest, s = q +:+ rest.
Proof.
  unfold SortableBoard.startsWith. revert s.
  induction q as [|c q IH]; intros s; cbn [String.prefix].
  - by exists s.
  - destruct s as [|c' s]; [done|]. cbn [String.prefix].
    destruct (Ascii.ascii_dec c c') as [->|]; [|done].
    intros [rest ->]%IH. by exists rest.
Qed.

Lemma substring_all s : String.substring 0 (String.length s) s = s.
Proof. induction s as [|c s IH]; simpl; [done|]. by rewrite IH. Qed.

Lemma dropPrefix_app p s : SortableBoard.dropPrefix p (p +:+ s) = s.
Proof.
  unfold SortableBoard.dropPrefix.
  assert (String.length (p +:+ s) - String.length p = String.length s)%nat as ->.
  { induction p as [|c p IH]; simpl; [apply Nat.sub_0_r|done]. }
  induction p as [|c p IH]; simpl; [apply substring_all|done].
Qed.

(** X12. The status of a drop on a column is read back from what the
    column registers.  The droppable's data names it whenever the data has
    the type [column] and a non-empty status, whatever the droppable's id.
    Without data, the id [column-content-<s>] gives [s]; the id
    [column-<s>] gives [s] provided the id does not contain [content],
    which holds for each of the five lifecycle states; and an id that does
    not start with [column-] names no status. *)
Theorem droppedStatus_reads_droppables :
  (∀ ident overIdString s, s ≠ "" →
     SortableBoard.droppedStatus
       (SortableBoard.mkOver ident
          (Some (SortableBoard.mkData (Some "column") (Some s)))) overIdString
     = Some s) ∧
  (∀ ident s,
     SortableBoard.droppedStatus (SortableBoard.mkOver ident None)
       ("column-content-" +:+ s) = Some s) ∧
  (∀ ident s,
     SortableBoard.includes "content" ("column-" +:+ s) = false →
     SortableBoard.droppedStatus (SortableBoard.mkOver ident None)
       ("column-" +:+ s) = Some s) ∧
  (∀ s, s ∈ COLUMNS → SortableBoard.includes "content" ("column-" +:+ s) = false) ∧
  (∀ ident overIdString,
     SortableBoard.startsWith "column-" overIdString = false →
     SortableBoard.droppedStatus (SortableBoard.mkOver ident None) overIdString
     = None).
Proof.
  split_and!.
  - intros ident overIdString s Hs. unfold SortableBoard.droppedStatus. simpl.
    by rewrite (bool_decide_eq_false_2 (s = "")) by done.
  - intros ident s. unfold SortableBoard.droppedStatus. simpl SortableBoard.overData.
    cbv iota. by rewrite startsWith_app, dropPrefix_app.
  - intros ident s Hinc. unfold SortableBoard.droppedStatus.
    simpl SortableBoard.overData. cbv iota.
    destruct (SortableBoard.startsWith "column-content-" ("column-" +:+ s)) eqn:Hlong.
    + exfalso.
      change "column-content-" with ("column-" +:+ "content-") in Hlong.
      rewrite startsWith_app_same in Hlong.
      apply startsWith_split in Hlong as [rest ->]. by vm_compute in Hinc.
    + by rewrite startsWith_app, Hinc, dropPrefix_app.
  - intros s Hs. unfold COLUMNS in Hs.
    repeat (apply elem_of_cons in Hs as [->|Hs]; [by vm_compute|]).
    by apply elem_of_nil in Hs.
  - intros ident overIdString Hshort. unfold SortableBoard.droppedStatus.
    simpl SortableBoard.overData. cbv iota.
    destruct (SortableBoard.startsWith "column-content-" overIdString) eqn:Hlong.
    + apply (startsWith_shorter "column-" "content-") in Hlong. congruence.
    + by rewrite Hshort.
Qed.

(** X12 at the droppables of the to-do column, and at the id of a card. *)
Lemma droppedStatus_reads_droppables_witness :
  SortableBoard.droppedStatus
    (SortableBoard.mkOver (SortableBoard.IdString "column-todo") None) "column-todo"
    = Some "todo" ∧
  SortableBoard.droppedStatus
    (SortableBoard.mkOver (SortableBoard.IdString "column-content-todo") None)
    "column-content-todo" = Some "todo" ∧
  SortableBoard.droppedStatus
    (SortableBoard.mkOver (SortableBoard.IdString "a") None) "a" = None.
Proof.
  destruct droppedStatus_reads_droppables as (_ & Hcontent & Hcolumn & _ & Hnone).
  split_and!.
  - apply (Hcolumn (SortableBoard.IdString "column-todo") "todo"). reflexivity.
  - apply (Hcontent (SortableBoard.IdString "column-content-todo") "todo").
  - apply (Hnone (SortableBoard.IdString "a") "a"). reflexivity.
Defined.

Lemma foldr_max_above (l : list Task) u :
  u ∈ l →
  default 0 (order u) ≤ foldr Z.max (-1) ((λ t, default 0 (order t)) <$> l).
Proof.
  induction l as [|v l IH]; intros Hu; [by apply elem_of_nil in Hu|].
  rewrite fmap_cons. cbn [foldr]. apply elem_of_cons in Hu as [->|Hu]; [lia|].
  specialize (IH Hu). lia.
Qed.

Lemma foldr_max_least (l : list Z) : -1 ≤ foldr Z.max (-1) l.
Proof. induction l as [|x l IH]; simpl; lia. Qed.

Lemma maxOrder_above tasksInNewStatus u :
  u ∈ tasksInNewStatus →
  default 0 (order u) < SortableBoard.maxOrder tasksInNewStatus.
Proof.
  intros Hu. pose proof (foldr_max_above _ _ Hu) as Hle.
  unfold SortableBoard.maxOrder.
  destruct tasksInNewStatus; [by apply elem_of_nil in Hu|]. lia.
Qed.

Lemma maxOrder_nonneg tasksInNewStatus : 0 ≤ SortableBoard.maxOrder tasksInNewStatus.
Proof.
  unfold SortableBoard.maxOrder. destruct tasksInNewStatus as [|task rest]; [done|].
  pose proof (foldr_max_least ((λ t, default 0 (order t)) <$> task :: rest)). lia.
Qed.

(** X11. A card dropped on the empty area of another column: the handler
    sends the status of the column and an order that is not negative and
    lies above the order of every task the column shows (a task without an
    order counting as 0).  A task carrying that order sorts after every task
    of the column that has an order; a task of the column without an order
    still sorts after it. *)
Theorem column_drop_goes_below_ordered
    currentProfileTasks grouped event o overIdString task s column :
  SortableBoard.over event = Some o →
  SortableBoard.overId o = SortableBoard.IdString overIdString →
  findById (SortableBoard.activeId event) currentProfileTasks = Some task →
  findById overIdString currentProfileTasks = None →
  SortableBoard.droppedStatus o overIdString = Some s →
  s ∈ COLUMNS → s ≠ status task →
  grouped !! s = Some column →
  let newOrder := SortableBoard.maxOrder column in
  SortableBoard.handleDragEnd currentProfileTasks grouped event
    = SortableBoard.Done
        [CallUpdateTaskStatus (SortableBoard.activeId event) s;
         CallUpdateTask (SortableBoard.activeId event)
           (Partial.ofOrder (Some newOrder))] ∧
  0 ≤ newOrder ∧
  (∀ dropped u, order dropped = Some newOrder →
     u ∈ column → is_Some (order u) → ltOf compareTasks u dropped) ∧
  (∀ dropped u, order dropped = Some newOrder →
     u ∈ column → order u = None → newOrder < MAX_SAFE_INTEGER →
     ltOf compareTasks dropped u).
Proof.
  intros Hover Hid Htask Hnone Hstatus Hs Hne Hcolumn newOrder.
  split_and!; [|apply maxOrder_nonneg| |].
  - unfold SortableBoard.handleDragEnd, SortableBoard.findOver.
    rewrite Hover, Htask, Hid, Hnone, Hstatus, Hcolumn. unfold isColumn.
    rewrite (bool_decide_eq_false_2 (s = "")).
    + by rewrite !bool_decide_eq_true_2 by done.
    + intros ->. revert Hs. compute_done.
  - intros dropped u Hord Hu [ou Hou]. apply compareTasks_lt_order.
    rewrite Hord. simpl.
    pose proof (maxOrder_above column u Hu) as Habove.
    rewrite Hou in Habove |- *. exact Habove.
  - intros dropped u Hord Hu Hnoorder Hsmall. apply compareTasks_lt_order.
    by rewrite Hord, Hnoorder.
Qed.

(** X11 at the two-task board: [a] is dropped on the empty area of the
    done column, which shows [b] with the order 0. *)
Lemma column_drop_goes_below_ordered_witness :
  let event := SortableBoard.mkEvent "a"
    (Some (SortableBoard.mkOver (SortableBoard.IdString "column-content-done") None)) in
  SortableBoard.handleDragEnd Sample.ab
    (<["done" := [Sample.task "b" "done" (Some 0) 2]]> emptyGrouped) event
  = SortableBoard.Done
      [CallUpdateTaskStatus "a" "done";
       CallUpdateTask "a" (Partial.ofOrder (Some 1))].
Proof.
  intros event.
  assert ("done" ∈ COLUMNS) as Hs by compute_done.
  assert ("done" ≠ "todo") as Hne by done.
  exact (proj1 (column_drop_goes_below_ordered Sample.ab
           (<["done" := [Sample.task "b" "done" (Some 0) 2]]> emptyGrouped) event
           (SortableBoard.mkOver (SortableBoard.IdString "column-content-done") None)
           "column-content-done" (Sample.task "a" "todo" (Some 0) 1) "done"
           [Sample.task "b" "done" (Some 0) 2]
           eq_refl eq_refl eq_refl eq_refl eq_refl Hs Hne eq_refl)).
Defined.

(** X10. On a rendered board the @dnd-kit handler never raises: when the
    columns come from [tasksByStatus] (of the filtered list the board
    shows) and every task of the profile has a lifecycle state as its
    status, every drag event ends normally, whatever was dragged and
    wherever it was dropped. *)
Theorem sortable_never_raises currentProfileTasks filteredTasks grouped event :
  tasksByStatus filteredTasks = Normal grouped →
  (∀ t, t ∈ currentProfileTasks → status t ∈ COLUMNS) →
  ∃ calls,
    SortableBoard.handleDragEnd currentProfileTasks grouped event
      = SortableBoard.Done calls.
Proof.
  intros Hshown Hknown.
  assert (∀ s, s ∈ COLUMNS → is_Some (grouped !! s)) as Hcolumns.
  { intros s Hs.
    destruct (tasksByStatus_known filteredTasks) as (g & Hg & Hlook).
    { by eapply tasksByStatus_statuses. }
    assert (g = grouped) as -> by congruence.
    rewrite Hlook. unfold isColumn. by rewrite bool_decide_eq_true_2. }
  unfold SortableBoard.handleDragEnd.
  destruct (SortableBoard.over event) as [o|]; [|by eexists].
  destruct (findById _ currentProfileTasks) as [task|] eqn:Htask; [|by eexists].
  apply findById_Some in Htask as [Htask _].
  destruct (SortableBoard.findOver _ _) as [overTask|] eqn:Hover.
  - assert (overTask ∈ currentProfileTasks) as HoverTask.
    { unfold SortableBoard.findOver in Hover.
      destruct (SortableBoard.overId o); [|done].
      by apply findById_Some in Hover as [? _]. }
    case_bool_decide.
    + destruct (Hcolumns (status overTask)) as [col ->]; [by apply Hknown|].
      by eexists.
    + destruct (Hcolumns (status task)) as [col ->]; [by apply Hknown|].
      destruct (findIndexById (SortableBoard.activeId event) col) as [oldIndex|];
        [|by eexists].
      destruct (findIndexById (id overTask) col) as [newIndex|]; [|by eexists].
      case_bool_decide; by eexists.
  - destruct (SortableBoard.overId o) as [overIdString|]; [|by eexists].
    destruct (SortableBoard.droppedStatus _ _) as [newStatus|]; [|by eexists].
    destruct (negb _) ; [|by eexists].
    unfold isColumn. simpl. case_bool_decide as Hcol; [|by eexists].
    simpl. case_bool_decide; [|by eexists].
    destruct (Hcolumns newStatus Hcol) as [col ->]. by eexists.
Qed.

(** X10 at the three-task column shown in full: [a] dropped on [c]. *)
Lemma sortable_never_raises_witness :
  ∃ grouped calls,
    tasksByStatus Sample.abc = Normal grouped ∧
    SortableBoard.handleDragEnd Sample.abc grouped (SortableBoard.dropOnTask "a" "c")
      = SortableBoard.Done calls.
Proof.
  set (grouped := match tasksByStatus Sample.abc with
                  | Normal grouped => grouped
                  | Thrown => ∅
                  end).
  assert (tasksByStatus Sample.abc = Normal grouped) as Hshown
    by (vm_compute; reflexivity).
  assert (∀ t, t ∈ Sample.abc → status t ∈ COLUMNS) as Hknown.
  { intros t Ht. unfold Sample.abc in Ht.
    repeat (apply elem_of_cons in Ht as [->|Ht]; [compute_done|]).
    by apply elem_of_nil in Ht. }
  destruct (sortable_never_raises Sample.abc Sample.abc grouped
              (SortableBoard.dropOnTask "a" "c") Hshown Hknown) as [calls Hrun].
  by exists grouped, calls.
Defined.

(** ** The board built on @dnd-kit: reordering inside a column *)

Lemma elem_of_rangeCalls reorderedTasks startIndex endIndex c :
  c ∈ SortableBoard.rangeCalls reorderedTasks startIndex endIndex ↔
  ∃ m u, (startIndex ≤ m ≤ endIndex)%nat ∧ reorderedTasks !! m = Some u ∧
         order u ≠ Some (Z.of_nat m) ∧
         c = CallUpdateTask (id u) (Partial.ofOrder (Some (Z.of_nat m))).
Proof.
  unfold SortableBoard.rangeCalls. rewrite list_elem_of_bind. split.
  - intros (m & Hc & Hm%elem_of_seq).
    destruct (reorderedTasks !! m) as [u|] eqn:Hu; [|by apply elem_of_nil in Hc].
    case_bool_decide as Horder; [|by apply elem_of_nil in Hc].
    apply list_elem_of_singleton in Hc as ->.
    exists m, u. split_and!; [lia..|done|done|done].
  - intros (m & u & Hm & Hu & Horder & ->). exists m. split.
    + rewrite Hu, bool_decide_eq_true_2 by done. by left.
    + apply elem_of_seq. lia.
Qed.

Lemma arrayMove_lookup_outside {A} (array : list A) (from to m : nat) :
  (from < length array)%nat → (to < length array)%nat →
  (m < from `min` to ∨ from `max` to < m)%nat →
  SortableBoard.arrayMove array from to !! m = array !! m.
Proof.
  intros Hfrom Hto Hm. unfold SortableBoard.arrayMove.
  destruct (lookup_lt_is_Some_2 array from Hfrom) as [x ->].
  assert (length (delete from array) = length array - 1)%nat as Hlen.
  { rewrite length_delete; [done|]. by apply lookup_lt_is_Some_2. }
  destruct Hm as [Hm|Hm].
  - rewrite spliceIn_lookup_lt by lia. apply list_lookup_delete_lt. lia.
  - rewrite spliceIn_lookup_gt by lia.
    rewrite list_lookup_delete_ge by lia. f_equal. lia.
Qed.

(** X20. A card dropped on another card of its own column: the handler
    makes one order call for each task that stands, in the column with the
    card moved to the other card's position, between the two positions
    with an order other than its position there, and no other call.  On a
    column whose tasks carried their positions as orders these calls
    cover every task whose order is not its new position. *)
Theorem sortable_reorder_numbers_the_range
    currentProfileTasks grouped event o task overTask column oldIndex newIndex :
  SortableBoard.over event = Some o →
  findById (SortableBoard.activeId event) currentProfileTasks = Some task →
  SortableBoard.findOver (SortableBoard.overId o) currentProfileTasks
    = Some overTask →
  status overTask = status task →
  grouped !! status task = Some column →
  findIndexById (SortableBoard.activeId event) column = Some oldIndex →
  findIndexById (id overTask) column = Some newIndex →
  oldIndex ≠ newIndex →
  let reorderedTasks := SortableBoard.arrayMove column oldIndex newIndex in
  ∃ calls,
    SortableBoard.handleDragEnd currentProfileTasks grouped event
      = SortableBoard.Done calls ∧
    (∀ c, c ∈ calls ↔
       ∃ m u, (oldIndex `min` newIndex ≤ m ≤ oldIndex `max` newIndex)%nat ∧
              reorderedTasks !! m = Some u ∧ order u ≠ Some (Z.of_nat m) ∧
              c = CallUpdateTask (id u) (Partial.ofOrder (Some (Z.of_nat m)))) ∧
    ((∀ m u, column !! m = Some u → order u = Some (Z.of_nat m)) →
     ∀ m u, reorderedTasks !! m = Some u → order u ≠ Some (Z.of_nat m) →
       CallUpdateTask (id u) (Partial.ofOrder (Some (Z.of_nat m))) ∈ calls).
Proof.
  intros Hover Htask HoverTask Hstatus Hcolumn Hold Hnew Hne reorderedTasks.
  exists (SortableBoard.rangeCalls reorderedTasks
            (oldIndex `min` newIndex) (oldIndex `max` newIndex)).
  split_and!.
  - unfold SortableBoard.handleDragEnd.
    rewrite Hover, Htask, HoverTask.
    rewrite bool_decide_eq_false_2 by (intros Hdiffer; by apply Hdiffer).
    rewrite Hcolumn, Hold, Hnew. by rewrite bool_decide_eq_true_2.
  - intros c. apply elem_of_rangeCalls.
  - intros Hnumbered m u Hm Horder. apply elem_of_rangeCalls.
    exists m, u. split_and!; [| |done..].
    + destruct (decide (oldIndex `min` newIndex ≤ m)%nat) as [|Hout]; [done|].
      destruct Horder. apply Hnumbered. rewrite <-Hm. symmetry.
      apply findIndexById_Some in Hold as (? & ?%lookup_lt_Some & _).
      apply findIndexById_Some in Hnew as (? & ?%lookup_lt_Some & _).
      apply arrayMove_lookup_outside; [done..|lia].
    + destruct (decide (m ≤ oldIndex `max` newIndex)%nat) as [|Hout]; [done|].
      destruct Horder. apply Hnumbered. rewrite <-Hm. symmetry.
      apply findIndexById_Some in Hold as (? & ?%lookup_lt_Some & _).
      apply findIndexById_Some in Hnew as (? & ?%lookup_lt_Some & _).
      apply arrayMove_lookup_outside; [done..|lia].
Qed.

(** X20 at the three-task column: [a] dropped on [c]. *)
Lemma sortable_reorder_numbers_the_range_witness :
  ∃ calls,
    SortableBoard.handleDragEnd Sample.abc (<["todo" := Sample.abc]> emptyGrouped)
      (SortableBoard.dropOnTask "a" "c") = SortableBoard.Done calls ∧
    CallUpdateTask "a" (Partial.ofOrder (Some 2)) ∈ calls.
Proof.
  assert ((0 : nat) ≠ 2%nat) as Hne by done.
  assert (<["todo" := Sample.abc]> emptyGrouped
            !! status (Sample.task "a" "todo" (Some 0) 1) = Some Sample.abc)
    as Hcolumn by (vm_compute; reflexivity).
  destruct (sortable_reorder_numbers_the_range Sample.abc
              (<["todo" := Sample.abc]> emptyGrouped)
              (SortableBoard.dropOnTask "a" "c")
              (SortableBoard.mkOver (SortableBoard.IdString "c") None)
              (Sample.task "a" "todo" (Some 0) 1) (Sample.task "c" "todo" (Some 2) 3)
              Sample.abc 0 2 eq_refl eq_refl eq_refl eq_refl Hcolumn eq_refl eq_refl Hne)
    as (calls & Hrun & Hcalls & _).
  exists calls. split; [exact Hrun|].
  apply Hcalls. exists 2%nat, (Sample.task "a" "todo" (Some 0) 1).
  split_and!; [simpl; lia|simpl; lia|reflexivity|done|reflexivity].
Defined.

(** * The provider *)

(** ** The current profile *)

Lemma wellFormed_ids d :
  AppProvider.wellFormed d ↔
  AppProvider.currentProfileId d
    ∈ AppProvider.Profile.id <$> AppProvider.profiles d.
Proof.
  unfold AppProvider.wellFormed. rewrite list_elem_of_fmap. split.
  - intros (p & Hp & Hid). by exists p.
  - intros (p & Hid & Hp). by exists p.
Qed.

Lemma currentProfile_Some data p :
  AppProvider.currentProfile data = Some p →
  ∃ d, data = Some d ∧ p ∈ AppProvider.profiles d.
Proof.
  destruct data as [d|]; [|done]. simpl. intros Hp. exists d. split; [done|].
  destruct (list_find _ _) as [[k q]|] eqn:Hfind.
  - apply list_find_Some in Hfind as (Hk & _). simplify_eq.
    by eapply list_elem_of_lookup_2.
  - by apply head_Some_elem_of.
Qed.

Lemma currentProfile_wellFormed d :
  AppProvider.wellFormed d →
  ∃ p, AppProvider.currentProfile (Some d) = Some p ∧
       p ∈ AppProvider.profiles d ∧
       AppProvider.Profile.id p = AppProvider.currentProfileId d.
Proof.
  intros (q & Hq & Hid). simpl.
  destruct (list_find_elem_of
              (λ p, AppProvider.Profile.id p = AppProvider.currentProfileId d)
              (AppProvider.profiles d) q Hq Hid) as [[k p] Hfind].
  rewrite Hfind. exists p. apply list_find_Some in Hfind as (Hk & Hp & _).
  split_and!; [done| |done]. by eapply list_elem_of_lookup_2.
Qed.

Lemma currentProfile_fmap d (f : AppProvider.Profile.t → AppProvider.Profile.t) :
  (∀ p, AppProvider.Profile.id (f p) = AppProvider.Profile.id p) →
  AppProvider.currentProfile
    (Some (AppProvider.mkAppData (f <$> AppProvider.profiles d)
             (AppProvider.currentProfileId d) (AppProvider.version d)))
  = f <$> AppProvider.currentProfile (Some d).
Proof.
  intros Hid. simpl. rewrite list_find_fmap.
  rewrite (list_find_ext _
             (λ p, AppProvider.Profile.id p = AppProvider.currentProfileId d)).
  - destruct (list_find _ _) as [[k p]|]; simpl; [done|].
    by destruct (AppProvider.profiles d).
  - intros p. simpl. by rewrite Hid.
Qed.

Lemma id_patchProfile updates p :
  AppProvider.Profile.id (AppProvider.patchProfile updates p)
  = AppProvider.Profile.id p.
Proof. done. Qed.

(** What a write through [updateCurrentProfile] installs. *)
Lemma updateCurrentProfile_SetData user data updates d' :
  AppProvider.updateCurrentProfile user data updates = AppProvider.SetData d' →
  ∃ d current,
    data = Some d ∧ AppProvider.currentProfile data = Some current ∧
    d' = AppProvider.mkAppData
           ((λ p, if bool_decide (AppProvider.Profile.id p
                                  = AppProvider.Profile.id current)
                  then AppProvider.patchProfile updates p else p)
              <$> AppProvider.profiles d)
           (AppProvider.currentProfileId d) (AppProvider.version d) ∧
    AppProvider.currentProfile (Some d')
      = Some (AppProvider.patchProfile updates current).
Proof.
  unfold AppProvider.updateCurrentProfile.
  destruct data as [d|]; [|done].
  destruct (AppProvider.currentProfile (Some d)) as [current|] eqn:Hcurrent; [|done].
  destruct user as [u|]; [|done]. simpl AppProvider.persistData.
  intros [= <-]. exists d, current. split_and!; [done..|].
  rewrite currentProfile_fmap, Hcurrent; simpl.
  - by rewrite bool_decide_eq_true_2.
  - intros p. by case_bool_decide.
Qed.

(** Every action on the current profile is one write through
    [updateCurrentProfile]. *)
Lemma onCurrentProfile_write user now data a d' :
  AppProvider.onCurrentProfile a = true →
  AppProvider.run user now data a = AppProvider.SetData d' →
  ∃ updates, AppProvider.updateCurrentProfile user data updates
             = AppProvider.SetData d'.
Proof.
  intros Hon. destruct a; try done; simpl;
    unfold AppProvider.archiveProject, AppProvider.updateProject,
      AppProvider.deleteProject, AppProvider.createTask,
      AppProvider.toggleTaskToday, AppProvider.updateTaskStatus,
      AppProvider.updateTask, AppProvider.deleteTask;
    destruct (AppProvider.currentProfile data) as [current|]; try done;
    try (by eexists).
  destruct (findById _ _); [by eexists|done].
Qed.

Lemma existsb_profile_id (l : list AppProvider.Profile.t) profileId :
  existsb (λ p, bool_decide (AppProvider.Profile.id p = profileId)) l = true ↔
  profileId ∈ AppProvider.Profile.id <$> l.
Proof.
  rewrite existsb_exists, list_elem_of_fmap. split.
  - intros (p & Hp%list_elem_of_In & Hid%bool_decide_eq_true). by exists p.
  - intros (p & -> & Hp). exists p. split; [by apply list_elem_of_In|].
    by apply bool_decide_eq_true.
Qed.

(** X13. The data that [initializeData] returns always have a current
    profile: the current profile id names one of the profiles, whatever
    was loaded.  Loaded data that already have one are returned as they
    are; loaded data with profiles whose current profile id names none of
    them are returned with their profiles and version and with the id of
    the first profile as the current one; without loaded data, or without
    profiles in them, the data are the default profile alone, current, at
    the version of the application. *)
Theorem initializeData_has_current_profile existingData defaultProfile :
  let d := AppProvider.initializeData existingData defaultProfile in
  let fresh := AppProvider.mkAppData [defaultProfile]
                 (AppProvider.Profile.id defaultProfile) AppProvider.APP_VERSION in
  AppProvider.wellFormed d ∧
  (∃ p, AppProvider.currentProfile (Some d) = Some p ∧
        AppProvider.Profile.id p = AppProvider.currentProfileId d) ∧
  (∀ existing, existingData = Some existing →
     (AppProvider.wellFormed existing → d = existing) ∧
     (AppProvider.profiles existing ≠ [] →
        AppProvider.profiles d = AppProvider.profiles existing) ∧
     (∀ first rest, AppProvider.profiles existing = first :: rest →
        ¬ AppProvider.wellFormed existing →
        d = AppProvider.mkAppData (AppProvider.profiles existing)
              (AppProvider.Profile.id first) (AppProvider.version existing)) ∧
     (AppProvider.profiles existing = [] → d = fresh)) ∧
  (existingData = None → d = fresh ∧ AppProvider.profiles d = [defaultProfile]).
Proof.
  intros d fresh.
  assert (AppProvider.wellFormed d) as Hwf.
  { subst d. unfold AppProvider.initializeData.
    assert (AppProvider.wellFormed fresh)
      as Hfresh by (exists defaultProfile; split; [by left|done]).
    destruct existingData as [existing|]; [|done].
    destruct (AppProvider.profiles existing) as [|first rest] eqn:Hprofiles; [done|].
    destruct (existsb _ _) eqn:Hexists; simpl.
    - apply wellFormed_ids. rewrite Hprofiles. by apply existsb_profile_id.
    - exists first. split; [by left|done]. }
  split_and!; [done| | |].
  - destruct (currentProfile_wellFormed d Hwf) as (p & Hp & _ & Hid). by exists p.
  - intros existing ->. subst d. unfold AppProvider.initializeData. split_and!.
    + intros Hwf'. pose proof Hwf' as (q & Hq & _).
      destruct (AppProvider.profiles existing) as [|first rest] eqn:Hprofiles.
      { by apply elem_of_nil in Hq. }
      apply wellFormed_ids, existsb_profile_id in Hwf'.
      rewrite Hprofiles in Hwf'. by rewrite Hwf'.
    + intros Hsome.
      destruct (AppProvider.profiles existing) as [|first rest] eqn:Hprofiles; [done|].
      by destruct (negb _).
    + intros first rest Hprofiles Hdangling. rewrite Hprofiles.
      destruct (existsb _ _) eqn:Hexists; simpl; [|done].
      destruct Hdangling. apply wellFormed_ids. rewrite Hprofiles.
      by apply existsb_profile_id.
    + by intros ->.
  - by intros ->.
Qed.

(** X13 at loaded data whose current profile id names no profile: the
    first profile becomes the current one. *)
Lemma initializeData_has_current_profile_witness :
  let work := AppProvider.Profile.mk "work" "Work" 1 [] [] in
  let home := AppProvider.Profile.mk "home" "Home" 2 [] [] in
  let loaded := AppProvider.mkAppData [work; home] "gone" "1.0.0" in
  ¬ AppProvider.wellFormed loaded ∧
  AppProvider.initializeData (Some loaded) home
    = AppProvider.mkAppData [work; home] "work" "1.0.0" ∧
  AppProvider.wellFormed (AppProvider.initializeData (Some loaded) home).
Proof.
  intros work home loaded.
  assert (¬ AppProvider.wellFormed loaded) as Hdangling.
  { intros (p & Hp & Hid). simpl in Hp, Hid.
    apply elem_of_cons in Hp as [->|Hp]; [done|].
    apply elem_of_cons in Hp as [->|Hp]; [done|]. by apply elem_of_nil in Hp. }
  destruct (initializeData_has_current_profile (Some loaded) home)
    as (Hwf & _ & Hloaded & _).
  destruct (Hloaded loaded eq_refl) as (_ & _ & Hrepair & _).
  split_and!; [exact Hdangling| |exact Hwf].
  exact (Hrepair work [home] eq_refl Hdangling).
Defined.

(** X14. No action loses the current profile.  When the current profile
    id names one of the profiles, it still does in the data that any action
    installs (switching, creating, renaming or deleting a profile, and
    every task and project action), and the current profile is then the
    profile with that id, never the fallback to the first one. *)
Theorem actions_keep_current_profile user now d a d' :
  AppProvider.wellFormed d →
  AppProvider.run user now (Some d) a = AppProvider.SetData d' →
  AppProvider.wellFormed d' ∧
  AppProvider.profiles d' ≠ [] ∧
  ∃ p, AppProvider.currentProfile (Some d') = Some p ∧
       AppProvider.Profile.id p = AppProvider.currentProfileId d'.
Proof.
  intros Hwf Hrun.
  assert (AppProvider.wellFormed d') as Hwf'; last first.
  { split_and!; [done| |].
    - destruct Hwf' as (p & Hp & _). intros Hnil. rewrite Hnil in Hp.
      by apply elem_of_nil in Hp.
    - destruct (currentProfile_wellFormed d' Hwf') as (p & Hp & _ & Hid).
      by exists p. }
  destruct (AppProvider.onCurrentProfile a) eqn:Hon.
  { destruct (onCurrentProfile_write _ _ _ _ _ Hon Hrun) as [updates Hwrite].
    apply updateCurrentProfile_SetData in Hwrite
      as (d0 & current & [= <-] & _ & -> & _).
    apply wellFormed_ids in Hwf. apply wellFormed_ids. simpl.
    rewrite <-list_fmap_compose.
    erewrite list_fmap_ext; [exact Hwf|].
    intros k p _. simpl. by case_bool_decide. }
  destruct a as [profileId|newId name|profileId name|profileId| | | | | | | |];
    try done; simpl in Hrun.
  - unfold AppProvider.switchProfile in Hrun. destruct user as [u|]; [|done].
    destruct (existsb _ _) eqn:Hexists; [|done]. simpl in Hrun.
    injection Hrun as <-. apply wellFormed_ids. simpl.
    by apply existsb_profile_id.
  - unfold AppProvider.createProfile in Hrun. destruct user as [u|]; [|done].
    simpl in Hrun. injection Hrun as <-. destruct Hwf as (p & Hp & Hid).
    exists p. split; [|done]. simpl. apply elem_of_app. by left.
  - unfold AppProvider.renameProfile in Hrun. destruct user as [u|]; [|done].
    simpl in Hrun. injection Hrun as <-.
    apply wellFormed_ids in Hwf. apply wellFormed_ids. simpl.
    rewrite <-list_fmap_compose.
    erewrite list_fmap_ext; [exact Hwf|].
    intros k p _. simpl. by case_bool_decide.
  - unfold AppProvider.deleteProfile in Hrun. destruct user as [u|]; [|done].
    case_bool_decide; [done|]. case_bool_decide as Hcurrent.
    + destruct (head _) as [first|] eqn:Hfirst; [|done]. simpl in Hrun.
      injection Hrun as <-. exists first. split; [|done]. simpl.
      by apply head_Some_elem_of.
    + simpl in Hrun. injection Hrun as <-. destruct Hwf as (p & Hp & Hid).
      exists p. split; [|done]. simpl. apply list_elem_of_filter.
      split; [congruence|done].
Qed.

(** X14 at the deletion of the current profile of two. *)
Lemma actions_keep_current_profile_witness :
  let work := AppProvider.Profile.mk "work" "Work" 1 [] [] in
  let home := AppProvider.Profile.mk "home" "Home" 2 [] [] in
  let d := AppProvider.mkAppData [work; home] "work" "1.0.0" in
  AppProvider.run (Some "u") 10 (Some d) (AppProvider.DeleteProfile "work")
    = AppProvider.SetData (AppProvider.mkAppData [home] "home" "1.0.0") ∧
  AppProvider.wellFormed (AppProvider.mkAppData [home] "home" "1.0.0").
Proof.
  intros work home d.
  assert (AppProvider.wellFormed d) as Hwf by (exists work; split; [by left|done]).
  assert (AppProvider.run (Some "u") 10 (Some d) (AppProvider.DeleteProfile "work")
          = AppProvider.SetData (AppProvider.mkAppData [home] "home" "1.0.0"))
    as Hrun by reflexivity.
  split; [exact Hrun|].
  exact (proj1 (actions_keep_current_profile (Some "u") 10 d
                  (AppProvider.DeleteProfile "work")
                  (AppProvider.mkAppData [home] "home" "1.0.0") Hwf Hrun)).
Defined.

(** X15. Deleting a profile.  With one profile or none nothing is
    deleted, so the last profile cannot be removed.  When data are
    installed, the profiles are the old ones without those carrying the
    id, in their sequence, and the current profile id is unchanged unless
    it was the deleted one, in which case it is the id of the first profile
    left.  The call raises only when the current profile is deleted and
    every profile carries its id. *)
Theorem deleteProfile_outcomes user d profileId :
  let left := filter (λ p, AppProvider.Profile.id p ≠ profileId)
                (AppProvider.profiles d) in
  ((length (AppProvider.profiles d) ≤ 1)%nat →
     AppProvider.deleteProfile user (Some d) profileId = AppProvider.Nothing) ∧
  (∀ d', AppProvider.deleteProfile user (Some d) profileId = AppProvider.SetData d' →
     AppProvider.profiles d' = left ∧
     AppProvider.version d' = AppProvider.version d ∧
     (AppProvider.currentProfileId d ≠ profileId →
        AppProvider.currentProfileId d' = AppProvider.currentProfileId d) ∧
     (AppProvider.currentProfileId d = profileId →
        AppProvider.Profile.id <$> head left = Some (AppProvider.currentProfileId d'))) ∧
  (AppProvider.deleteProfile user (Some d) profileId = AppProvider.Rejected →
     AppProvider.currentProfileId d = profileId ∧
     ∀ p, p ∈ AppProvider.profiles d → AppProvider.Profile.id p = profileId).
Proof.
  intros left. unfold AppProvider.deleteProfile. split_and!.
  - intros Hone. destruct user; [|done]. by rewrite bool_decide_eq_true_2.
  - intros d'. destruct user as [u|]; [|done].
    case_bool_decide; [done|]. case_bool_decide as Hcurrent.
    + fold left. destruct (head left) as [first|] eqn:Hfirst; [|done]. simpl.
      intros [= <-]. by split_and!.
    + simpl. intros [= <-]. by split_and!.
  - destruct user as [u|]; [|done].
    case_bool_decide; [done|]. case_bool_decide as Hcurrent; [|done].
    fold left. destruct (head left) as [first|] eqn:Hfirst; [done|]. intros _.
    split; [done|]. intros p Hp.
    destruct (decide (AppProvider.Profile.id p = profileId)) as [|Hne]; [done|].
    apply head_None in Hfirst.
    assert (p ∈ left) as Hleft by (by apply list_elem_of_filter).
    rewrite Hfirst in Hleft. by apply elem_of_nil in Hleft.
Qed.

(** X15 at data with a single profile. *)
Lemma deleteProfile_outcomes_witness :
  AppProvider.deleteProfile (Some "u")
    (Some (AppProvider.mkAppData [AppProvider.Profile.mk "work" "Work" 1 [] []]
             "work" "1.0.0")) "work"
  = AppProvider.Nothing.
Proof.
  apply (proj1 (deleteProfile_outcomes (Some "u")
           (AppProvider.mkAppData [AppProvider.Profile.mk "work" "Work" 1 [] []]
              "work" "1.0.0") "work")).
  simpl. lia.
Defined.

(** ** Tasks and projects of the current profile *)

(** X16. No task or project action reaches beyond the current profile:
    in the data it installs, the current profile id and the version are
    the old ones, the profiles stand where they stood with their ids,
    names and creation times, and every profile whose id is not the
    current profile's is the profile it was. *)
Theorem current_profile_actions_frame user now d a d' current :
  AppProvider.onCurrentProfile a = true →
  AppProvider.currentProfile (Some d) = Some current →
  AppProvider.run user now (Some d) a = AppProvider.SetData d' →
  AppProvider.currentProfileId d' = AppProvider.currentProfileId d ∧
  AppProvider.version d' = AppProvider.version d ∧
  length (AppProvider.profiles d') = length (AppProvider.profiles d) ∧
  ∀ k p, AppProvider.profiles d !! k = Some p →
    ∃ p', AppProvider.profiles d' !! k = Some p' ∧
          AppProvider.Profile.id p' = AppProvider.Profile.id p ∧
          AppProvider.Profile.name p' = AppProvider.Profile.name p ∧
          AppProvider.Profile.createdAt p' = AppProvider.Profile.createdAt p ∧
          (AppProvider.Profile.id p ≠ AppProvider.Profile.id current → p' = p).
Proof.
  intros Hon Hcurrent Hrun.
  destruct (onCurrentProfile_write _ _ _ _ _ Hon Hrun) as [updates Hwrite].
  apply updateCurrentProfile_SetData in Hwrite
    as (d0 & current0 & [= <-] & Hcurrent0 & -> & _).
  assert (current0 = current) as -> by congruence.
  simpl. split_and!; [done..|by rewrite length_fmap|].
  intros k p Hk. rewrite list_lookup_fmap, Hk. simpl.
  eexists. split; [done|]. by case_bool_decide.
Qed.

(** X16 at the creation of a task in the current profile of two. *)
Lemma current_profile_actions_frame_witness :
  let work := AppProvider.Profile.mk "work" "Work" 1 [] Sample.ab in
  let home := AppProvider.Profile.mk "home" "Home" 2 [] Sample.abc in
  let d := AppProvider.mkAppData [work; home] "work" "1.0.0" in
  ∃ d', AppProvider.run (Some "u") 10 (Some d)
          (AppProvider.CreateTask "n" (Sample.task "" "todo" None 0))
        = AppProvider.SetData d' ∧
        AppProvider.profiles d' !! 1%nat = Some home.
Proof.
  intros work home d.
  set (e := AppProvider.run (Some "u") 10 (Some d)
              (AppProvider.CreateTask "n" (Sample.task "" "todo" None 0))).
  set (d' := default d (AppProvider.dataAfter None e)).
  assert (e = AppProvider.SetData d') as Hrun by reflexivity.
  exists d'. split; [exact Hrun|].
  destruct (current_profile_actions_frame (Some "u") 10 d
              (AppProvider.CreateTask "n" (Sample.task "" "todo" None 0)) d' work
              eq_refl eq_refl Hrun) as (_ & _ & _ & Hframe).
  destruct (Hframe 1%nat home eq_refl) as (p' & Hp' & _ & _ & _ & Hsame).
  rewrite Hp'. f_equal. by apply Hsame.
Defined.

Lemma profile_id_inj (l : list AppProvider.Profile.t) x y :
  NoDup (AppProvider.Profile.id <$> l) → x ∈ l → y ∈ l →
  AppProvider.Profile.id x = AppProvider.Profile.id y → x = y.
Proof.
  intros Hnd [i Hi]%list_elem_of_lookup [j Hj]%list_elem_of_lookup Heq.
  assert (i = j); [|congruence].
  eapply (NoDup_lookup (AppProvider.Profile.id <$> l)); [done| |].
  - by rewrite list_lookup_fmap, Hi.
  - rewrite list_lookup_fmap, Hj. simpl. by rewrite Heq.
Qed.

Lemma filter_fresh_snoc (tasks : list Task) newId t :
  (∀ u, u ∈ tasks → id u ≠ newId) → id t = newId →
  filter (λ u, id u ≠ newId) (tasks ++ [t]) = tasks.
Proof.
  intros Hfresh Hid. rewrite filter_app, filter_cons_False, filter_nil, app_nil_r.
  - induction tasks as [|u tasks IH]; [done|].
    rewrite filter_cons_True by (apply Hfresh; by left).
    f_equal. apply IH. intros v Hv. apply Hfresh. by right.
  - intros Hne. by apply Hne.
Qed.

(** X17. Creating a task and deleting it again gives back the data.  The
    created task is appended to the tasks of the current profile, with the
    new id and both stamps set to the clock reading; when the new id is the
    id of no task of the profile and the profiles have distinct ids,
    [deleteTask] of the new id then installs exactly the data from before
    the creation. *)
Theorem createTask_deleteTask_round_trip user newId now d task d1 current :
  AppProvider.currentProfile (Some d) = Some current →
  (∀ t, t ∈ AppProvider.Profile.tasks current → id t ≠ newId) →
  NoDup (AppProvider.Profile.id <$> AppProvider.profiles d) →
  AppProvider.createTask user newId now (Some d) task = AppProvider.SetData d1 →
  (∃ current1,
     AppProvider.currentProfile (Some d1) = Some current1 ∧
     AppProvider.Profile.tasks current1 =
       AppProvider.Profile.tasks current ++ [AppProvider.newTask newId now task]) ∧
  AppProvider.deleteTask user (Some d1) newId = AppProvider.SetData d.
Proof.
  intros Hcurrent Hfresh Hnd Hcreate.
  assert (current ∈ AppProvider.profiles d) as Hin.
  { by destruct (currentProfile_Some _ _ Hcurrent) as (? & [= <-] & ?). }
  unfold AppProvider.createTask in Hcreate. rewrite Hcurrent in Hcreate.
  pose proof Hcreate as Huser.
  apply updateCurrentProfile_SetData in Hcreate
    as (d0 & current0 & [= <-] & Hcurrent0 & Hd1 & Hcurrent1).
  assert (current0 = current) as -> by congruence.
  split; [by eexists|].
  unfold AppProvider.deleteTask. rewrite Hcurrent1.
  unfold AppProvider.updateCurrentProfile. rewrite Hcurrent1.
  destruct user as [u|].
  2:{ unfold AppProvider.updateCurrentProfile in Huser.
      by rewrite Hcurrent in Huser. }
  simpl AppProvider.persistData. f_equal.
  rewrite Hd1. simpl. destruct d as [profiles currentId version]. simpl in *.
  f_equal. rewrite <-list_fmap_compose.
  rewrite <-(list_fmap_id profiles) at 2.
  apply list_fmap_ext. intros k p Hk. simpl.
  destruct (decide (AppProvider.Profile.id p = AppProvider.Profile.id current))
    as [Hid|Hid].
  - assert (p = current) as ->.
    { apply (profile_id_inj profiles); [done| |done..].
      by eapply list_elem_of_lookup_2. }
    rewrite (bool_decide_eq_true_2 (AppProvider.Profile.id current = _)) by done.
    rewrite bool_decide_eq_true_2 by done.
    unfold AppProvider.patchProfile. simpl.
    rewrite filter_fresh_snoc by done. by destruct current.
  - rewrite (bool_decide_eq_false_2 (AppProvider.Profile.id p = _)) by done.
    by rewrite bool_decide_eq_false_2 by done.
Qed.

(** X17 at a profile holding the two-task board. *)
Lemma createTask_deleteTask_round_trip_witness :
  let work := AppProvider.Profile.mk "work" "Work" 1 [] Sample.ab in
  let d := AppProvider.mkAppData [work] "work" "1.0.0" in
  let e := AppProvider.createTask (Some "u") "n" 10 (Some d)
             (Sample.task "" "todo" None 0) in
  ∃ d1, e = AppProvider.SetData d1 ∧
        AppProvider.deleteTask (Some "u") (Some d1) "n" = AppProvider.SetData d.
Proof.
  intros work d e.
  set (d1 := default d (AppProvider.dataAfter None e)).
  assert (e = AppProvider.SetData d1) as Hcreate by reflexivity.
  assert (∀ t, t ∈ Sample.ab → id t ≠ "n") as Hfresh.
  { intros t Ht. unfold Sample.ab in Ht.
    repeat (apply elem_of_cons in Ht as [->|Ht]; [done|]).
    by apply elem_of_nil in Ht. }
  assert (NoDup (AppProvider.Profile.id <$> [work])) as Hnd by compute_done.
  exists d1. split; [exact Hcreate|].
  exact (proj2 (createTask_deleteTask_round_trip (Some "u") "n" 10 d
                  (Sample.task "" "todo" None 0) d1 work
                  eq_refl Hfresh Hnd Hcreate)).
Defined.

Lemma findById_newTasks now tasks taskId updates :
  Partial.id updates = None →
  findById taskId (AppContext.newTasks now tasks taskId updates)
  = AppContext.merge now updates <$> findById taskId tasks.
Proof.
  intros Hid. unfold findById, AppContext.newTasks. rewrite list_find_fmap.
  rewrite (list_find_ext _ (λ t, id t = taskId)).
  - destruct (list_find _ tasks) as [[k t]|] eqn:Hfind; [|done]. simpl.
    apply list_find_Some in Hfind as (_ & Ht & _).
    by rewrite bool_decide_eq_true_2.
  - intros t. simpl. case_bool_decide; [|done]. by rewrite id_merge.
Qed.

(** X18. [toggleTaskToday] for an id that no task of the current profile
    has writes nothing.  Called twice for a task of the profile (whose
    tasks have distinct ids), it installs data both times; after the first
    call the task is for today exactly when it was not before (an absent
    [isToday] counting as not for today), and after the second the tasks of
    the current profile are the tasks from before except that the task has
    the second clock reading as [updatedAt] and its [isToday] is present:
    the value it had, or [false] where the key was absent. *)
Theorem toggleTaskToday_twice user now now' d taskId current :
  AppProvider.currentProfile (Some d) = Some current →
  (findById taskId (AppProvider.Profile.tasks current) = None →
     AppProvider.toggleTaskToday user now (Some d) taskId = AppProvider.Nothing) ∧
  (∀ d1,
     NoDup (id <$> AppProvider.Profile.tasks current) →
     AppProvider.toggleTaskToday user now (Some d) taskId = AppProvider.SetData d1 →
     ∃ current1 d2 current2 k t,
       AppProvider.currentProfile (Some d1) = Some current1 ∧
       AppProvider.toggleTaskToday user now' (Some d1) taskId
         = AppProvider.SetData d2 ∧
       AppProvider.currentProfile (Some d2) = Some current2 ∧
       AppProvider.Profile.tasks current !! k = Some t ∧ id t = taskId ∧
       AppProvider.Profile.tasks current1 =
         <[k := mkTask (id t) (title t) (status t) (order t) (projectId t)
                  (Some (negb (default false (isToday t))))
                  (createdAt t) now (completedAt t)]>
           (AppProvider.Profile.tasks current) ∧
       AppProvider.Profile.tasks current2 =
         <[k := mkTask (id t) (title t) (status t) (order t) (projectId t)
                  (Some (default false (isToday t)))
                  (createdAt t) now' (completedAt t)]>
           (AppProvider.Profile.tasks current)).
Proof.
  intros Hcurrent. unfold AppProvider.toggleTaskToday at 1 2.
  rewrite Hcurrent. split; [by intros ->|].
  intros d1 Hnd Hrun.
  destruct (findById taskId _) as [task|] eqn:Htask; [|done].
  unfold AppProvider.updateTask in Hrun. rewrite Hcurrent in Hrun.
  assert (∃ u, user = Some u) as [u ->].
  { destruct user as [u|]; [by exists u|].
    unfold AppProvider.updateCurrentProfile in Hrun. by rewrite Hcurrent in Hrun. }
  apply updateCurrentProfile_SetData in Hrun
    as (d0 & current0 & [= <-] & Hcurrent0 & _ & Hcurrent1).
  assert (current0 = current) as -> by congruence. clear Hcurrent0.
  unfold findById in Htask.
  destruct (list_find _ _) as [[k t]|] eqn:Hfind; [|done].
  simpl in Htask. injection Htask as <-.
  apply list_find_Some in Hfind as (Hk & Hid & _).
  set (on := Partial.mk None None None None None
               (Some (Some (negb (default false (isToday t))))) None None None) in *.
  set (tasks1 := AppContext.newTasks now (AppProvider.Profile.tasks current)
                   taskId on) in *.
  assert (tasks1 = <[k := AppContext.merge now on t]> (AppProvider.Profile.tasks current))
    as Htasks1 by (by apply newTasks_one_position).
  unfold AppProvider.toggleTaskToday. rewrite Hcurrent1. simpl AppProvider.Profile.tasks.
  fold tasks1. subst tasks1.
  rewrite findById_newTasks by done. unfold findById. rewrite <-Hid.
  rewrite (list_find_id_NoDup _ k t Hnd Hk). simpl fmap.
  unfold AppProvider.updateTask. rewrite Hcurrent1.
  unfold AppProvider.updateCurrentProfile at 1. rewrite Hcurrent1.
  simpl AppProvider.persistData.
  eexists _, _, _, k, t. split; [reflexivity|]. split; [reflexivity|].
  split.
  - rewrite currentProfile_fmap.
    + rewrite Hcurrent1. simpl. by rewrite bool_decide_eq_true_2.
    + intros p. by case_bool_decide.
  - split_and!; [done..| |]; simpl.
    { rewrite Hid, Htasks1. f_equal. unfold AppContext.merge. simpl.
      by rewrite Hid. }
    rewrite Htasks1.
    rewrite (newTasks_one_position _ _ _ _ k (AppContext.merge now on t)).
    + rewrite list_insert_insert_eq. f_equal.
      unfold AppContext.merge. simpl. by rewrite negb_involutive.
    + rewrite list_fmap_insert, list_insert_id; [done|].
      by rewrite list_lookup_fmap, Hk.
    + apply list_lookup_insert_eq. by eapply lookup_lt_Some.
    + done.
Qed.

(** X18 at a profile holding the two-task board, whose tasks have no
    [isToday]: [a] is toggled at the clock readings 10 and 11 and ends with
    [isToday] false. *)
Lemma toggleTaskToday_twice_witness :
  let work := AppProvider.Profile.mk "work" "Work" 1 [] Sample.ab in
  let d := AppProvider.mkAppData [work] "work" "1.0.0" in
  let e := AppProvider.toggleTaskToday (Some "u") 10 (Some d) "a" in
  ∃ d1 current1 d2 current2 k t,
    e = AppProvider.SetData d1 ∧
    AppProvider.currentProfile (Some d1) = Some current1 ∧
    AppProvider.toggleTaskToday (Some "u") 11 (Some d1) "a"
      = AppProvider.SetData d2 ∧
    AppProvider.currentProfile (Some d2) = Some current2 ∧
    Sample.ab !! k = Some t ∧ id t = "a" ∧
    AppProvider.Profile.tasks current1 =
      <[k := mkTask (id t) (title t) (status t) (order t) (projectId t)
               (Some (negb (default false (isToday t))))
               (createdAt t) 10 (completedAt t)]> Sample.ab ∧
    AppProvider.Profile.tasks current2 =
      <[k := mkTask (id t) (title t) (status t) (order t) (projectId t)
               (Some (default false (isToday t)))
               (createdAt t) 11 (completedAt t)]> Sample.ab ∧
    isToday <$> Sample.ab = [None; None].
Proof.
  intros work d e.
  set (d1 := default d (AppProvider.dataAfter None e)).
  assert (e = AppProvider.SetData d1) as Hrun by reflexivity.
  assert (NoDup (id <$> Sample.ab)) as Hnd by compute_done.
  destruct (proj2 (toggleTaskToday_twice (Some "u") 10 11 d "a" work eq_refl)
              d1 Hnd Hrun)
    as (current1 & d2 & current2 & k & t & Hcurrent1 & Hagain & Hcurrent2 & Hk & Hid
        & Htasks1 & Htasks2).
  exists d1, current1, d2, current2, k, t.
  split_and!; [exact Hrun|exact Hcurrent1|exact Hagain|exact Hcurrent2|exact Hk
              |exact Hid|exact Htasks1|exact Htasks2|reflexivity].
Defined.

(** X19. Deleting a project deletes its tasks with it, and this is what
    keeps the tasks of the profile pointing at projects that exist: when
    every task that names a project names a project of the current profile,
    the same holds after [deleteProject]; no project with the id and no
    task naming it is left; and every other project and every task that
    does not name it is kept. *)
Theorem deleteProject_takes_its_tasks user d projectRef d' current :
  AppProvider.currentProfile (Some d) = Some current →
  AppProvider.projectsExist current →
  AppProvider.deleteProject user (Some d) projectRef = AppProvider.SetData d' →
  ∃ current',
    AppProvider.currentProfile (Some d') = Some current' ∧
    AppProvider.projectsExist current' ∧
    AppProvider.Profile.projects current' =
      filter (λ p, AppProvider.Project.id p ≠ projectRef)
        (AppProvider.Profile.projects current) ∧
    AppProvider.Profile.tasks current' =
      filter (λ t, projectId t ≠ Some projectRef) (AppProvider.Profile.tasks current) ∧
    (∀ t, t ∈ AppProvider.Profile.tasks current' → projectId t ≠ Some projectRef) ∧
    (∀ t, t ∈ AppProvider.Profile.tasks current → projectId t ≠ Some projectRef →
       t ∈ AppProvider.Profile.tasks current').
Proof.
  intros Hcurrent Hexist Hrun.
  unfold AppProvider.deleteProject in Hrun. rewrite Hcurrent in Hrun.
  apply updateCurrentProfile_SetData in Hrun
    as (d0 & current0 & [= <-] & Hcurrent0 & _ & Hcurrent').
  assert (current0 = current) as -> by congruence.
  eexists. split; [exact Hcurrent'|]. simpl.
  split_and!; [|done..| |].
  - intros t named [Hnamed Ht]%list_elem_of_filter Hproject. simpl in *.
    destruct (Hexist t named Ht Hproject) as (project & Hin & Hid).
    exists project. split; [|done]. apply list_elem_of_filter. split; [|done].
    congruence.
  - by intros t [Hnamed _]%list_elem_of_filter.
  - intros t Ht Hnamed. by apply list_elem_of_filter.
Qed.

(** X19 at a profile with two projects and a task in each. *)
Lemma deleteProject_takes_its_tasks_witness :
  let garden := AppProvider.Project.mk "garden" "active" None 1 1 in
  let house := AppProvider.Project.mk "house" "active" None 2 2 in
  let dig := mkTask "dig" "Dig" "todo" None (Some "garden") None 3 3 None in
  let paint := mkTask "paint" "Paint" "todo" None (Some "house") None 4 4 None in
  let work := AppProvider.Profile.mk "work" "Work" 1 [garden; house] [dig; paint] in
  let d := AppProvider.mkAppData [work] "work" "1.0.0" in
  ∃ d' current',
    AppProvider.deleteProject (Some "u") (Some d) "garden" = AppProvider.SetData d' ∧
    AppProvider.currentProfile (Some d') = Some current' ∧
    AppProvider.projectsExist current' ∧
    AppProvider.Profile.projects current' = [house] ∧
    AppProvider.Profile.tasks current' = [paint].
Proof.
  intros garden house dig paint work d.
  set (e := AppProvider.deleteProject (Some "u") (Some d) "garden").
  set (d' := default d (AppProvider.dataAfter None e)).
  assert (e = AppProvider.SetData d') as Hrun by reflexivity.
  assert (AppProvider.projectsExist work) as Hexist.
  { intros t named Ht Hnamed. simpl in Ht.
    apply elem_of_cons in Ht as [->|Ht].
    { exists garden. split; [by left|]. by injection Hnamed. }
    apply elem_of_cons in Ht as [->|Ht]; [|by apply elem_of_nil in Ht].
    exists house. split; [right; by left|]. by injection Hnamed. }
  destruct (deleteProject_takes_its_tasks (Some "u") d "garden" d' work
              eq_refl Hexist Hrun)
    as (current' & Hcurrent' & Hexist' & Hprojects & Htasks & _).
  exists d', current'.
  split_and!; [exact Hrun|exact Hcurrent'|exact Hexist'| |].
  - by rewrite Hprojects.
  - by rewrite Htasks.
Defined.

(** X21. The guards of the actions.  Signed out, or before the data are
    loaded, no action writes anything; and no action other than
    [deleteProfile] can raise. *)
Theorem actions_need_user_and_data user now data a :
  (user = None ∨ data = None →
     AppProvider.run user now data a = AppProvider.Nothing) ∧
  (AppProvider.run user now data a = AppProvider.Rejected →
     ∃ profileId, a = AppProvider.DeleteProfile profileId).
Proof.
  assert (∀ updates,
            AppProvider.updateCurrentProfile user data updates ≠ AppProvider.Rejected)
    as Hwrite.
  { intros updates. unfold AppProvider.updateCurrentProfile.
    destruct data as [d|]; [|done].
    destruct (AppProvider.currentProfile _); [|done]. by destruct user. }
  assert (user = None →
          ∀ updates, AppProvider.updateCurrentProfile user data updates
                     = AppProvider.Nothing) as Hout.
  { intros -> updates. unfold AppProvider.updateCurrentProfile.
    destruct data as [d|]; [|done]. by destruct (AppProvider.currentProfile _). }
  split.
  - intros Hguard.
    destruct a; simpl;
      unfold AppProvider.switchProfile, AppProvider.createProfile,
        AppProvider.renameProfile, AppProvider.deleteProfile,
        AppProvider.archiveProject, AppProvider.updateProject,
        AppProvider.deleteProject, AppProvider.createTask,
        AppProvider.toggleTaskToday, AppProvider.updateTaskStatus,
        AppProvider.updateTask, AppProvider.deleteTask;
      destruct Hguard as [Huser| ->]; try done;
      try (rewrite Huser; by destruct data);
      try (destruct (AppProvider.currentProfile data); [by apply Hout|done]).
    destruct (AppProvider.currentProfile data); [|done].
    destruct (findById _ _); [by apply Hout|done].
  - destruct a; simpl; eauto;
      unfold AppProvider.switchProfile, AppProvider.createProfile,
        AppProvider.renameProfile,
        AppProvider.archiveProject, AppProvider.updateProject,
        AppProvider.deleteProject, AppProvider.createTask,
        AppProvider.toggleTaskToday, AppProvider.updateTaskStatus,
        AppProvider.updateTask, AppProvider.deleteTask;
      intros Hraised; exfalso;
      try (destruct (AppProvider.currentProfile data);
           [by eapply Hwrite|done]).
    + destruct data as [d|], user as [u|]; try done.
      by destruct (existsb _ _).
    + destruct data as [d|]; [|done]. by destruct user.
    + destruct data as [d|]; [|done]. by destruct user.
    + destruct (AppProvider.currentProfile data); [|done].
      destruct (findById _ _); [by eapply Hwrite|done].
Qed.

(** X21 at the creation of a task while signed out. *)
Lemma actions_need_user_and_data_witness :
  let d := AppProvider.mkAppData
             [AppProvider.Profile.mk "work" "Work" 1 [] Sample.ab] "work" "1.0.0" in
  AppProvider.run None 10 (Some d)
    (AppProvider.CreateTask "n" (Sample.task "" "todo" None 0))
  = AppProvider.Nothing.
Proof.
  intros d.
  apply (proj1 (actions_need_user_and_data None 10 (Some d)
                  (AppProvider.CreateTask "n" (Sample.task "" "todo" None 0)))).
  by left.
Defined.

(** X22. What the provider's [updateTask] installs is what [updateTask]
    computes from the task list of the current profile: after the write,
    the tasks of the current profile are that list, and the task list
    handed over is never absent.  The same holds for [updateTaskStatus]
    with the update [{ status }]. *)
Theorem provider_updateTask_installs user now d taskId updates d' :
  AppProvider.updateTask user now (Some d) taskId updates = AppProvider.SetData d' →
  AppProvider.Profile.tasks <$> AppProvider.currentProfile (Some d')
  = AppContext.updateTask now
      (AppProvider.Profile.tasks <$> AppProvider.currentProfile (Some d))
      taskId updates ∧
  (∀ s, updates = Partial.ofStatus s →
     AppProvider.updateTaskStatus user now (Some d) taskId s = AppProvider.SetData d' ∧
     AppProvider.Profile.tasks <$> AppProvider.currentProfile (Some d')
     = AppContext.updateTaskStatus now
         (AppProvider.Profile.tasks <$> AppProvider.currentProfile (Some d))
         taskId s).
Proof.
  intros Hrun.
  assert (AppProvider.Profile.tasks <$> AppProvider.currentProfile (Some d')
          = AppContext.updateTask now
              (AppProvider.Profile.tasks <$> AppProvider.currentProfile (Some d))
              taskId updates) as Hinstalled.
  { unfold AppProvider.updateTask in Hrun.
    destruct (AppProvider.currentProfile (Some d)) as [current|] eqn:Hcurrent; [|done].
    apply updateCurrentProfile_SetData in Hrun
      as (d0 & current0 & [= <-] & Hcurrent0 & _ & ->).
    by assert (current0 = current) as -> by congruence. }
  split; [done|]. intros s ->. split; [done|]. exact Hinstalled.
Qed.

(** X22 at a profile holding the two-task board: [a] is set to done at
    the clock reading 10. *)
Lemma provider_updateTask_installs_witness :
  let work := AppProvider.Profile.mk "work" "Work" 1 [] Sample.ab in
  let d := AppProvider.mkAppData [work] "work" "1.0.0" in
  ∃ d', AppProvider.updateTask (Some "u") 10 (Some d) "a" (Partial.ofStatus "done")
          = AppProvider.SetData d' ∧
        AppProvider.Profile.tasks <$> AppProvider.currentProfile (Some d')
          = Some (AppContext.newTasks 10 Sample.ab "a" (Partial.ofStatus "done")).
Proof.
  intros work d.
  set (e := AppProvider.updateTask (Some "u") 10 (Some d) "a" (Partial.ofStatus "done")).
  set (d' := default d (AppProvider.dataAfter None e)).
  assert (e = AppProvider.SetData d') as Hrun by reflexivity.
  exists d'. split; [exact Hrun|].
  exact (proj1 (provider_updateTask_installs (Some "u") 10 d "a"
                  (Partial.ofStatus "done") d' Hrun)).
Defined.
